(** * Meta fields of lste: extraction and substitution (src/meta.py)

    A shallow embedding of [meta.py] and of the parts of Python's [re] and
    [str] it calls, followed by the properties of the module.

    Conventions.  A Python [str] is a sequence of Unicode code points: here a
    list of [N].  A Python [dict] keeps its keys unique and in insertion
    order: here an association list updated in place.  An exception is a
    value of [exn] returned in [result].  The library behaviour followed is
    that of CPython's [re], [str] and [int], release 3.11; the character
    tables are those of Unicode 14.0.  Warnings are not modelled. *)

From Stdlib Require Import String Ascii List NArith ZArith Lia Bool.
Import ListNotations.

Local Open Scope N_scope.
Local Open Scope list_scope.

(** ** Text *)

Definition char := N.
Definition str := list char.

Definition ord (a : ascii) : char := N_of_ascii a.

(** [text "abc"] is the Python literal ['abc'] (code points below U+0100). *)
Definition text (s : string) : str := map ord (list_ascii_of_string s).

Definition LBRACE : char := 123.
Definition RBRACE : char := 125.
Definition COLON : char := 58.
Definition BACKSLASH : char := 92.
Definition HYPHEN : char := 45.
Definition UNDERSCORE : char := 95.

Fixpoint str_eqb (a b : str) : bool :=
  match a, b with
  | [], [] => true
  | x :: a', y :: b' => (x =? y) && str_eqb a' b'
  | _, _ => false
  end.

Definition in_range (c : char) (r : N * N) : bool :=
  (fst r <=? c) && (c <=? snd r).

Definition in_ranges (t : list (N * N)) (c : char) : bool :=
  existsb (in_range c) t.

(** ** Character classes *)

Module Unicode.

(** [Py_UNICODE_ISSPACE]: the characters [str.strip()] removes. *)
Definition space_ranges : list (N * N) :=
  [(9, 13); (28, 32); (133, 133); (160, 160); (5760, 5760); (8192, 8202);
   (8232, 8233); (8239, 8239); (8287, 8287); (12288, 12288)].

(** [Py_UNICODE_ISALNUM]: alphabetic, decimal, digit or numeric. *)
Definition alnum_ranges : list (N * N) :=
  [
    (48, 57); (65, 90); (97, 122); (170, 170); (178, 179); (181, 181);
     (185, 186); (188, 190); (192, 214); (216, 246); (248, 705); (710, 721);
     (736, 740); (748, 748); (750, 750); (880, 884); (886, 887); (890, 893);
     (895, 895); (902, 902); (904, 906); (908, 908); (910, 929); (931, 1013);
     (1015, 1153); (1162, 1327); (1329, 1366); (1369, 1369); (1376, 1416);
     (1488, 1514); (1519, 1522); (1568, 1610); (1632, 1641); (1646, 1647);
     (1649, 1747); (1749, 1749); (1765, 1766); (1774, 1788); (1791, 1791);
     (1808, 1808); (1810, 1839); (1869, 1957); (1969, 1969); (1984, 2026);
     (2036, 2037); (2042, 2042); (2048, 2069); (2074, 2074); (2084, 2084);
     (2088, 2088); (2112, 2136); (2144, 2154); (2160, 2183); (2185, 2190);
     (2208, 2249); (2308, 2361); (2365, 2365); (2384, 2384); (2392, 2401);
     (2406, 2415); (2417, 2432); (2437, 2444); (2447, 2448); (2451, 2472);
     (2474, 2480); (2482, 2482); (2486, 2489); (2493, 2493); (2510, 2510);
     (2524, 2525); (2527, 2529); (2534, 2545); (2548, 2553); (2556, 2556);
     (2565, 2570); (2575, 2576); (2579, 2600); (2602, 2608); (2610, 2611);
     (2613, 2614); (2616, 2617); (2649, 2652); (2654, 2654); (2662, 2671);
     (2674, 2676); (2693, 2701); (2703, 2705); (2707, 2728); (2730, 2736);
     (2738, 2739); (2741, 2745); (2749, 2749); (2768, 2768); (2784, 2785);
     (2790, 2799); (2809, 2809); (2821, 2828); (2831, 2832); (2835, 2856);
     (2858, 2864); (2866, 2867); (2869, 2873); (2877, 2877); (2908, 2909);
     (2911, 2913); (2918, 2927); (2929, 2935); (2947, 2947); (2949, 2954);
     (2958, 2960); (2962, 2965); (2969, 2970); (2972, 2972); (2974, 2975);
     (2979, 2980); (2984, 2986); (2990, 3001); (3024, 3024); (3046, 3058);
     (3077, 3084); (3086, 3088); (3090, 3112); (3114, 3129); (3133, 3133);
     (3160, 3162); (3165, 3165); (3168, 3169); (3174, 3183); (3192, 3198);
     (3200, 3200); (3205, 3212); (3214, 3216); (3218, 3240); (3242, 3251);
     (3253, 3257); (3261, 3261); (3293, 3294); (3296, 3297); (3302, 3311);
     (3313, 3314); (3332, 3340); (3342, 3344); (3346, 3386); (3389, 3389);
     (3406, 3406); (3412, 3414); (3416, 3425); (3430, 3448); (3450, 3455);
     (3461, 3478); (3482, 3505); (3507, 3515); (3517, 3517); (3520, 3526);
     (3558, 3567); (3585, 3632); (3634, 3635); (3648, 3654); (3664, 3673);
     (3713, 3714); (3716, 3716); (3718, 3722); (3724, 3747); (3749, 3749);
     (3751, 3760); (3762, 3763); (3773, 3773); (3776, 3780); (3782, 3782);
     (3792, 3801); (3804, 3807); (3840, 3840); (3872, 3891); (3904, 3911);
     (3913, 3948); (3976, 3980); (4096, 4138); (4159, 4169); (4176, 4181);
     (4186, 4189); (4193, 4193); (4197, 4198); (4206, 4208); (4213, 4225);
     (4238, 4238); (4240, 4249); (4256, 4293); (4295, 4295); (4301, 4301);
     (4304, 4346); (4348, 4680); (4682, 4685); (4688, 4694); (4696, 4696);
     (4698, 4701); (4704, 4744); (4746, 4749); (4752, 4784); (4786, 4789);
     (4792, 4798); (4800, 4800); (4802, 4805); (4808, 4822); (4824, 4880);
     (4882, 4885); (4888, 4954); (4969, 4988); (4992, 5007); (5024, 5109);
     (5112, 5117); (5121, 5740); (5743, 5759); (5761, 5786); (5792, 5866);
     (5870, 5880); (5888, 5905); (5919, 5937); (5952, 5969); (5984, 5996);
     (5998, 6000); (6016, 6067); (6103, 6103); (6108, 6108); (6112, 6121);
     (6128, 6137); (6160, 6169); (6176, 6264); (6272, 6276); (6279, 6312);
     (6314, 6314); (6320, 6389); (6400, 6430); (6470, 6509); (6512, 6516);
     (6528, 6571); (6576, 6601); (6608, 6618); (6656, 6678); (6688, 6740);
     (6784, 6793); (6800, 6809); (6823, 6823); (6917, 6963); (6981, 6988);
     (6992, 7001); (7043, 7072); (7086, 7141); (7168, 7203); (7232, 7241);
     (7245, 7293); (7296, 7304); (7312, 7354); (7357, 7359); (7401, 7404);
     (7406, 7411); (7413, 7414); (7418, 7418); (7424, 7615); (7680, 7957);
     (7960, 7965); (7968, 8005); (8008, 8013); (8016, 8023); (8025, 8025);
     (8027, 8027); (8029, 8029); (8031, 8061); (8064, 8116); (8118, 8124);
     (8126, 8126); (8130, 8132); (8134, 8140); (8144, 8147); (8150, 8155);
     (8160, 8172); (8178, 8180); (8182, 8188); (8304, 8305); (8308, 8313);
     (8319, 8329); (8336, 8348); (8450, 8450); (8455, 8455); (8458, 8467);
     (8469, 8469); (8473, 8477); (8484, 8484); (8486, 8486); (8488, 8488);
     (8490, 8493); (8495, 8505); (8508, 8511); (8517, 8521); (8526, 8526);
     (8528, 8585); (9312, 9371); (9450, 9471); (10102, 10131); (11264, 11492);
     (11499, 11502); (11506, 11507); (11517, 11517); (11520, 11557);
     (11559, 11559); (11565, 11565); (11568, 11623); (11631, 11631);
     (11648, 11670); (11680, 11686); (11688, 11694); (11696, 11702);
     (11704, 11710); (11712, 11718); (11720, 11726); (11728, 11734);
     (11736, 11742); (11823, 11823); (12293, 12295); (12321, 12329);
     (12337, 12341); (12344, 12348); (12353, 12438); (12445, 12447);
     (12449, 12538); (12540, 12543); (12549, 12591); (12593, 12686);
     (12690, 12693); (12704, 12735); (12784, 12799); (12832, 12841);
     (12872, 12879); (12881, 12895); (12928, 12937); (12977, 12991);
     (13312, 19903); (19968, 42124); (42192, 42237); (42240, 42508);
     (42512, 42539); (42560, 42606); (42623, 42653); (42656, 42735);
     (42775, 42783); (42786, 42888); (42891, 42954); (42960, 42961);
     (42963, 42963); (42965, 42969); (42994, 43009); (43011, 43013);
     (43015, 43018); (43020, 43042); (43056, 43061); (43072, 43123);
     (43138, 43187); (43216, 43225); (43250, 43255); (43259, 43259);
     (43261, 43262); (43264, 43301); (43312, 43334); (43360, 43388);
     (43396, 43442); (43471, 43481); (43488, 43492); (43494, 43518);
     (43520, 43560); (43584, 43586); (43588, 43595); (43600, 43609);
     (43616, 43638); (43642, 43642); (43646, 43695); (43697, 43697);
     (43701, 43702); (43705, 43709); (43712, 43712); (43714, 43714);
     (43739, 43741); (43744, 43754); (43762, 43764); (43777, 43782);
     (43785, 43790); (43793, 43798); (43808, 43814); (43816, 43822);
     (43824, 43866); (43868, 43881); (43888, 44002); (44016, 44025);
     (44032, 55203); (55216, 55238); (55243, 55291); (63744, 64109);
     (64112, 64217); (64256, 64262); (64275, 64279); (64285, 64285);
     (64287, 64296); (64298, 64310); (64312, 64316); (64318, 64318);
     (64320, 64321); (64323, 64324); (64326, 64433); (64467, 64829);
     (64848, 64911); (64914, 64967); (65008, 65019); (65136, 65140);
     (65142, 65276); (65296, 65305); (65313, 65338); (65345, 65370);
     (65382, 65470); (65474, 65479); (65482, 65487); (65490, 65495);
     (65498, 65500); (65536, 65547); (65549, 65574); (65576, 65594);
     (65596, 65597); (65599, 65613); (65616, 65629); (65664, 65786);
     (65799, 65843); (65856, 65912); (65930, 65931); (66176, 66204);
     (66208, 66256); (66273, 66299); (66304, 66339); (66349, 66378);
     (66384, 66421); (66432, 66461); (66464, 66499); (66504, 66511);
     (66513, 66517); (66560, 66717); (66720, 66729); (66736, 66771);
     (66776, 66811); (66816, 66855); (66864, 66915); (66928, 66938);
     (66940, 66954); (66956, 66962); (66964, 66965); (66967, 66977);
     (66979, 66993); (66995, 67001); (67003, 67004); (67072, 67382);
     (67392, 67413); (67424, 67431); (67456, 67461); (67463, 67504);
     (67506, 67514); (67584, 67589); (67592, 67592); (67594, 67637);
     (67639, 67640); (67644, 67644); (67647, 67669); (67672, 67702);
     (67705, 67742); (67751, 67759); (67808, 67826); (67828, 67829);
     (67835, 67867); (67872, 67897); (67968, 68023); (68028, 68047);
     (68050, 68096); (68112, 68115); (68117, 68119); (68121, 68149);
     (68160, 68168); (68192, 68222); (68224, 68255); (68288, 68295);
     (68297, 68324); (68331, 68335); (68352, 68405); (68416, 68437);
     (68440, 68466); (68472, 68497); (68521, 68527); (68608, 68680);
     (68736, 68786); (68800, 68850); (68858, 68899); (68912, 68921);
     (69216, 69246); (69248, 69289); (69296, 69297); (69376, 69415);
     (69424, 69445); (69457, 69460); (69488, 69505); (69552, 69579);
     (69600, 69622); (69635, 69687); (69714, 69743); (69745, 69746);
     (69749, 69749); (69763, 69807); (69840, 69864); (69872, 69881);
     (69891, 69926); (69942, 69951); (69956, 69956); (69959, 69959);
     (69968, 70002); (70006, 70006); (70019, 70066); (70081, 70084);
     (70096, 70106); (70108, 70108); (70113, 70132); (70144, 70161);
     (70163, 70187); (70272, 70278); (70280, 70280); (70282, 70285);
     (70287, 70301); (70303, 70312); (70320, 70366); (70384, 70393);
     (70405, 70412); (70415, 70416); (70419, 70440); (70442, 70448);
     (70450, 70451); (70453, 70457); (70461, 70461); (70480, 70480);
     (70493, 70497); (70656, 70708); (70727, 70730); (70736, 70745);
     (70751, 70753); (70784, 70831); (70852, 70853); (70855, 70855);
     (70864, 70873); (71040, 71086); (71128, 71131); (71168, 71215);
     (71236, 71236); (71248, 71257); (71296, 71338); (71352, 71352);
     (71360, 71369); (71424, 71450); (71472, 71483); (71488, 71494);
     (71680, 71723); (71840, 71922); (71935, 71942); (71945, 71945);
     (71948, 71955); (71957, 71958); (71960, 71983); (71999, 71999);
     (72001, 72001); (72016, 72025); (72096, 72103); (72106, 72144);
     (72161, 72161); (72163, 72163); (72192, 72192); (72203, 72242);
     (72250, 72250); (72272, 72272); (72284, 72329); (72349, 72349);
     (72368, 72440); (72704, 72712); (72714, 72750); (72768, 72768);
     (72784, 72812); (72818, 72847); (72960, 72966); (72968, 72969);
     (72971, 73008); (73030, 73030); (73040, 73049); (73056, 73061);
     (73063, 73064); (73066, 73097); (73112, 73112); (73120, 73129);
     (73440, 73458); (73648, 73648); (73664, 73684); (73728, 74649);
     (74752, 74862); (74880, 75075); (77712, 77808); (77824, 78894);
     (82944, 83526); (92160, 92728); (92736, 92766); (92768, 92777);
     (92784, 92862); (92864, 92873); (92880, 92909); (92928, 92975);
     (92992, 92995); (93008, 93017); (93019, 93025); (93027, 93047);
     (93053, 93071); (93760, 93846); (93952, 94026); (94032, 94032);
     (94099, 94111); (94176, 94177); (94179, 94179); (94208, 100343);
     (100352, 101589); (101632, 101640); (110576, 110579); (110581, 110587);
     (110589, 110590); (110592, 110882); (110928, 110930); (110948, 110951);
     (110960, 111355); (113664, 113770); (113776, 113788); (113792, 113800);
     (113808, 113817); (119520, 119539); (119648, 119672); (119808, 119892);
     (119894, 119964); (119966, 119967); (119970, 119970); (119973, 119974);
     (119977, 119980); (119982, 119993); (119995, 119995); (119997, 120003);
     (120005, 120069); (120071, 120074); (120077, 120084); (120086, 120092);
     (120094, 120121); (120123, 120126); (120128, 120132); (120134, 120134);
     (120138, 120144); (120146, 120485); (120488, 120512); (120514, 120538);
     (120540, 120570); (120572, 120596); (120598, 120628); (120630, 120654);
     (120656, 120686); (120688, 120712); (120714, 120744); (120746, 120770);
     (120772, 120779); (120782, 120831); (122624, 122654); (123136, 123180);
     (123191, 123197); (123200, 123209); (123214, 123214); (123536, 123565);
     (123584, 123627); (123632, 123641); (124896, 124902); (124904, 124907);
     (124909, 124910); (124912, 124926); (124928, 125124); (125127, 125135);
     (125184, 125251); (125259, 125259); (125264, 125273); (126065, 126123);
     (126125, 126127); (126129, 126132); (126209, 126253); (126255, 126269);
     (126464, 126467); (126469, 126495); (126497, 126498); (126500, 126500);
     (126503, 126503); (126505, 126514); (126516, 126519); (126521, 126521);
     (126523, 126523); (126530, 126530); (126535, 126535); (126537, 126537);
     (126539, 126539); (126541, 126543); (126545, 126546); (126548, 126548);
     (126551, 126551); (126553, 126553); (126555, 126555); (126557, 126557);
     (126559, 126559); (126561, 126562); (126564, 126564); (126567, 126570);
     (126572, 126578); (126580, 126583); (126585, 126588); (126590, 126590);
     (126592, 126601); (126603, 126619); (126625, 126627); (126629, 126633);
     (126635, 126651); (127232, 127244); (130032, 130041); (131072, 173791);
     (173824, 177976); (177984, 178205); (178208, 183969); (183984, 191456);
     (194560, 195101); (196608, 201546)
  ].

Definition isspace (c : char) : bool := in_ranges space_ranges c.
Definition isalnum (c : char) : bool := in_ranges alnum_ranges c.

(** The class [\w] of a [str] pattern: [SRE_UNI_IS_WORD]. *)
Definition isword (c : char) : bool := isalnum c || (c =? UNDERSCORE).

(** [_PyUnicode_IsXidStart] and [_PyUnicode_IsXidContinue]: the characters
    that begin and that continue an identifier. *)
Definition xid_start_ranges : list (N * N) :=
  [
     (65, 90); (97, 122); (170, 170); (181, 181); (186, 186); (192, 214);
     (216, 246); (248, 705); (710, 721); (736, 740); (748, 748); (750, 750);
     (880, 884); (886, 887); (891, 893); (895, 895); (902, 902); (904, 906);
     (908, 908); (910, 929); (931, 1013); (1015, 1153); (1162, 1327); (1329, 1366);
     (1369, 1369); (1376, 1416); (1488, 1514); (1519, 1522); (1568, 1610); (1646, 1647);
     (1649, 1747); (1749, 1749); (1765, 1766); (1774, 1775); (1786, 1788); (1791, 1791);
     (1808, 1808); (1810, 1839); (1869, 1957); (1969, 1969); (1994, 2026); (2036, 2037);
     (2042, 2042); (2048, 2069); (2074, 2074); (2084, 2084); (2088, 2088); (2112, 2136);
     (2144, 2154); (2160, 2183); (2185, 2190); (2208, 2249); (2308, 2361); (2365, 2365);
     (2384, 2384); (2392, 2401); (2417, 2432); (2437, 2444); (2447, 2448); (2451, 2472);
     (2474, 2480); (2482, 2482); (2486, 2489); (2493, 2493); (2510, 2510); (2524, 2525);
     (2527, 2529); (2544, 2545); (2556, 2556); (2565, 2570); (2575, 2576); (2579, 2600);
     (2602, 2608); (2610, 2611); (2613, 2614); (2616, 2617); (2649, 2652); (2654, 2654);
     (2674, 2676); (2693, 2701); (2703, 2705); (2707, 2728); (2730, 2736); (2738, 2739);
     (2741, 2745); (2749, 2749); (2768, 2768); (2784, 2785); (2809, 2809); (2821, 2828);
     (2831, 2832); (2835, 2856); (2858, 2864); (2866, 2867); (2869, 2873); (2877, 2877);
     (2908, 2909); (2911, 2913); (2929, 2929); (2947, 2947); (2949, 2954); (2958, 2960);
     (2962, 2965); (2969, 2970); (2972, 2972); (2974, 2975); (2979, 2980); (2984, 2986);
     (2990, 3001); (3024, 3024); (3077, 3084); (3086, 3088); (3090, 3112); (3114, 3129);
     (3133, 3133); (3160, 3162); (3165, 3165); (3168, 3169); (3200, 3200); (3205, 3212);
     (3214, 3216); (3218, 3240); (3242, 3251); (3253, 3257); (3261, 3261); (3293, 3294);
     (3296, 3297); (3313, 3314); (3332, 3340); (3342, 3344); (3346, 3386); (3389, 3389);
     (3406, 3406); (3412, 3414); (3423, 3425); (3450, 3455); (3461, 3478); (3482, 3505);
     (3507, 3515); (3517, 3517); (3520, 3526); (3585, 3632); (3634, 3634); (3648, 3654);
     (3713, 3714); (3716, 3716); (3718, 3722); (3724, 3747); (3749, 3749); (3751, 3760);
     (3762, 3762); (3773, 3773); (3776, 3780); (3782, 3782); (3804, 3807); (3840, 3840);
     (3904, 3911); (3913, 3948); (3976, 3980); (4096, 4138); (4159, 4159); (4176, 4181);
     (4186, 4189); (4193, 4193); (4197, 4198); (4206, 4208); (4213, 4225); (4238, 4238);
     (4256, 4293); (4295, 4295); (4301, 4301); (4304, 4346); (4348, 4680); (4682, 4685);
     (4688, 4694); (4696, 4696); (4698, 4701); (4704, 4744); (4746, 4749); (4752, 4784);
     (4786, 4789); (4792, 4798); (4800, 4800); (4802, 4805); (4808, 4822); (4824, 4880);
     (4882, 4885); (4888, 4954); (4992, 5007); (5024, 5109); (5112, 5117); (5121, 5740);
     (5743, 5759); (5761, 5786); (5792, 5866); (5870, 5880); (5888, 5905); (5919, 5937);
     (5952, 5969); (5984, 5996); (5998, 6000); (6016, 6067); (6103, 6103); (6108, 6108);
     (6176, 6264); (6272, 6312); (6314, 6314); (6320, 6389); (6400, 6430); (6480, 6509);
     (6512, 6516); (6528, 6571); (6576, 6601); (6656, 6678); (6688, 6740); (6823, 6823);
     (6917, 6963); (6981, 6988); (7043, 7072); (7086, 7087); (7098, 7141); (7168, 7203);
     (7245, 7247); (7258, 7293); (7296, 7304); (7312, 7354); (7357, 7359); (7401, 7404);
     (7406, 7411); (7413, 7414); (7418, 7418); (7424, 7615); (7680, 7957); (7960, 7965);
     (7968, 8005); (8008, 8013); (8016, 8023); (8025, 8025); (8027, 8027); (8029, 8029);
     (8031, 8061); (8064, 8116); (8118, 8124); (8126, 8126); (8130, 8132); (8134, 8140);
     (8144, 8147); (8150, 8155); (8160, 8172); (8178, 8180); (8182, 8188); (8305, 8305);
     (8319, 8319); (8336, 8348); (8450, 8450); (8455, 8455); (8458, 8467); (8469, 8469);
     (8472, 8477); (8484, 8484); (8486, 8486); (8488, 8488); (8490, 8505); (8508, 8511);
     (8517, 8521); (8526, 8526); (8544, 8584); (11264, 11492); (11499, 11502); (11506, 11507);
     (11520, 11557); (11559, 11559); (11565, 11565); (11568, 11623); (11631, 11631); (11648, 11670);
     (11680, 11686); (11688, 11694); (11696, 11702); (11704, 11710); (11712, 11718); (11720, 11726);
     (11728, 11734); (11736, 11742); (12293, 12295); (12321, 12329); (12337, 12341); (12344, 12348);
     (12353, 12438); (12445, 12447); (12449, 12538); (12540, 12543); (12549, 12591); (12593, 12686);
     (12704, 12735); (12784, 12799); (13312, 19903); (19968, 42124); (42192, 42237); (42240, 42508);
     (42512, 42527); (42538, 42539); (42560, 42606); (42623, 42653); (42656, 42735); (42775, 42783);
     (42786, 42888); (42891, 42954); (42960, 42961); (42963, 42963); (42965, 42969); (42994, 43009);
     (43011, 43013); (43015, 43018); (43020, 43042); (43072, 43123); (43138, 43187); (43250, 43255);
     (43259, 43259); (43261, 43262); (43274, 43301); (43312, 43334); (43360, 43388); (43396, 43442);
     (43471, 43471); (43488, 43492); (43494, 43503); (43514, 43518); (43520, 43560); (43584, 43586);
     (43588, 43595); (43616, 43638); (43642, 43642); (43646, 43695); (43697, 43697); (43701, 43702);
     (43705, 43709); (43712, 43712); (43714, 43714); (43739, 43741); (43744, 43754); (43762, 43764);
     (43777, 43782); (43785, 43790); (43793, 43798); (43808, 43814); (43816, 43822); (43824, 43866);
     (43868, 43881); (43888, 44002); (44032, 55203); (55216, 55238); (55243, 55291); (63744, 64109);
     (64112, 64217); (64256, 64262); (64275, 64279); (64285, 64285); (64287, 64296); (64298, 64310);
     (64312, 64316); (64318, 64318); (64320, 64321); (64323, 64324); (64326, 64433); (64467, 64605);
     (64612, 64829); (64848, 64911); (64914, 64967); (65008, 65017); (65137, 65137); (65139, 65139);
     (65143, 65143); (65145, 65145); (65147, 65147); (65149, 65149); (65151, 65276); (65313, 65338);
     (65345, 65370); (65382, 65437); (65440, 65470); (65474, 65479); (65482, 65487); (65490, 65495);
     (65498, 65500); (65536, 65547); (65549, 65574); (65576, 65594); (65596, 65597); (65599, 65613);
     (65616, 65629); (65664, 65786); (65856, 65908); (66176, 66204); (66208, 66256); (66304, 66335);
     (66349, 66378); (66384, 66421); (66432, 66461); (66464, 66499); (66504, 66511); (66513, 66517);
     (66560, 66717); (66736, 66771); (66776, 66811); (66816, 66855); (66864, 66915); (66928, 66938);
     (66940, 66954); (66956, 66962); (66964, 66965); (66967, 66977); (66979, 66993); (66995, 67001);
     (67003, 67004); (67072, 67382); (67392, 67413); (67424, 67431); (67456, 67461); (67463, 67504);
     (67506, 67514); (67584, 67589); (67592, 67592); (67594, 67637); (67639, 67640); (67644, 67644);
     (67647, 67669); (67680, 67702); (67712, 67742); (67808, 67826); (67828, 67829); (67840, 67861);
     (67872, 67897); (67968, 68023); (68030, 68031); (68096, 68096); (68112, 68115); (68117, 68119);
     (68121, 68149); (68192, 68220); (68224, 68252); (68288, 68295); (68297, 68324); (68352, 68405);
     (68416, 68437); (68448, 68466); (68480, 68497); (68608, 68680); (68736, 68786); (68800, 68850);
     (68864, 68899); (69248, 69289); (69296, 69297); (69376, 69404); (69415, 69415); (69424, 69445);
     (69488, 69505); (69552, 69572); (69600, 69622); (69635, 69687); (69745, 69746); (69749, 69749);
     (69763, 69807); (69840, 69864); (69891, 69926); (69956, 69956); (69959, 69959); (69968, 70002);
     (70006, 70006); (70019, 70066); (70081, 70084); (70106, 70106); (70108, 70108); (70144, 70161);
     (70163, 70187); (70272, 70278); (70280, 70280); (70282, 70285); (70287, 70301); (70303, 70312);
     (70320, 70366); (70405, 70412); (70415, 70416); (70419, 70440); (70442, 70448); (70450, 70451);
     (70453, 70457); (70461, 70461); (70480, 70480); (70493, 70497); (70656, 70708); (70727, 70730);
     (70751, 70753); (70784, 70831); (70852, 70853); (70855, 70855); (71040, 71086); (71128, 71131);
     (71168, 71215); (71236, 71236); (71296, 71338); (71352, 71352); (71424, 71450); (71488, 71494);
     (71680, 71723); (71840, 71903); (71935, 71942); (71945, 71945); (71948, 71955); (71957, 71958);
     (71960, 71983); (71999, 71999); (72001, 72001); (72096, 72103); (72106, 72144); (72161, 72161);
     (72163, 72163); (72192, 72192); (72203, 72242); (72250, 72250); (72272, 72272); (72284, 72329);
     (72349, 72349); (72368, 72440); (72704, 72712); (72714, 72750); (72768, 72768); (72818, 72847);
     (72960, 72966); (72968, 72969); (72971, 73008); (73030, 73030); (73056, 73061); (73063, 73064);
     (73066, 73097); (73112, 73112); (73440, 73458); (73648, 73648); (73728, 74649); (74752, 74862);
     (74880, 75075); (77712, 77808); (77824, 78894); (82944, 83526); (92160, 92728); (92736, 92766);
     (92784, 92862); (92880, 92909); (92928, 92975); (92992, 92995); (93027, 93047); (93053, 93071);
     (93760, 93823); (93952, 94026); (94032, 94032); (94099, 94111); (94176, 94177); (94179, 94179);
     (94208, 100343); (100352, 101589); (101632, 101640); (110576, 110579); (110581, 110587); (110589, 110590);
     (110592, 110882); (110928, 110930); (110948, 110951); (110960, 111355); (113664, 113770); (113776, 113788);
     (113792, 113800); (113808, 113817); (119808, 119892); (119894, 119964); (119966, 119967); (119970, 119970);
     (119973, 119974); (119977, 119980); (119982, 119993); (119995, 119995); (119997, 120003); (120005, 120069);
     (120071, 120074); (120077, 120084); (120086, 120092); (120094, 120121); (120123, 120126); (120128, 120132);
     (120134, 120134); (120138, 120144); (120146, 120485); (120488, 120512); (120514, 120538); (120540, 120570);
     (120572, 120596); (120598, 120628); (120630, 120654); (120656, 120686); (120688, 120712); (120714, 120744);
     (120746, 120770); (120772, 120779); (122624, 122654); (123136, 123180); (123191, 123197); (123214, 123214);
     (123536, 123565); (123584, 123627); (124896, 124902); (124904, 124907); (124909, 124910); (124912, 124926);
     (124928, 125124); (125184, 125251); (125259, 125259); (126464, 126467); (126469, 126495); (126497, 126498);
     (126500, 126500); (126503, 126503); (126505, 126514); (126516, 126519); (126521, 126521); (126523, 126523);
     (126530, 126530); (126535, 126535); (126537, 126537); (126539, 126539); (126541, 126543); (126545, 126546);
     (126548, 126548); (126551, 126551); (126553, 126553); (126555, 126555); (126557, 126557); (126559, 126559);
     (126561, 126562); (126564, 126564); (126567, 126570); (126572, 126578); (126580, 126583); (126585, 126588);
     (126590, 126590); (126592, 126601); (126603, 126619); (126625, 126627); (126629, 126633); (126635, 126651);
     (131072, 173791); (173824, 177976); (177984, 178205); (178208, 183969); (183984, 191456); (194560, 195101);
     (196608, 201546)
  ].

Definition xid_continue_ranges : list (N * N) :=
  [
     (48, 57); (65, 90); (95, 95); (97, 122); (170, 170); (181, 181);
     (183, 183); (186, 186); (192, 214); (216, 246); (248, 705); (710, 721);
     (736, 740); (748, 748); (750, 750); (768, 884); (886, 887); (891, 893);
     (895, 895); (902, 906); (908, 908); (910, 929); (931, 1013); (1015, 1153);
     (1155, 1159); (1162, 1327); (1329, 1366); (1369, 1369); (1376, 1416); (1425, 1469);
     (1471, 1471); (1473, 1474); (1476, 1477); (1479, 1479); (1488, 1514); (1519, 1522);
     (1552, 1562); (1568, 1641); (1646, 1747); (1749, 1756); (1759, 1768); (1770, 1788);
     (1791, 1791); (1808, 1866); (1869, 1969); (1984, 2037); (2042, 2042); (2045, 2045);
     (2048, 2093); (2112, 2139); (2144, 2154); (2160, 2183); (2185, 2190); (2200, 2273);
     (2275, 2403); (2406, 2415); (2417, 2435); (2437, 2444); (2447, 2448); (2451, 2472);
     (2474, 2480); (2482, 2482); (2486, 2489); (2492, 2500); (2503, 2504); (2507, 2510);
     (2519, 2519); (2524, 2525); (2527, 2531); (2534, 2545); (2556, 2556); (2558, 2558);
     (2561, 2563); (2565, 2570); (2575, 2576); (2579, 2600); (2602, 2608); (2610, 2611);
     (2613, 2614); (2616, 2617); (2620, 2620); (2622, 2626); (2631, 2632); (2635, 2637);
     (2641, 2641); (2649, 2652); (2654, 2654); (2662, 2677); (2689, 2691); (2693, 2701);
     (2703, 2705); (2707, 2728); (2730, 2736); (2738, 2739); (2741, 2745); (2748, 2757);
     (2759, 2761); (2763, 2765); (2768, 2768); (2784, 2787); (2790, 2799); (2809, 2815);
     (2817, 2819); (2821, 2828); (2831, 2832); (2835, 2856); (2858, 2864); (2866, 2867);
     (2869, 2873); (2876, 2884); (2887, 2888); (2891, 2893); (2901, 2903); (2908, 2909);
     (2911, 2915); (2918, 2927); (2929, 2929); (2946, 2947); (2949, 2954); (2958, 2960);
     (2962, 2965); (2969, 2970); (2972, 2972); (2974, 2975); (2979, 2980); (2984, 2986);
     (2990, 3001); (3006, 3010); (3014, 3016); (3018, 3021); (3024, 3024); (3031, 3031);
     (3046, 3055); (3072, 3084); (3086, 3088); (3090, 3112); (3114, 3129); (3132, 3140);
     (3142, 3144); (3146, 3149); (3157, 3158); (3160, 3162); (3165, 3165); (3168, 3171);
     (3174, 3183); (3200, 3203); (3205, 3212); (3214, 3216); (3218, 3240); (3242, 3251);
     (3253, 3257); (3260, 3268); (3270, 3272); (3274, 3277); (3285, 3286); (3293, 3294);
     (3296, 3299); (3302, 3311); (3313, 3314); (3328, 3340); (3342, 3344); (3346, 3396);
     (3398, 3400); (3402, 3406); (3412, 3415); (3423, 3427); (3430, 3439); (3450, 3455);
     (3457, 3459); (3461, 3478); (3482, 3505); (3507, 3515); (3517, 3517); (3520, 3526);
     (3530, 3530); (3535, 3540); (3542, 3542); (3544, 3551); (3558, 3567); (3570, 3571);
     (3585, 3642); (3648, 3662); (3664, 3673); (3713, 3714); (3716, 3716); (3718, 3722);
     (3724, 3747); (3749, 3749); (3751, 3773); (3776, 3780); (3782, 3782); (3784, 3789);
     (3792, 3801); (3804, 3807); (3840, 3840); (3864, 3865); (3872, 3881); (3893, 3893);
     (3895, 3895); (3897, 3897); (3902, 3911); (3913, 3948); (3953, 3972); (3974, 3991);
     (3993, 4028); (4038, 4038); (4096, 4169); (4176, 4253); (4256, 4293); (4295, 4295);
     (4301, 4301); (4304, 4346); (4348, 4680); (4682, 4685); (4688, 4694); (4696, 4696);
     (4698, 4701); (4704, 4744); (4746, 4749); (4752, 4784); (4786, 4789); (4792, 4798);
     (4800, 4800); (4802, 4805); (4808, 4822); (4824, 4880); (4882, 4885); (4888, 4954);
     (4957, 4959); (4969, 4977); (4992, 5007); (5024, 5109); (5112, 5117); (5121, 5740);
     (5743, 5759); (5761, 5786); (5792, 5866); (5870, 5880); (5888, 5909); (5919, 5940);
     (5952, 5971); (5984, 5996); (5998, 6000); (6002, 6003); (6016, 6099); (6103, 6103);
     (6108, 6109); (6112, 6121); (6155, 6157); (6159, 6169); (6176, 6264); (6272, 6314);
     (6320, 6389); (6400, 6430); (6432, 6443); (6448, 6459); (6470, 6509); (6512, 6516);
     (6528, 6571); (6576, 6601); (6608, 6618); (6656, 6683); (6688, 6750); (6752, 6780);
     (6783, 6793); (6800, 6809); (6823, 6823); (6832, 6845); (6847, 6862); (6912, 6988);
     (6992, 7001); (7019, 7027); (7040, 7155); (7168, 7223); (7232, 7241); (7245, 7293);
     (7296, 7304); (7312, 7354); (7357, 7359); (7376, 7378); (7380, 7418); (7424, 7957);
     (7960, 7965); (7968, 8005); (8008, 8013); (8016, 8023); (8025, 8025); (8027, 8027);
     (8029, 8029); (8031, 8061); (8064, 8116); (8118, 8124); (8126, 8126); (8130, 8132);
     (8134, 8140); (8144, 8147); (8150, 8155); (8160, 8172); (8178, 8180); (8182, 8188);
     (8255, 8256); (8276, 8276); (8305, 8305); (8319, 8319); (8336, 8348); (8400, 8412);
     (8417, 8417); (8421, 8432); (8450, 8450); (8455, 8455); (8458, 8467); (8469, 8469);
     (8472, 8477); (8484, 8484); (8486, 8486); (8488, 8488); (8490, 8505); (8508, 8511);
     (8517, 8521); (8526, 8526); (8544, 8584); (11264, 11492); (11499, 11507); (11520, 11557);
     (11559, 11559); (11565, 11565); (11568, 11623); (11631, 11631); (11647, 11670); (11680, 11686);
     (11688, 11694); (11696, 11702); (11704, 11710); (11712, 11718); (11720, 11726); (11728, 11734);
     (11736, 11742); (11744, 11775); (12293, 12295); (12321, 12335); (12337, 12341); (12344, 12348);
     (12353, 12438); (12441, 12442); (12445, 12447); (12449, 12538); (12540, 12543); (12549, 12591);
     (12593, 12686); (12704, 12735); (12784, 12799); (13312, 19903); (19968, 42124); (42192, 42237);
     (42240, 42508); (42512, 42539); (42560, 42607); (42612, 42621); (42623, 42737); (42775, 42783);
     (42786, 42888); (42891, 42954); (42960, 42961); (42963, 42963); (42965, 42969); (42994, 43047);
     (43052, 43052); (43072, 43123); (43136, 43205); (43216, 43225); (43232, 43255); (43259, 43259);
     (43261, 43309); (43312, 43347); (43360, 43388); (43392, 43456); (43471, 43481); (43488, 43518);
     (43520, 43574); (43584, 43597); (43600, 43609); (43616, 43638); (43642, 43714); (43739, 43741);
     (43744, 43759); (43762, 43766); (43777, 43782); (43785, 43790); (43793, 43798); (43808, 43814);
     (43816, 43822); (43824, 43866); (43868, 43881); (43888, 44010); (44012, 44013); (44016, 44025);
     (44032, 55203); (55216, 55238); (55243, 55291); (63744, 64109); (64112, 64217); (64256, 64262);
     (64275, 64279); (64285, 64296); (64298, 64310); (64312, 64316); (64318, 64318); (64320, 64321);
     (64323, 64324); (64326, 64433); (64467, 64605); (64612, 64829); (64848, 64911); (64914, 64967);
     (65008, 65017); (65024, 65039); (65056, 65071); (65075, 65076); (65101, 65103); (65137, 65137);
     (65139, 65139); (65143, 65143); (65145, 65145); (65147, 65147); (65149, 65149); (65151, 65276);
     (65296, 65305); (65313, 65338); (65343, 65343); (65345, 65370); (65382, 65470); (65474, 65479);
     (65482, 65487); (65490, 65495); (65498, 65500); (65536, 65547); (65549, 65574); (65576, 65594);
     (65596, 65597); (65599, 65613); (65616, 65629); (65664, 65786); (65856, 65908); (66045, 66045);
     (66176, 66204); (66208, 66256); (66272, 66272); (66304, 66335); (66349, 66378); (66384, 66426);
     (66432, 66461); (66464, 66499); (66504, 66511); (66513, 66517); (66560, 66717); (66720, 66729);
     (66736, 66771); (66776, 66811); (66816, 66855); (66864, 66915); (66928, 66938); (66940, 66954);
     (66956, 66962); (66964, 66965); (66967, 66977); (66979, 66993); (66995, 67001); (67003, 67004);
     (67072, 67382); (67392, 67413); (67424, 67431); (67456, 67461); (67463, 67504); (67506, 67514);
     (67584, 67589); (67592, 67592); (67594, 67637); (67639, 67640); (67644, 67644); (67647, 67669);
     (67680, 67702); (67712, 67742); (67808, 67826); (67828, 67829); (67840, 67861); (67872, 67897);
     (67968, 68023); (68030, 68031); (68096, 68099); (68101, 68102); (68108, 68115); (68117, 68119);
     (68121, 68149); (68152, 68154); (68159, 68159); (68192, 68220); (68224, 68252); (68288, 68295);
     (68297, 68326); (68352, 68405); (68416, 68437); (68448, 68466); (68480, 68497); (68608, 68680);
     (68736, 68786); (68800, 68850); (68864, 68903); (68912, 68921); (69248, 69289); (69291, 69292);
     (69296, 69297); (69376, 69404); (69415, 69415); (69424, 69456); (69488, 69509); (69552, 69572);
     (69600, 69622); (69632, 69702); (69734, 69749); (69759, 69818); (69826, 69826); (69840, 69864);
     (69872, 69881); (69888, 69940); (69942, 69951); (69956, 69959); (69968, 70003); (70006, 70006);
     (70016, 70084); (70089, 70092); (70094, 70106); (70108, 70108); (70144, 70161); (70163, 70199);
     (70206, 70206); (70272, 70278); (70280, 70280); (70282, 70285); (70287, 70301); (70303, 70312);
     (70320, 70378); (70384, 70393); (70400, 70403); (70405, 70412); (70415, 70416); (70419, 70440);
     (70442, 70448); (70450, 70451); (70453, 70457); (70459, 70468); (70471, 70472); (70475, 70477);
     (70480, 70480); (70487, 70487); (70493, 70499); (70502, 70508); (70512, 70516); (70656, 70730);
     (70736, 70745); (70750, 70753); (70784, 70853); (70855, 70855); (70864, 70873); (71040, 71093);
     (71096, 71104); (71128, 71133); (71168, 71232); (71236, 71236); (71248, 71257); (71296, 71352);
     (71360, 71369); (71424, 71450); (71453, 71467); (71472, 71481); (71488, 71494); (71680, 71738);
     (71840, 71913); (71935, 71942); (71945, 71945); (71948, 71955); (71957, 71958); (71960, 71989);
     (71991, 71992); (71995, 72003); (72016, 72025); (72096, 72103); (72106, 72151); (72154, 72161);
     (72163, 72164); (72192, 72254); (72263, 72263); (72272, 72345); (72349, 72349); (72368, 72440);
     (72704, 72712); (72714, 72758); (72760, 72768); (72784, 72793); (72818, 72847); (72850, 72871);
     (72873, 72886); (72960, 72966); (72968, 72969); (72971, 73014); (73018, 73018); (73020, 73021);
     (73023, 73031); (73040, 73049); (73056, 73061); (73063, 73064); (73066, 73102); (73104, 73105);
     (73107, 73112); (73120, 73129); (73440, 73462); (73648, 73648); (73728, 74649); (74752, 74862);
     (74880, 75075); (77712, 77808); (77824, 78894); (82944, 83526); (92160, 92728); (92736, 92766);
     (92768, 92777); (92784, 92862); (92864, 92873); (92880, 92909); (92912, 92916); (92928, 92982);
     (92992, 92995); (93008, 93017); (93027, 93047); (93053, 93071); (93760, 93823); (93952, 94026);
     (94031, 94087); (94095, 94111); (94176, 94177); (94179, 94180); (94192, 94193); (94208, 100343);
     (100352, 101589); (101632, 101640); (110576, 110579); (110581, 110587); (110589, 110590); (110592, 110882);
     (110928, 110930); (110948, 110951); (110960, 111355); (113664, 113770); (113776, 113788); (113792, 113800);
     (113808, 113817); (113821, 113822); (118528, 118573); (118576, 118598); (119141, 119145); (119149, 119154);
     (119163, 119170); (119173, 119179); (119210, 119213); (119362, 119364); (119808, 119892); (119894, 119964);
     (119966, 119967); (119970, 119970); (119973, 119974); (119977, 119980); (119982, 119993); (119995, 119995);
     (119997, 120003); (120005, 120069); (120071, 120074); (120077, 120084); (120086, 120092); (120094, 120121);
     (120123, 120126); (120128, 120132); (120134, 120134); (120138, 120144); (120146, 120485); (120488, 120512);
     (120514, 120538); (120540, 120570); (120572, 120596); (120598, 120628); (120630, 120654); (120656, 120686);
     (120688, 120712); (120714, 120744); (120746, 120770); (120772, 120779); (120782, 120831); (121344, 121398);
     (121403, 121452); (121461, 121461); (121476, 121476); (121499, 121503); (121505, 121519); (122624, 122654);
     (122880, 122886); (122888, 122904); (122907, 122913); (122915, 122916); (122918, 122922); (123136, 123180);
     (123184, 123197); (123200, 123209); (123214, 123214); (123536, 123566); (123584, 123641); (124896, 124902);
     (124904, 124907); (124909, 124910); (124912, 124926); (124928, 125124); (125136, 125142); (125184, 125259);
     (125264, 125273); (126464, 126467); (126469, 126495); (126497, 126498); (126500, 126500); (126503, 126503);
     (126505, 126514); (126516, 126519); (126521, 126521); (126523, 126523); (126530, 126530); (126535, 126535);
     (126537, 126537); (126539, 126539); (126541, 126543); (126545, 126546); (126548, 126548); (126551, 126551);
     (126553, 126553); (126555, 126555); (126557, 126557); (126559, 126559); (126561, 126562); (126564, 126564);
     (126567, 126570); (126572, 126578); (126580, 126583); (126585, 126588); (126590, 126590); (126592, 126601);
     (126603, 126619); (126625, 126627); (126629, 126633); (126635, 126651); (130032, 130041); (131072, 173791);
     (173824, 177976); (177984, 178205); (178208, 183969); (183984, 191456); (194560, 195101); (196608, 201546);
     (917760, 917999)
  ].

Definition xid_start (c : char) : bool := in_ranges xid_start_ranges c.
Definition xid_continue (c : char) : bool := in_ranges xid_continue_ranges c.

(** [Py_UNICODE_TODECIMAL]: the decimal digits of every script come in runs
    of ten, zero to nine; the table lists the zero of each run. *)
Definition decimal_zeros : list N :=
  [48; 1632; 1776; 1984; 2406; 2534; 2662; 2790; 2918; 3046;
   3174; 3302; 3430; 3558; 3664; 3792; 3872; 4160; 4240; 6112;
   6160; 6470; 6608; 6784; 6800; 6992; 7088; 7232; 7248; 42528;
   43216; 43264; 43472; 43504; 43600; 44016; 65296; 66720; 68912; 69734;
   69872; 69942; 70096; 70384; 70736; 70864; 71248; 71360; 71472; 71904;
   72016; 72784; 73040; 73120; 92768; 92864; 93008; 120782; 120792; 120802;
   120812; 120822; 123200; 123632; 125264; 130032].

Definition todecimal (c : char) : option N :=
  match find (fun z => in_range c (z, z + 9)) decimal_zeros with
  | Some z => Some (c - z)
  | None => None
  end.

End Unicode.

(** The ASCII letters and digits, as the spec spells the name alphabet. *)
Definition ascii_alnum (c : char) : bool :=
  in_ranges [(48, 57); (65, 90); (97, 122)] c.

(** ** [str.strip()] *)

Fixpoint lstrip (s : str) : str :=
  match s with
  | c :: s' => if Unicode.isspace c then lstrip s' else s
  | [] => []
  end.

Fixpoint rstrip (s : str) : str :=
  match s with
  | c :: s' =>
      match rstrip s' with
      | [] => if Unicode.isspace c then [] else [c]
      | r => c :: r
      end
  | [] => []
  end.

Definition strip (s : str) : str := rstrip (lstrip s).

(** ** [str.isidentifier()] *)

Definition isidentifier (s : str) : bool :=
  match s with
  | [] => false
  | c :: s' =>
      (Unicode.xid_start c || (c =? UNDERSCORE)) && forallb Unicode.xid_continue s'
  end.

(** ** [int(s)] for a [str], in base ten

    [PyLong_FromUnicodeObject].  In a string with a character outside ASCII,
    white space is first turned into a space and a decimal digit of any
    script into its ASCII digit.  The literal is then: ASCII white space, a
    sign, digits with single underscores between them, ASCII white space;
    all but the digits may be missing.  [None] stands for [ValueError], which
    is also raised for more than 4300 digits. *)

Fixpoint take_while (f : char -> bool) (s : str) : str :=
  match s with
  | c :: s' => if f c then c :: take_while f s' else []
  | [] => []
  end.

Fixpoint drop_while (f : char -> bool) (s : str) : str :=
  match s with
  | c :: s' => if f c then drop_while f s' else s
  | [] => []
  end.

Definition ascii_space (c : char) : bool := in_range c (9, 13) || (c =? 32).
Definition ascii_digit (c : char) : bool := in_range c (48, 57).

(** [_PyUnicode_TransformDecimalAndSpaceToASCII]; a character that is
    neither white space nor a decimal digit becomes a question mark, which
    no literal contains. *)
Definition to_ascii (c : char) : char :=
  if c <? 127 then c
  else if Unicode.isspace c then 32
  else match Unicode.todecimal c with
       | Some d => 48 + d
       | None => ord "?"
       end.

Definition transform (s : str) : str :=
  if forallb (fun c => c <? 128) s then s else map to_ascii s.

(** In a run of digits and underscores: some digit, and no underscore at
    the start, at the end or after another one. *)
Fixpoint underscores_ok (after_digit : bool) (s : str) : bool :=
  match s with
  | [] => after_digit
  | c :: s' =>
      if c =? UNDERSCORE then after_digit && underscores_ok false s'
      else underscores_ok true s'
  end.

Definition decimal (ds : str) : N :=
  fold_left (fun n d => 10 * n + (d - 48)) ds 0.

Definition int (s : str) : option Z :=
  let a := drop_while ascii_space (transform s) in
  let '(negative, b) :=
    match a with
    | c :: a' =>
        if c =? ord "+" then (false, a')
        else if c =? ord "-" then (true, a')
        else (false, a)
    | [] => (false, a)
    end in
  let in_number c := ascii_digit c || (c =? UNDERSCORE) in
  let number := take_while in_number b in
  let digits := filter ascii_digit number in
  if underscores_ok false number
     && Nat.leb (length digits) 4300
     && forallb ascii_space (drop_while in_number b)
  then
    let n := Z.of_N (decimal digits) in
    Some (if negative then (- n)%Z else n)
  else None.

(** ** Exceptions *)

Inductive exn : Set :=
| KeyError      (* a missing dict key *)
| ReError       (* re.error *)
| IndexError.   (* an unknown group name in a replacement template *)

Inductive result (A : Type) : Type :=
| Ok (a : A)
| Raise (e : exn).

Arguments Ok {A} a.
Arguments Raise {A} e.

Definition bind {A B} (r : result A) (k : A -> result B) : result B :=
  match r with
  | Ok a => k a
  | Raise e => Raise e
  end.

Notation "x <- r ;; k" := (bind r (fun x => k))
  (at level 61, r at next level, right associativity).

(** ** Insertion-ordered dictionaries *)

Definition dict (V : Type) := list (str * V).

Fixpoint dict_get {V} (d : dict V) (k : str) : option V :=
  match d with
  | (k', v) :: d' => if str_eqb k' k then Some v else dict_get d' k
  | [] => None
  end.

(** [d[k] = v]: an existing key keeps its place, a new one goes last. *)
Fixpoint dict_set {V} (d : dict V) (k : str) (v : V) : dict V :=
  match d with
  | (k', v') :: d' =>
      if str_eqb k' k then (k', v) :: d' else (k', v') :: dict_set d' k v
  | [] => [(k, v)]
  end.

Definition keys {V} (d : dict V) : list str := map fst d.

(** [d.update(other)] *)
Definition dict_update {V} (d other : dict V) : dict V :=
  fold_left (fun acc kv => dict_set acc (fst kv) (snd kv)) other d.

(** ** The fragment of [re] the module uses *)

Module Re.

(** A pattern is a sequence of literal characters and of capturing groups
    holding one greedy repetition of a character set. *)
Inductive node : Type :=
| Literal (c : char)                 (* c, or \c for a special character *)
| GroupStar (set : char -> bool)     (* a group of [set], zero or more *)
| GroupPlus (set : char -> bool).    (* a group of [set], one or more *)

Definition pattern := list node.

(** A match: the text matched, the groups, and the text after it. *)
Definition found : Type := str * list str * str.

(** Greedy repetition with backtracking: as many characters of [set] as
    the continuation [k] accepts, the longest run tried first. *)
Fixpoint greedy {A} (set : char -> bool) (k : str -> option A) (s : str)
  : option (str * A) :=
  match s with
  | x :: s' =>
      if set x then
        match greedy set k s' with
        | Some (taken, a) => Some (x :: taken, a)
        | None => option_map (pair []) (k s)
        end
      else option_map (pair []) (k s)
  | [] => option_map (pair []) (k [])
  end.

Definition took (taken : str) (f : found) : found :=
  let '(m, gs, r) := f in (taken ++ m, taken :: gs, r).

(** [pattern.match] at the start of [s]. *)
Fixpoint match_here (p : pattern) (s : str) : option found :=
  match p with
  | [] => Some ([], [], s)
  | Literal c :: p' =>
      match s with
      | x :: s' =>
          if x =? c then
            option_map (fun '(m, gs, r) => (x :: m, gs, r)) (match_here p' s')
          else None
      | [] => None
      end
  | GroupStar set :: p' =>
      match greedy set (match_here p') s with
      | Some (taken, f) => Some (took taken f)
      | None => None
      end
  | GroupPlus set :: p' =>
      match greedy set (match_here p') s with
      | Some (x :: taken, f) => Some (took (x :: taken) f)
      | _ => None
      end
  end.

Definition groups (p : pattern) : nat :=
  length (filter (fun n => match n with Literal _ => false | _ => true end) p).

(** The left-to-right scan shared by [findall] and [sub]: the characters
    outside the matches and the successive non-overlapping matches.  After
    a match of [n] characters the scan resumes [n] characters further; an
    empty match is reported and the scan moves on by one character. *)
Inductive piece : Type :=
| Text (c : char)
| Hit (m : str) (gs : list str).

Fixpoint scan (p : pattern) (skip : nat) (s : str) : list piece :=
  match s with
  | x :: s' =>
      match skip with
      | S k => scan p k s'
      | O =>
          match match_here p s with
          | Some (m, gs, _) =>
              match m with
              | [] => Hit [] gs :: Text x :: scan p 0 s'
              | _ :: m' => Hit m gs :: scan p (length m') s'
              end
          | None => Text x :: scan p 0 s'
          end
      end
  | [] =>
      match skip, match_here p [] with
      | O, Some (_, gs, _) => [Hit [] gs]
      | _, _ => []
      end
  end.

(** [re.findall]: with several groups, the list of the groups of each
    match. *)
Definition hits (pcs : list piece) : list (list str) :=
  flat_map (fun pc => match pc with Hit _ gs => [gs] | Text _ => [] end) pcs.

Definition findall (p : pattern) (s : str) : list (list str) :=
  hits (scan p 0 s).

(** *** Replacement templates ([re._parser.parse_template]) *)

Inductive tpart : Type :=
| TLit (c : char)        (* a character copied to the output *)
| TGroup (i : nat).      (* the text of group [i]; group 0 is the match *)

Definition is_digit (c : char) : bool := in_range c (48, 57).
Definition is_octdigit (c : char) : bool := in_range c (48, 55).
Definition is_ascii_letter (c : char) : bool :=
  in_ranges [(65, 90); (97, 122)] c.
Definition digit (c : char) : N := c - 48.

(** The table [ESCAPES]: \a \b \f \n \r \t \v and the backslash itself. *)
Definition escapes (e : char) : option char :=
  if e =? ord "a" then Some 7
  else if e =? ord "b" then Some 8
  else if e =? ord "f" then Some 12
  else if e =? ord "n" then Some 10
  else if e =? ord "r" then Some 13
  else if e =? ord "t" then Some 9
  else if e =? ord "v" then Some 11
  else if e =? BACKSLASH then Some BACKSLASH
  else None.

Definition lit (c : char) (rest : result (list tpart)) : result (list tpart) :=
  t <- rest ;; Ok (TLit c :: t).

(** [addgroup]: a reference beyond the groups of the pattern is an error. *)
Definition add_group (groups : nat) (index : N) (rest : result (list tpart))
  : result (list tpart) :=
  if index <=? N.of_nat groups
  then t <- rest ;; Ok (TGroup (N.to_nat index) :: t)
  else Raise ReError.

(** The group that the name of \g<name> refers to.  The patterns of this
    module have no named group, so an identifier is an unknown group name;
    any other name is read by [int]. *)
Definition group_index (name : str) : result N :=
  if isidentifier name then Raise IndexError
  else
    match int name with
    | Some index => if (index <? 0)%Z then Raise ReError else Ok (Z.to_N index)
    | None => Raise ReError
    end.

(** [parse]: the parts of the template, or the exception the parser raises;
    the first error from the left is the one raised.  Two points follow the
    tokenizer.  It reads one token ahead and refuses a backslash that ends
    the template: after \g<name> such a backslash is reported before the
    name is looked at.  A backslash inside the angle brackets makes one
    token with the next character: the name is then no identifier and no
    number, ended or not, and re.error is raised. *)
Fixpoint parse (groups : nat) (s : str) {struct s} : result (list tpart) :=
  match s with
  | [] => Ok []
  | c :: s1 =>
      if negb (c =? BACKSLASH) then lit c (parse groups s1)
      else
        match s1 with
        | [] => Raise ReError
        | e :: s2 =>
            if e =? ord "g" then
              match s2 with
              | lt :: s3 =>
                  if lt =? ord "<" then
                    (fix name (acc t : str) {struct t} : result (list tpart) :=
                       match t with
                       | [] => Raise ReError
                       | x :: t' =>
                           if x =? BACKSLASH then Raise ReError
                           else if x =? ord ">" then
                             match acc with
                             | [] => Raise ReError
                             | _ :: _ =>
                                 if str_eqb t' [BACKSLASH] then Raise ReError
                                 else
                                   index <- group_index acc ;;
                                   add_group groups index (parse groups t')
                             end
                           else name (acc ++ [x]) t'
                       end) [] s3
                  else Raise ReError
              | [] => Raise ReError
              end
            else if e =? ord "0" then
              match s2 with
              | d1 :: s3 =>
                  if is_octdigit d1 then
                    match s3 with
                    | d2 :: s4 =>
                        if is_octdigit d2
                        then lit (8 * digit d1 + digit d2) (parse groups s4)
                        else lit (digit d1) (parse groups s3)
                    | [] => lit (digit d1) (parse groups s3)
                    end
                  else lit 0 (parse groups s2)
              | [] => lit 0 (parse groups s2)
              end
            else if is_digit e then
              match s2 with
              | d1 :: s3 =>
                  if is_digit d1 then
                    match s3 with
                    | d2 :: s4 =>
                        if is_octdigit e && is_octdigit d1 && is_octdigit d2
                        then
                          let c := 64 * digit e + 8 * digit d1 + digit d2 in
                          if 255 <? c then Raise ReError
                          else lit c (parse groups s4)
                        else add_group groups (10 * digit e + digit d1)
                               (parse groups s3)
                    | [] => add_group groups (10 * digit e + digit d1)
                              (parse groups s3)
                    end
                  else add_group groups (digit e) (parse groups s2)
              | [] => add_group groups (digit e) (parse groups s2)
              end
            else
              match escapes e with
              | Some c' => lit c' (parse groups s2)
              | None =>
                  if is_ascii_letter e then Raise ReError
                  else lit BACKSLASH (lit e (parse groups s2))
              end
        end
  end.

(** The parts of a well-formed template; [None] when the parser raises. *)
Definition parse_template (groups : nat) (s : str) : option (list tpart) :=
  match parse groups s with
  | Ok t => Some t
  | Raise _ => None
  end.

Definition expand (t : list tpart) (m : str) (gs : list str) : str :=
  flat_map (fun part => match part with
                        | TLit c => [c]
                        | TGroup i => nth i (m :: gs) []
                        end) t.

Definition rebuild (t : list tpart) (pcs : list piece) : str :=
  flat_map (fun pc => match pc with
                      | Text c => [c]
                      | Hit m gs => expand t m gs
                      end) pcs.

(** [re.sub(pattern, repl, string)] with a [str] as [repl]: the template
    is parsed first, whether or not the pattern matches anywhere. *)
Definition sub (p : pattern) (repl : str) (s : str) : result str :=
  t <- parse (groups p) repl ;;
  Ok (rebuild t (scan p 0 s)).

(** *** [re.escape] and the patterns it produces *)

Definition special (c : char) : bool :=
  existsb (N.eqb c) (text "()[]{}?*+-|^$\.&~# " ++ [9; 10; 13; 11; 12]).

Definition escape (s : str) : str :=
  flat_map (fun c => if special c then [BACKSLASH; c] else [c]) s.

(** The characters with a meaning of their own in a pattern. *)
Definition operator (c : char) : bool :=
  existsb (N.eqb c) (text ".^$*+?{}[]\|()").

(** [re.compile] on the patterns without operators: a character stands for
    itself, and so does a backslash followed by a character that is no
    ASCII letter or digit.  Anything else is outside this fragment. *)
Fixpoint compile (s : str) : option pattern :=
  match s with
  | [] => Some []
  | c :: s1 =>
      if c =? BACKSLASH then
        match s1 with
        | e :: s2 =>
            if is_digit e || is_ascii_letter e then None
            else option_map (cons (Literal e)) (compile s2)
        | [] => None
        end
      else if operator c then None
      else option_map (cons (Literal c)) (compile s1)
  end.

End Re.

(** ** meta.py *)

Definition name_set (c : char) : bool := Unicode.isword c || (c =? HYPHEN).
Definition value_set (c : char) : bool := negb (c =? RBRACE).

(** The pattern of [extract_and_remove_meta_fields]: two escaped opening
    braces, the group of one or more [\w-], a colon, the group of zero or
    more characters other than the closing brace, two escaped closing braces. *)
Definition pattern : Re.pattern :=
  [Re.Literal LBRACE; Re.Literal LBRACE; Re.GroupPlus name_set;
   Re.Literal COLON; Re.GroupStar value_set;
   Re.Literal RBRACE; Re.Literal RBRACE].

(** The dict comprehension over the (field, value) tuples of [findall]:
    one assignment per tuple, in order. *)
Definition add_field (d : dict str) (gs : list str) : dict str :=
  match gs with
  | [field; value] => dict_set d (strip field) (strip value)
  | _ => d
  end.

Definition meta_dict_of (matches : list (list str)) : dict str :=
  fold_left add_field matches [].

Definition extract_and_remove_meta_fields (content : str)
  : result (dict str * str) :=
  let matches := Re.findall pattern content in
  let meta_dict := meta_dict_of matches in
  removed <- Re.sub pattern [] content ;;
  let content_without_meta := strip removed in
  Ok (meta_dict, content_without_meta).

(** A document record: a dict in which the keys 'content' and 'meta' may each
    be absent.  Every file key has a record of its own and every record a
    meta mapping of its own, as in the data model of the host. *)
Record document : Type := { content : option str; meta : option (dict str) }.

(** The loop of [load_meta_fields] over the file keys.  The records are
    changed in place: the first component is the document set as the call
    leaves it, the second the exception raised, if any. *)
Fixpoint load_loop (files : list str) (docs : dict document)
  : dict document * option exn :=
  match files with
  | [] => (docs, None)
  | file :: files' =>
      match dict_get docs file with
      | None => (docs, Some KeyError)
      | Some doc =>
          match content doc with
          | None => (docs, Some KeyError)
          | Some file_content =>
              match extract_and_remove_meta_fields file_content with
              | Raise e => (docs, Some e)
              | Ok (meta_fields, file_content') =>
                  let m := match meta doc with Some m => m | None => [] end in
                  let doc' := {| content := Some file_content';
                                 meta := Some (dict_update m meta_fields) |} in
                  load_loop files' (dict_set docs file doc')
              end
          end
      end
  end.

Definition load_meta_fields (docs : dict document)
  : dict document * option exn :=
  load_loop (keys docs) docs.

Definition replace_field (content fieldname value : str) : result str :=
  match Re.compile (Re.escape (text "{{" ++ fieldname ++ text "}}")) with
  | Some p => Re.sub p value content
  | None => Raise ReError
  end.

(** One round of the loop of [replace_fields]; an exception ends the loop. *)
Definition replace_next (acc : result str) (kv : str * str) : result str :=
  c <- acc ;; replace_field c (fst kv) (snd kv).

Definition replace_fields (content : str) (meta_fields : dict str) : result str :=
  let trimmed_meta_fields :=
    fold_left (fun d kv => dict_set d (fst kv) (strip (snd kv))) meta_fields [] in
  fold_left replace_next trimmed_meta_fields (Ok content).

(** [lste.content] is the document set of the host. *)
Definition replace_meta_fields (content file : str) (lste_content : dict document)
  : result str :=
  match dict_get lste_content file with
  | None => Raise KeyError
  | Some doc =>
      match meta doc with
      | None => Raise KeyError
      | Some meta_fields => replace_fields content meta_fields
      end
  end.

(** ** Plain substring replacement, as the spec words [replace_field]

    [str_replace old new s] replaces every occurrence of [old] in [s] by
    [new], leftmost first and without overlap ([old] is never empty here). *)

Fixpoint starts_with (old s : str) : option str :=
  match old, s with
  | [], _ => Some s
  | c :: old', x :: s' => if x =? c then starts_with old' s' else None
  | _ :: _, [] => None
  end.

Fixpoint str_replace_from (old new : str) (skip : nat) (s : str) : str :=
  match s with
  | x :: s' =>
      match skip with
      | S k => str_replace_from old new k s'
      | O =>
          match starts_with old s with
          | Some _ => new ++ str_replace_from old new (length old - 1) s'
          | None => x :: str_replace_from old new 0 s'
          end
      end
  | [] => []
  end.

Definition str_replace (old new s : str) : str := str_replace_from old new 0 s.

(** The placeholder of a field name: the name between double braces. *)
Definition placeholder (name : str) : str := text "{{" ++ name ++ text "}}".

(** ** Lists of characters *)

Fixpoint all_from (f : char -> bool) (lo : N) (n : nat) : bool :=
  match n with
  | O => true
  | S n' => f lo && all_from f (N.succ lo) n'
  end.

(** The text of a marker with the given name and value. *)
Definition marker (name value : str) : str :=
  text "{{" ++ name ++ COLON :: value ++ text "}}".

(** The names and the values the pattern accepts. *)
Definition valid_name (name : str) : Prop :=
  name <> [] /\ forallb name_set name = true.

Definition valid_value (value : str) : Prop :=
  forallb value_set value = true.

(** Text without opening brace, and the contents made of such text and of
    markers. *)
Definition plain (t : str) : Prop :=
  forallb (fun c => negb (c =? LBRACE)) t = true.

Inductive well_marked : str -> Prop :=
| wm_text t : plain t -> well_marked t
| wm_marker t name value rest :
    plain t -> valid_name name -> valid_value value -> well_marked rest ->
    well_marked (t ++ marker name value ++ rest).

(** No marker begins anywhere in [s]. *)
Definition no_marker (s : str) : Prop :=
  forall a b, s = a ++ b -> Re.match_here pattern b = None.

(** No marker begins inside [t] when [rest] comes after it. *)
Definition unmatched (t rest : str) : Prop :=
  forall a b, t = a ++ b -> b <> [] -> Re.match_here pattern (b ++ rest) = None.

Fixpoint unmatchedb (t rest : str) : bool :=
  match t with
  | [] => true
  | _ :: t' =>
      match Re.match_here pattern (t ++ rest) with
      | Some _ => false
      | None => unmatchedb t' rest
      end
  end.

(** A field name without braces. *)
Definition brace_free (s : str) : Prop :=
  forallb (fun c => negb (c =? LBRACE) && negb (c =? RBRACE)) s = true.

(** The record [load_meta_fields] leaves for a document with the given
    content. *)
Definition load_doc (doc : document) (file_content : str) : document :=
  {| content := Some (strip (Re.rebuild [] (Re.scan pattern 0 file_content)));
     meta := Some (dict_update (match meta doc with Some m => m | None => [] end)
                               (meta_dict_of (Re.findall pattern file_content))) |}.

Definition has_content (docs : dict document) (file : str) : bool :=
  match dict_get docs file with
  | Some doc => match content doc with Some _ => true | None => false end
  | None => false
  end.

(** A content cut into segments: text without opening brace, and markers. *)
Inductive segment : Type :=
| Plain (t : str)
| Field (name value : str).

Definition render (segs : list segment) : str :=
  flat_map (fun sg => match sg with
                      | Plain t => t
                      | Field name value => marker name value
                      end) segs.

Definition seg_ok (sg : segment) : Prop :=
  match sg with
  | Plain t => plain t
  | Field name value => valid_name name /\ valid_value value
  end.

Definition fields_of (segs : list segment) : list (list str) :=
  flat_map (fun sg => match sg with
                      | Plain _ => []
                      | Field name value => [[name; value]]
                      end) segs.

Definition text_of (segs : list segment) : str :=
  flat_map (fun sg => match sg with Plain t => t | Field _ _ => [] end) segs.

(** [subseq a b]: [a] is [b] with some characters left out. *)
Inductive subseq : str -> str -> Prop :=
| subseq_nil : subseq [] []
| subseq_keep c a b : subseq a b -> subseq (c :: a) (c :: b)
| subseq_drop c a b : subseq a b -> subseq a (c :: b).

(** Replacement of the occurrences of [old], read from left to right: at an
    occurrence the text [new] is written and the reading goes on after the
    occurrence; elsewhere one character is copied. *)
Inductive replaced (old new : str) : str -> str -> Prop :=
| replaced_end : replaced old new [] []
| replaced_here s r :
    replaced old new s r -> replaced old new (old ++ s) (new ++ r)
| replaced_copy c s r :
    starts_with old (c :: s) = None ->
    replaced old new s r -> replaced old new (c :: s) (c :: r).

(** [old] occurs in [s]. *)
Definition occurs (old s : str) : Prop := exists a b, s = a ++ old ++ b.

Fixpoint occursb (old s : str) : bool :=
  match starts_with old s with
  | Some _ => true
  | None => match s with
            | [] => false
            | _ :: s' => occursb old s'
            end
  end.

Definition no_backslash (v : str) : Prop :=
  forallb (fun c => negb (c =? BACKSLASH)) v = true.

(** The characters of a group name that ends at the first closing angle
    bracket: neither that bracket nor a backslash. *)
Definition name_char (c : char) : bool :=
  negb (c =? BACKSLASH) && negb (c =? ord ">").

(** What [load_meta_fields] does to one entry of the document set. *)
Definition loaded (doc : document) : document :=
  match content doc with
  | Some file_content => load_doc doc file_content
  | None => doc
  end.

Definition load_entry (fd : str * document) : str * document :=
  (fst fd, loaded (snd fd)).

(** * Properties *)

(** ** Characters, strings and dictionaries *)

Lemma all_from_spec f n : forall lo c,
  all_from f lo n = true -> lo <= c -> c < lo + N.of_nat n -> f c = true.
Proof.
  induction n as [|n IH]; intros lo c H Hlo Hhi.
  - simpl in Hhi. lia.
  - simpl in H. apply andb_true_iff in H. destruct H as [H0 H1].
    destruct (N.eq_dec c lo) as [->|Hne]; [exact H0|].
    apply (IH (N.succ lo)); [exact H1| lia | lia].
Qed.

Lemma str_eqb_eq a : forall b, str_eqb a b = true <-> a = b.
Proof.
  induction a as [|x a IH]; intros [|y b]; simpl; split; intro H;
    try reflexivity; try discriminate.
  - apply andb_true_iff in H. destruct H as [Hx Hr].
    apply N.eqb_eq in Hx. apply IH in Hr. now subst.
  - injection H as -> ->. rewrite N.eqb_refl. simpl. now apply IH.
Qed.

Lemma str_eqb_refl a : str_eqb a a = true.
Proof. now apply str_eqb_eq. Qed.

Lemma str_eqb_neq a b : a <> b -> str_eqb a b = false.
Proof.
  intro H. destruct (str_eqb a b) eqn:E; [|reflexivity].
  apply str_eqb_eq in E. contradiction.
Qed.

Lemma take_drop_while f s : take_while f s ++ drop_while f s = s.
Proof.
  induction s as [|c s IH]; simpl; [reflexivity|].
  destruct (f c); simpl; [now rewrite IH | reflexivity].
Qed.

Lemma take_while_all f s : forallb f (take_while f s) = true.
Proof.
  induction s as [|c s IH]; simpl; [reflexivity|].
  destruct (f c) eqn:E; simpl; [now rewrite E | reflexivity].
Qed.

Lemma take_while_stop f a c b :
  forallb f a = true -> f c = false ->
  take_while f (a ++ c :: b) = a /\ drop_while f (a ++ c :: b) = c :: b.
Proof.
  intros Ha Hc. induction a as [|x a IH]; simpl in *.
  - now rewrite Hc.
  - apply andb_true_iff in Ha. destruct Ha as [Hx Ha]. rewrite Hx.
    destruct (IH Ha) as [-> ->]. now split.
Qed.

Lemma drop_while_head f s c r : drop_while f s = c :: r -> f c = false.
Proof.
  induction s as [|x s IH]; simpl; [discriminate|].
  destruct (f x) eqn:E; [exact IH|]. intro H. injection H as -> _. exact E.
Qed.

Lemma forallb_drop_while (f g : char -> bool) s :
  forallb f s = true -> forallb f (drop_while g s) = true.
Proof.
  induction s as [|c s IH]; simpl; [trivial|].
  intro H. destruct (g c); [|exact H].
  apply andb_true_iff in H. now apply IH.
Qed.

(** *** [strip] *)

Lemma lstrip_drop_while s : lstrip s = drop_while Unicode.isspace s.
Proof. induction s as [|c s IH]; simpl; [reflexivity|]. now rewrite IH. Qed.

Lemma lstrip_head s c r : lstrip s = c :: r -> Unicode.isspace c = false.
Proof. rewrite lstrip_drop_while. apply drop_while_head. Qed.

Lemma rstrip_last s : forall a x, rstrip s = a ++ [x] -> Unicode.isspace x = false.
Proof.
  induction s as [|c s IH]; simpl; intros a x H.
  - now destruct a.
  - destruct (rstrip s) as [|y r] eqn:E.
    + destruct (Unicode.isspace c) eqn:Ec; [now destruct a|].
      destruct a as [|a0 a]; [now injection H as <-|].
      injection H as _ H. now destruct a.
    + destruct a as [|a0 a]; [discriminate|].
      injection H as _ H. now apply (IH a).
Qed.

Lemma rstrip_idem s : rstrip (rstrip s) = rstrip s.
Proof.
  induction s as [|c s IH]; simpl; [reflexivity|].
  destruct (rstrip s) as [|y r] eqn:E.
  - destruct (Unicode.isspace c) eqn:Ec; simpl; [reflexivity|now rewrite Ec].
  - change (rstrip (c :: y :: r)) with
      (match rstrip (y :: r) with [] => if Unicode.isspace c then [] else [c]
                             | r0 => c :: r0 end).
    now rewrite IH.
Qed.

Lemma rstrip_keeps_head c s :
  Unicode.isspace c = false -> exists r, rstrip (c :: s) = c :: r.
Proof.
  intro H. simpl. destruct (rstrip s); [rewrite H|]; eauto.
Qed.

Lemma strip_idem s : strip (strip s) = strip s.
Proof.
  unfold strip. destruct (lstrip s) as [|c t] eqn:E; [reflexivity|].
  apply lstrip_head in E. destruct (rstrip_keeps_head c t E) as [r Hr].
  rewrite Hr. simpl lstrip. rewrite E, <- Hr. apply rstrip_idem.
Qed.

Lemma forallb_rstrip (f : char -> bool) s :
  forallb f s = true -> forallb f (rstrip s) = true.
Proof.
  induction s as [|c s IH]; simpl; [trivial|].
  intro H. apply andb_true_iff in H. destruct H as [Hc Hs].
  specialize (IH Hs). destruct (rstrip s).
  - destruct (Unicode.isspace c); simpl; [reflexivity|now rewrite Hc].
  - simpl in *. now rewrite Hc.
Qed.

Lemma forallb_strip (f : char -> bool) s :
  forallb f s = true -> forallb f (strip s) = true.
Proof.
  intro H. unfold strip. apply forallb_rstrip.
  rewrite lstrip_drop_while. now apply forallb_drop_while.
Qed.

Lemma rstrip_no_space s :
  forallb (fun c => negb (Unicode.isspace c)) s = true -> rstrip s = s.
Proof.
  induction s as [|c s IH]; simpl; [reflexivity|].
  intro H. apply andb_true_iff in H. destruct H as [Hc Hs].
  rewrite (IH Hs). apply negb_true_iff in Hc. rewrite Hc. now destruct s.
Qed.

Lemma strip_no_space s :
  forallb (fun c => negb (Unicode.isspace c)) s = true -> strip s = s.
Proof.
  intro H. unfold strip.
  assert (E : lstrip s = s).
  { destruct s as [|c s]; [reflexivity|]. simpl in *.
    apply andb_true_iff in H. destruct H as [Hc _].
    apply negb_true_iff in Hc. now rewrite Hc. }
  rewrite E. now apply rstrip_no_space.
Qed.

Lemma strip_head s c r : strip s = c :: r -> Unicode.isspace c = false.
Proof.
  unfold strip. destruct (lstrip s) as [|x t] eqn:E; [discriminate|].
  apply lstrip_head in E. destruct (rstrip_keeps_head x t E) as [r' Hr].
  rewrite Hr. intro H. now injection H as <- _.
Qed.

Lemma strip_last s a x : strip s = a ++ [x] -> Unicode.isspace x = false.
Proof. apply rstrip_last. Qed.

(** *** Dictionaries *)

Lemma dict_get_set {V} (d : dict V) k v k' :
  dict_get (dict_set d k v) k' = if str_eqb k k' then Some v else dict_get d k'.
Proof.
  induction d as [|[k0 v0] d IH]; simpl; [reflexivity|].
  destruct (str_eqb k0 k) eqn:E0; simpl.
  - apply str_eqb_eq in E0. subst k0. now destruct (str_eqb k k').
  - destruct (str_eqb k0 k') eqn:E1; [|exact IH].
    apply str_eqb_eq in E1. subst k'.
    destruct (str_eqb k k0) eqn:E2; [|reflexivity].
    apply str_eqb_eq in E2. subst k0. now rewrite str_eqb_refl in E0.
Qed.

Lemma dict_get_set_same {V} (d : dict V) k v : dict_get (dict_set d k v) k = Some v.
Proof. now rewrite dict_get_set, str_eqb_refl. Qed.

Lemma dict_get_set_other {V} (d : dict V) k v k' :
  k <> k' -> dict_get (dict_set d k v) k' = dict_get d k'.
Proof. intro H. now rewrite dict_get_set, (str_eqb_neq _ _ H). Qed.

Lemma dict_get_keys {V} (d : dict V) k : dict_get d k = None <-> ~ In k (keys d).
Proof.
  induction d as [|[k0 v0] d IH]; simpl; [tauto|].
  destruct (str_eqb k0 k) eqn:E.
  - apply str_eqb_eq in E. split; [discriminate|]. intro H. contradict H. now left.
  - rewrite IH. split; [|tauto]. intros H [H1|H1]; [|tauto].
    subst. now rewrite str_eqb_refl in E.
Qed.

Lemma keys_set_present {V} (d : dict V) k v :
  In k (keys d) -> keys (dict_set d k v) = keys d.
Proof.
  induction d as [|[k0 v0] d IH]; simpl; [tauto|].
  intro H. destruct (str_eqb k0 k) eqn:E; simpl; [reflexivity|].
  f_equal. apply IH. destruct H as [H|H]; [|exact H].
  subst. now rewrite str_eqb_refl in E.
Qed.

Lemma In_dict_set {V} (d : dict V) k v k' v' :
  In (k', v') (dict_set d k v) -> (k' = k /\ v' = v) \/ In (k', v') d.
Proof.
  induction d as [|[k0 v0] d IH]; simpl.
  - intros [H|[]]. injection H as <- <-. now left.
  - destruct (str_eqb k0 k) eqn:E; simpl.
    + apply str_eqb_eq in E. subst k0. intros [H|H]; [|tauto].
      injection H as <- <-. now left.
    + intros [H|H]; [tauto|]. apply IH in H. tauto.
Qed.

Lemma keys_dict_set {V} (d : dict V) k v k' :
  In k' (keys (dict_set d k v)) -> k' = k \/ In k' (keys d).
Proof.
  unfold keys. intro H. apply in_map_iff in H. destruct H as [[k1 v1] [<- H]].
  apply In_dict_set in H. destruct H as [[-> _]|H]; [now left|].
  right. apply in_map_iff. now exists (k1, v1).
Qed.

Lemma NoDup_dict_set {V} (d : dict V) k v :
  NoDup (keys d) -> NoDup (keys (dict_set d k v)).
Proof.
  induction d as [|[k0 v0] d IH]; simpl; intro H.
  - constructor; [easy|constructor].
  - inversion H as [|? ? Hn Hd]; subst.
    destruct (str_eqb k0 k) eqn:E; simpl; [now constructor|].
    constructor; [|now apply IH].
    intro Hin. apply keys_dict_set in Hin. destruct Hin as [->|Hin]; [|tauto].
    now rewrite str_eqb_refl in E.
Qed.

Lemma dict_get_update {V} (other : dict V) : forall d k,
  NoDup (keys other) ->
  dict_get (dict_update d other) k =
  match dict_get other k with Some v => Some v | None => dict_get d k end.
Proof.
  unfold dict_update.
  induction other as [|[k0 v0] o IH]; simpl; intros d k H; [reflexivity|].
  inversion H as [|? ? Hn Hd]; subst. rewrite (IH _ _ Hd), dict_get_set.
  destruct (str_eqb k0 k) eqn:E; [|reflexivity].
  apply str_eqb_eq in E. subst k0.
  apply dict_get_keys in Hn. now rewrite Hn.
Qed.

(** ** The matcher *)

Lemma starts_with_spec old : forall s r, starts_with old s = Some r <-> s = old ++ r.
Proof.
  induction old as [|c old IH]; intros s r; simpl.
  - split; [now intros [= ->] | now intros ->].
  - destruct s as [|x s]; [split; discriminate|].
    destruct (x =? c) eqn:E.
    + apply N.eqb_eq in E. subst x. rewrite IH. split; [now intros ->|now intros [= ->]].
    + split; [discriminate|]. intros [= -> _]. now rewrite N.eqb_refl in E.
Qed.

Lemma match_here_literal l : forall s,
  Re.match_here (map Re.Literal l) s =
  option_map (fun r => (l, [], r)) (starts_with l s).
Proof.
  induction l as [|c l IH]; intros s; simpl; [reflexivity|].
  destruct s as [|x s]; [reflexivity|].
  destruct (x =? c) eqn:E; [|reflexivity].
  apply N.eqb_eq in E. subst x. rewrite IH. now destruct (starts_with l s).
Qed.

Lemma greedy_stop {A} set (k : str -> option A) :
  (forall x s', set x = true -> k (x :: s') = None) ->
  forall s, Re.greedy set k s =
            option_map (pair (take_while set s)) (k (drop_while set s)).
Proof.
  intros Hk s. induction s as [|x s IH]; simpl; [reflexivity|].
  destruct (set x) eqn:E; [|reflexivity].
  rewrite IH. destruct (k (drop_while set s)); simpl; [reflexivity|].
  now rewrite (Hk x s E).
Qed.

Lemma match_here_lit c p s :
  Re.match_here (Re.Literal c :: p) s =
  match s with
  | x :: s' =>
      if x =? c
      then option_map (fun '(m, gs, r) => (x :: m, gs, r)) (Re.match_here p s')
      else None
  | [] => None
  end.
Proof. reflexivity. Qed.

Lemma match_here_star set p s :
  Re.match_here (Re.GroupStar set :: p) s =
  match Re.greedy set (Re.match_here p) s with
  | Some (taken, f) => Some (Re.took taken f)
  | None => None
  end.
Proof. reflexivity. Qed.

Lemma match_here_plus set p s :
  Re.match_here (Re.GroupPlus set :: p) s =
  match Re.greedy set (Re.match_here p) s with
  | Some (x :: taken, f) => Some (Re.took (x :: taken) f)
  | _ => None
  end.
Proof. reflexivity. Qed.

Lemma name_set_not_colon x : name_set x = true -> (x =? COLON) = false.
Proof.
  intro H. destruct (x =? COLON) eqn:E; [|reflexivity].
  apply N.eqb_eq in E. subst x. discriminate H.
Qed.

Lemma match_here_pattern s :
  Re.match_here pattern s =
  match starts_with [LBRACE; LBRACE] s with
  | Some s1 =>
      match take_while name_set s1, starts_with [COLON] (drop_while name_set s1) with
      | (_ :: _) as name, Some s2 =>
          match starts_with [RBRACE; RBRACE] (drop_while value_set s2) with
          | Some rest =>
              let value := take_while value_set s2 in
              Some (LBRACE :: LBRACE :: name ++ COLON :: value ++ [RBRACE; RBRACE],
                    [name; value], rest)
          | None => None
          end
      | _, _ => None
      end
  | None => None
  end.
Proof.
  set (tail := map Re.Literal [RBRACE; RBRACE]).
  assert (K2 : forall x s', value_set x = true -> Re.match_here tail (x :: s') = None).
  { intros x s' H. unfold tail. simpl. unfold value_set in H.
    apply negb_true_iff in H. now rewrite H. }
  assert (K1 : forall x s', name_set x = true ->
            Re.match_here (Re.Literal COLON :: Re.GroupStar value_set :: tail)
              (x :: s') = None).
  { intros x s' H. rewrite match_here_lit. now rewrite (name_set_not_colon x H). }
  change pattern with
    (Re.Literal LBRACE :: Re.Literal LBRACE :: Re.GroupPlus name_set
       :: Re.Literal COLON :: Re.GroupStar value_set :: tail).
  destruct (starts_with [LBRACE; LBRACE] s) as [s1|] eqn:E0.
  2:{ rewrite match_here_lit. destruct s as [|a s]; [reflexivity|].
      cbn in E0. destruct (a =? LBRACE); [|reflexivity].
      rewrite match_here_lit. destruct s as [|b s]; [reflexivity|].
      now destruct (b =? LBRACE). }
  apply starts_with_spec in E0. subst s. cbn [app].
  rewrite match_here_lit, N.eqb_refl, match_here_lit, N.eqb_refl.
  rewrite match_here_plus, (greedy_stop _ _ K1).
  destruct (starts_with [COLON] (drop_while name_set s1)) as [s2|] eqn:E1.
  2:{ rewrite match_here_lit. destruct (drop_while name_set s1) as [|c s2].
      - cbn. now destruct (take_while name_set s1).
      - cbn in E1. destruct (c =? COLON); [discriminate|].
        cbn. now destruct (take_while name_set s1). }
  apply starts_with_spec in E1. rewrite E1. cbn [app].
  rewrite match_here_lit, N.eqb_refl, match_here_star, (greedy_stop _ _ K2).
  unfold tail. rewrite match_here_literal.
  destruct (starts_with [RBRACE; RBRACE] (drop_while value_set s2)) as [rest|].
  2:{ cbn. now destruct (take_while name_set s1). }
  cbn. destruct (take_while name_set s1) as [|n0 name]; [reflexivity|].
  cbn. reflexivity.
Qed.

Lemma starts_with_app old r : starts_with old (old ++ r) = Some r.
Proof. now apply starts_with_spec. Qed.

Lemma marker_shape name value r :
  marker name value ++ r =
  LBRACE :: LBRACE :: name ++ COLON :: value ++ RBRACE :: RBRACE :: r.
Proof.
  unfold marker. cbn. rewrite <- app_assoc. cbn. now rewrite <- app_assoc.
Qed.

Lemma match_here_marker s m gs r :
  Re.match_here pattern s = Some (m, gs, r) <->
  exists name value,
    name <> [] /\ forallb name_set name = true /\
    forallb value_set value = true /\
    m = marker name value /\ gs = [name; value] /\ s = m ++ r.
Proof.
  rewrite match_here_pattern. split.
  - destruct (starts_with [LBRACE; LBRACE] s) as [s1|] eqn:E0; [|discriminate].
    destruct (take_while name_set s1) as [|n0 nm] eqn:Et; [discriminate|].
    destruct (starts_with [COLON] (drop_while name_set s1)) as [s2|] eqn:E1;
      [|discriminate].
    destruct (starts_with [RBRACE; RBRACE] (drop_while value_set s2))
      as [rest|] eqn:E2; [|discriminate].
    intro H. injection H as <- <- <-.
    exists (n0 :: nm), (take_while value_set s2).
    apply starts_with_spec in E0, E1, E2.
    split; [discriminate|]. split; [rewrite <- Et; apply take_while_all|].
    split; [apply take_while_all|]. split; [reflexivity|]. split; [reflexivity|].
    subst s. rewrite <- (take_drop_while name_set s1), Et, E1.
    rewrite <- (take_drop_while value_set s2) at 1. rewrite E2.
    cbn. rewrite <- !app_assoc. cbn. rewrite <- !app_assoc. reflexivity.
  - intros (name & value & Hne & Hn & Hv & -> & -> & ->).
    rewrite marker_shape. cbn [starts_with]. rewrite !N.eqb_refl.
    destruct (take_while_stop name_set name COLON
                (value ++ RBRACE :: RBRACE :: r) Hn eq_refl) as [-> ->].
    cbn beta iota. rewrite N.eqb_refl.
    destruct (take_while_stop value_set value RBRACE (RBRACE :: r) Hv eq_refl)
      as [-> ->].
    cbn beta iota. rewrite !N.eqb_refl.
    destruct name as [|n0 nm]; [contradiction|]. reflexivity.
Qed.

(** ** The character tables *)

Lemma in_range_all f r c :
  all_from f (fst r) (N.to_nat (snd r - fst r + 1)) = true ->
  in_range c r = true -> f c = true.
Proof.
  intros Hall H. unfold in_range in H. apply andb_true_iff in H.
  destruct H as [Hlo Hhi]. apply N.leb_le in Hlo, Hhi.
  apply (all_from_spec f _ _ c Hall); lia.
Qed.

Lemma in_ranges_all f t c :
  forallb (fun r => all_from f (fst r) (N.to_nat (snd r - fst r + 1))) t = true ->
  in_ranges t c = true -> f c = true.
Proof.
  unfold in_ranges. induction t as [|r t IH]; simpl; [discriminate|].
  intros Hall H. apply andb_true_iff in Hall. destruct Hall as [Hr Ht].
  apply orb_true_iff in H. destruct H as [H|H].
  - now apply (in_range_all f r).
  - now apply IH.
Qed.

(** No character of a name is white space. *)
Lemma name_set_not_space c : name_set c = true -> Unicode.isspace c = false.
Proof.
  intro H. destruct (Unicode.isspace c) eqn:E; [|reflexivity].
  assert (F : negb (name_set c) = true).
  { apply (in_ranges_all (fun c => negb (name_set c)) Unicode.space_ranges);
      [vm_compute; reflexivity | exact E]. }
  rewrite H in F. discriminate.
Qed.

(** On ASCII the names are written with letters, digits, [_] and [-]. *)
Lemma name_set_ascii c :
  c < 128 ->
  name_set c = ascii_alnum c || (c =? UNDERSCORE) || (c =? HYPHEN).
Proof.
  intro H. apply eqb_prop.
  apply (all_from_spec
           (fun c => eqb (name_set c)
                         (ascii_alnum c || (c =? UNDERSCORE) || (c =? HYPHEN)))
           128 0 c); [vm_compute; reflexivity | lia | lia].
Qed.

(** ** The scan *)

Lemma match_here_split p : forall s m gs r,
  Re.match_here p s = Some (m, gs, r) -> s = m ++ r.
Proof.
  assert (G : forall set (k : str -> option Re.found),
            (forall s m gs r, k s = Some (m, gs, r) -> s = m ++ r) ->
            forall s taken m gs r,
              Re.greedy set k s = Some (taken, (m, gs, r)) -> s = taken ++ m ++ r).
  { intros set k Hk s. induction s as [|x s IH]; simpl; intros taken m gs r H.
    - destruct (k []) as [[[m0 gs0] r0]|] eqn:E; [|discriminate].
      injection H as <- <- <- <-. now apply Hk in E.
    - assert (F : option_map (pair []) (k (x :: s)) = Some (taken, (m, gs, r)) ->
                  x :: s = taken ++ m ++ r).
      { destruct (k (x :: s)) as [[[m0 gs0] r0]|] eqn:E; [|discriminate].
        intro H0. injection H0 as <- <- <- <-. now apply Hk in E. }
      destruct (set x); [|now apply F].
      destruct (Re.greedy set k s) as [[t0 [[m0 gs0] r0]]|] eqn:E; [|now apply F].
      injection H as <- <- <- <-. simpl. f_equal. now apply (IH _ _ gs0). }
  induction p as [|n p IH]; intros s m gs r H.
  - simpl in H. now injection H as <- _ <-.
  - destruct n as [c|set|set].
    + rewrite match_here_lit in H. destruct s as [|x s]; [discriminate|].
      destruct (x =? c); [|discriminate].
      destruct (Re.match_here p s) as [[[m0 gs0] r0]|] eqn:E; [|discriminate].
      injection H as <- <- <-. simpl. f_equal. now apply (IH _ _ gs0).
    + rewrite match_here_star in H.
      destruct (Re.greedy set (Re.match_here p) s) as [[t0 [[m0 gs0] r0]]|] eqn:E;
        [|discriminate].
      cbn in H. injection H as <- <- <-.
      apply (G set _ IH) in E. rewrite E. simpl. now rewrite app_assoc.
    + rewrite match_here_plus in H.
      destruct (Re.greedy set (Re.match_here p) s) as [[[|x t0] [[m0 gs0] r0]]|] eqn:E;
        try discriminate.
      cbn in H. injection H as <- <- <-.
      apply (G set _ IH) in E. rewrite E. simpl. now rewrite app_assoc.
Qed.

Lemma scan_no_match p s :
  (forall a b, s = a ++ b -> Re.match_here p b = None) ->
  Re.scan p 0 s = map Re.Text s.
Proof.
  induction s as [|x s IH]; intro H; simpl.
  - now rewrite (H [] [] eq_refl).
  - rewrite (H [] (x :: s) eq_refl). f_equal. apply IH.
    intros a b ->. now apply (H (x :: a) b).
Qed.

Lemma findall_nil p s :
  Re.findall p s = [] -> forall a b, s = a ++ b -> Re.match_here p b = None.
Proof.
  unfold Re.findall, Re.hits. induction s as [|x s IH]; simpl; intros H a b E.
  - destruct a; [|discriminate]. simpl in E. subst b.
    destruct (Re.match_here p []) as [[[m gs] r]|]; [discriminate|reflexivity].
  - destruct (Re.match_here p (x :: s)) as [[[m gs] r]|] eqn:Em.
    + destruct m; discriminate.
    + destruct a as [|y a]; simpl in E; [now subst b|].
      injection E as _ ->. now apply (IH H a b).
Qed.

Lemma findall_In p gs s :
  In gs (Re.findall p s) -> exists t m r, Re.match_here p t = Some (m, gs, r).
Proof.
  unfold Re.findall, Re.hits. generalize 0%nat as skip.
  induction s as [|x s IH]; intros skip; simpl.
  - destruct skip; [|intros []].
    destruct (Re.match_here p []) as [[[m gs0] r]|] eqn:E; [|intros []].
    simpl. intros [<-|[]]. eauto.
  - destruct skip as [|k]; [|apply IH].
    destruct (Re.match_here p (x :: s)) as [[[m gs0] r]|] eqn:E; [|apply IH].
    destruct m; simpl; (intros [<-|H]; [eauto | now apply IH in H]).
Qed.

Lemma rebuild_hit t m gs pcs :
  Re.rebuild t (Re.Hit m gs :: pcs) = Re.expand t m gs ++ Re.rebuild t pcs.
Proof. reflexivity. Qed.

Lemma rebuild_text1 t c pcs :
  Re.rebuild t (Re.Text c :: pcs) = c :: Re.rebuild t pcs.
Proof. reflexivity. Qed.

Lemma rebuild_text t s : Re.rebuild t (map Re.Text s) = s.
Proof. induction s as [|x s IH]; simpl; [reflexivity|]. now f_equal. Qed.

Lemma scan_cons p x s :
  Re.scan p 0 (x :: s) =
  match Re.match_here p (x :: s) with
  | Some (m, gs, _) =>
      match m with
      | [] => Re.Hit [] gs :: Re.Text x :: Re.scan p 0 s
      | _ :: m' => Re.Hit m gs :: Re.scan p (length m') s
      end
  | None => Re.Text x :: Re.scan p 0 s
  end.
Proof. reflexivity. Qed.

Lemma scan_skip p a rest : Re.scan p (length a) (a ++ rest) = Re.scan p 0 rest.
Proof. induction a as [|x a IH]; simpl; [reflexivity|exact IH]. Qed.

(** ** Extraction *)

Lemma extract_eq content :
  extract_and_remove_meta_fields content =
  Ok (meta_dict_of (Re.findall pattern content),
      strip (Re.rebuild [] (Re.scan pattern 0 content))).
Proof. reflexivity. Qed.

Lemma findall_marker gs content :
  In gs (Re.findall pattern content) ->
  exists name value, gs = [name; value] /\ valid_name name /\ valid_value value.
Proof.
  intro H. apply findall_In in H. destruct H as (t & m & r & H).
  apply match_here_marker in H.
  destruct H as (name & value & Hne & Hn & Hv & _ & -> & _).
  exists name, value. repeat split; assumption.
Qed.

Lemma strip_name name : forallb name_set name = true -> strip name = name.
Proof.
  intro H. apply strip_no_space. rewrite forallb_forall in *.
  intros c Hc. apply negb_true_iff, name_set_not_space. now apply H.
Qed.

Lemma add_field_entries (P : str -> str -> Prop) l : forall d,
  (forall k v, In (k, v) d -> P k v) ->
  (forall gs, In gs l -> exists f v, gs = [f; v] /\ P (strip f) (strip v)) ->
  forall k v, In (k, v) (fold_left add_field l d) -> P k v.
Proof.
  induction l as [|gs l IH]; simpl; intros d Hd Hl k v; [apply Hd|].
  apply IH; [|intros gs' H'; apply Hl; now right].
  destruct (Hl gs (or_introl eq_refl)) as (f & v0 & -> & HP). simpl.
  intros k' v' H. apply In_dict_set in H. destruct H as [[-> ->]|H]; auto.
Qed.

Lemma add_field_keep l k : forall d,
  (forall gs, In gs l -> exists f v, gs = [f; v] /\ strip f <> k) ->
  dict_get (fold_left add_field l d) k = dict_get d k.
Proof.
  induction l as [|gs l IH]; simpl; intros d Hl; [reflexivity|].
  rewrite IH; [|intros gs' H'; apply Hl; now right].
  destruct (Hl gs (or_introl eq_refl)) as (f & v0 & -> & Hne). simpl.
  now apply dict_get_set_other.
Qed.

Lemma add_field_NoDup l : forall d,
  NoDup (keys d) -> NoDup (keys (fold_left add_field l d)).
Proof.
  induction l as [|gs l IH]; simpl; intros d Hd; [exact Hd|].
  apply IH. destruct gs as [|f [|v [|]]]; simpl; try exact Hd.
  now apply NoDup_dict_set.
Qed.

Lemma add_field_nonempty l : forall d, d <> [] -> fold_left add_field l d <> [].
Proof.
  induction l as [|gs l IH]; simpl; intros d Hd; [exact Hd|].
  apply IH. destruct gs as [|f [|v [|]]]; simpl; try exact Hd.
  destruct d as [|[k0 v0] d]; [congruence|]. simpl. now destruct (str_eqb k0 _).
Qed.

Lemma no_marker_extract content :
  no_marker content -> extract_and_remove_meta_fields content = Ok ([], strip content).
Proof.
  intro H. rewrite extract_eq. unfold Re.findall, Re.hits.
  rewrite (scan_no_match _ _ H), rebuild_text.
  replace (flat_map _ (map Re.Text content)) with (@nil (list str)); [reflexivity|].
  clear H. induction content as [|x s IH]; simpl; [reflexivity|exact IH].
Qed.

Lemma scan_marker name value rest :
  valid_name name -> valid_value value ->
  Re.scan pattern 0 (marker name value ++ rest) =
  Re.Hit (marker name value) [name; value] :: Re.scan pattern 0 rest.
Proof.
  intros [Hne Hn] Hv.
  assert (M : Re.match_here pattern (marker name value ++ rest) =
              Some (marker name value, [name; value], rest)).
  { apply match_here_marker. exists name, value. repeat split; assumption. }
  destruct (marker name value) as [|x m'] eqn:E; [discriminate E|].
  simpl. simpl in M. rewrite M. f_equal. apply scan_skip.
Qed.

Lemma scan_plain t rest :
  forallb (fun c => negb (c =? LBRACE)) t = true ->
  Re.scan pattern 0 (t ++ rest) = map Re.Text t ++ Re.scan pattern 0 rest.
Proof.
  induction t as [|x t IH]; intro H; [reflexivity|].
  cbn [forallb] in H. apply andb_true_iff in H. destruct H as [Hx Ht].
  apply negb_true_iff in Hx. cbn [app map].
  rewrite scan_cons, match_here_pattern. cbn [starts_with].
  rewrite Hx. now rewrite IH.
Qed.

Lemma plain_app a b : plain (a ++ b) <-> plain a /\ plain b.
Proof. unfold plain. rewrite forallb_app. apply andb_true_iff. Qed.

Lemma plain_no_marker s : plain s -> no_marker s.
Proof.
  intros H a b ->. apply plain_app in H. destruct H as [_ H].
  rewrite match_here_pattern. destruct b as [|x b]; [reflexivity|].
  unfold plain in H. cbn [forallb] in H. apply andb_true_iff in H.
  destruct H as [Hx _]. apply negb_true_iff in Hx.
  cbn [starts_with]. now rewrite Hx.
Qed.

Lemma rebuild_app t a b : Re.rebuild t (a ++ b) = Re.rebuild t a ++ Re.rebuild t b.
Proof. apply flat_map_app. Qed.

Lemma hits_app a b : Re.hits (a ++ b) = Re.hits a ++ Re.hits b.
Proof. apply flat_map_app. Qed.

Lemma hits_hit m gs pcs : Re.hits (Re.Hit m gs :: pcs) = gs :: Re.hits pcs.
Proof. reflexivity. Qed.

Lemma hits_text t : Re.hits (map Re.Text t) = [].
Proof. induction t as [|x t IH]; [reflexivity|exact IH]. Qed.

(** What is left of a content made of plain text and markers holds no
    opening brace. *)
Lemma well_marked_rest s :
  well_marked s -> plain (Re.rebuild [] (Re.scan pattern 0 s)).
Proof.
  induction 1 as [t Ht|t name value rest Ht Hn Hv _ IH].
  - pose proof (scan_plain t [] Ht) as E. rewrite app_nil_r in E.
    rewrite E, rebuild_app, rebuild_text. cbn. now rewrite app_nil_r.
  - rewrite (scan_plain t _ Ht), (scan_marker name value rest Hn Hv).
    rewrite rebuild_app, rebuild_text, rebuild_hit. apply plain_app.
    split; [exact Ht|exact IH].
Qed.

(** C4.  For the input "Title: {{title:Hello World}} body {{draft:yes}}",
    [extract_and_remove_meta_fields] returns the mapping
    {"title": "Hello World", "draft": "yes"} and the cleaned content
    "Title:  body". *)
Theorem extract_title_draft :
  extract_and_remove_meta_fields
    (text "Title: {{title:Hello World}} body {{draft:yes}}") =
  Ok ([(text "title", text "Hello World"); (text "draft", text "yes")],
      text "Title:  body").
Proof. vm_compute. reflexivity. Qed.

(** C10.  For every input, every key of the extracted mapping is a non-empty
    string without white space, and every value has no closing brace and
    neither starts nor ends with white space. *)
Theorem extracted_fields_shape content :
  exists meta_dict cleaned,
    extract_and_remove_meta_fields content = Ok (meta_dict, cleaned) /\
    forall k v, In (k, v) meta_dict ->
      k <> [] /\
      forallb (fun c => negb (Unicode.isspace c)) k = true /\
      forallb (fun c => negb (c =? RBRACE)) v = true /\
      (forall c r, v = c :: r -> Unicode.isspace c = false) /\
      (forall a c, v = a ++ [c] -> Unicode.isspace c = false).
Proof.
  eexists _, _. split; [apply extract_eq|].
  unfold meta_dict_of. apply add_field_entries; [intros k v []|].
  intros gs H. apply findall_marker in H.
  destruct H as (name & value & -> & [Hne Hn] & Hv).
  exists name, value. split; [reflexivity|].
  rewrite (strip_name name Hn). split; [exact Hne|]. split.
  - rewrite forallb_forall in *. intros c Hc.
    apply negb_true_iff, name_set_not_space. now apply Hn.
  - split; [now apply forallb_strip|]. split.
    + intros c r E. apply (strip_head value c r E).
    + intros a c E. apply (strip_last value a c E).
Qed.

Lemma extracted_fields_shape_witness :
  text "k-1" <> [] /\
  forallb (fun c => negb (Unicode.isspace c)) (text "k-1") = true /\
  forallb (fun c => negb (c =? RBRACE)) (text "v w") = true.
Proof.
  destruct (extracted_fields_shape (text "a {{k-1:  v w }} b"))
    as (d & cl & He & H).
  rewrite extract_eq in He. injection He as Hd _.
  destruct (H (text "k-1") (text "v w")) as (H1 & H2 & H3 & _).
  - rewrite <- Hd. vm_compute. now left.
  - exact (conj H1 (conj H2 H3)).
Defined.

(** C5.  When several markers of the input carry the same field name, the
    extracted mapping binds the name to the trimmed value of the last of
    them in scan order: if the matches found are [before], then the marker
    (name, value), then [after], and no marker of [after] has that name, the
    mapping holds the trimmed [value] for [name].  In particular an input
    with a marker {{x:v1}} before a marker {{x:v2}}, in text without other
    opening brace, yields the trimmed [v2] for [x], and
    "{{x:1}}...{{x:2}}" yields "2" for "x". *)
Theorem last_marker_wins :
  (forall content before name value after,
     Re.findall pattern content = before ++ [name; value] :: after ->
     (forall value', ~ In [name; value'] after) ->
     exists meta_dict cleaned,
       extract_and_remove_meta_fields content = Ok (meta_dict, cleaned) /\
       dict_get meta_dict name = Some (strip value)) /\
  (forall t1 t2 t3 x v1 v2,
     plain t1 -> plain t2 -> plain t3 ->
     valid_name x -> valid_value v1 -> valid_value v2 ->
     exists meta_dict cleaned,
       extract_and_remove_meta_fields
         (t1 ++ marker x v1 ++ t2 ++ marker x v2 ++ t3) = Ok (meta_dict, cleaned) /\
       dict_get meta_dict x = Some (strip v2)) /\
  (exists meta_dict cleaned,
     extract_and_remove_meta_fields (text "{{x:1}}...{{x:2}}")
       = Ok (meta_dict, cleaned) /\
     dict_get meta_dict (text "x") = Some (text "2")).
Proof.
  split; [|split].
  - intros content before name value after E Hlast.
    eexists _, _. split; [apply extract_eq|].
    assert (V : forall gs, In gs (before ++ [name; value] :: after) ->
                exists f v, gs = [f; v] /\ valid_name f /\ valid_value v).
    { intros gs H. rewrite <- E in H. now apply findall_marker in H. }
    rewrite E. unfold meta_dict_of. rewrite fold_left_app. simpl.
    destruct (V [name; value]) as (f & v & [= <- <-] & [_ Hn] & _);
      [apply in_elt|].
    rewrite add_field_keep.
    + rewrite (strip_name name Hn). apply dict_get_set_same.
    + intros gs H.
      destruct (V gs) as (f & v & -> & [_ Hf] & _);
        [apply in_or_app; right; now right|].
      exists f, v. split; [reflexivity|]. rewrite (strip_name f Hf).
      intros ->. exact (Hlast v H).
  - intros t1 t2 t3 x v1 v2 H1 H2 H3 Hx Hv1 Hv2.
    eexists _, _. split; [apply extract_eq|].
    assert (F : Re.findall pattern (t1 ++ marker x v1 ++ t2 ++ marker x v2 ++ t3)
                = [[x; v1]; [x; v2]]).
    { unfold Re.findall.
      rewrite (scan_plain t1 _ H1), (scan_marker x v1 _ Hx Hv1).
      rewrite (scan_plain t2 _ H2), (scan_marker x v2 _ Hx Hv2).
      pose proof (scan_plain t3 [] H3) as E. rewrite app_nil_r in E. rewrite E.
      repeat (rewrite hits_app || rewrite hits_hit || rewrite hits_text).
      reflexivity. }
    rewrite F. unfold meta_dict_of. cbn [fold_left add_field].
    rewrite (strip_name x (proj2 Hx)). apply dict_get_set_same.
  - eexists _, _. split; [apply extract_eq|]. vm_compute. reflexivity.
Qed.

Lemma last_marker_wins_witness :
  (exists meta_dict cleaned,
     extract_and_remove_meta_fields (text "{{x:1}} {{y:0}} {{x: 2 }}{{z:3}}")
       = Ok (meta_dict, cleaned) /\
     dict_get meta_dict (text "x") = Some (strip (text " 2 "))) /\
  (exists meta_dict cleaned,
     extract_and_remove_meta_fields
       (text "a " ++ marker (text "x") (text "1") ++ text " b "
          ++ marker (text "x") (text " 2") ++ text " c")
       = Ok (meta_dict, cleaned) /\
     dict_get meta_dict (text "x") = Some (strip (text " 2"))).
Proof.
  split.
  - apply (proj1 last_marker_wins
             (text "{{x:1}} {{y:0}} {{x: 2 }}{{z:3}}")
             [[text "x"; text "1"]; [text "y"; text "0"]]
             (text "x") (text " 2 ")
             [[text "z"; text "3"]]).
    + vm_compute. reflexivity.
    + intros value' [H|[]]. discriminate H.
  - apply (proj1 (proj2 last_marker_wins)); try reflexivity.
    split; [discriminate|reflexivity].
Defined.

(** C1 (amended).  For every input, running the extraction again on the
    cleaned content yields the empty mapping and the content unchanged
    exactly when no marker begins anywhere in the cleaned content.  This is
    so for every input made of markers and of text without opening brace.
    In general the markers are removed in one pass, and the text on both
    sides of a removed marker can join into a new one. *)
Theorem extract_again :
  (forall content,
     exists meta_dict cleaned,
       extract_and_remove_meta_fields content = Ok (meta_dict, cleaned) /\
       (extract_and_remove_meta_fields cleaned = Ok ([], cleaned) <->
        no_marker cleaned)) /\
  (forall content,
     well_marked content ->
     exists meta_dict cleaned,
       extract_and_remove_meta_fields content = Ok (meta_dict, cleaned) /\
       extract_and_remove_meta_fields cleaned = Ok ([], cleaned)).
Proof.
  split; intros content.
  - eexists _, _. split; [apply extract_eq|].
    set (cleaned := strip _). split.
    + rewrite extract_eq. intro H. injection H as Hd _.
      intros a b E. refine (findall_nil pattern cleaned _ a b E).
      destruct (Re.findall pattern cleaned) as [|gs l] eqn:F; [reflexivity|].
      exfalso. destruct (findall_marker gs cleaned) as (f & v & -> & _);
        [rewrite F; now left|].
      unfold meta_dict_of in Hd. simpl in Hd.
      refine (add_field_nonempty l _ _ Hd). discriminate.
    + intro H. rewrite (no_marker_extract _ H). unfold cleaned.
      now rewrite strip_idem.
  - intro W. eexists _, _. split; [apply extract_eq|].
    rewrite no_marker_extract; [now rewrite strip_idem|].
    apply plain_no_marker, forallb_strip, well_marked_rest, W.
Qed.

Lemma extract_again_witness :
  (no_marker (text "Hello") /\
   extract_and_remove_meta_fields (text "Hello") = Ok ([], text "Hello")) /\
  exists meta_dict cleaned,
    extract_and_remove_meta_fields
      (text "Title: " ++ marker (text "title") (text "Hello World")
         ++ text " body " ++ marker (text "draft") (text "yes") ++ [])
      = Ok (meta_dict, cleaned) /\
    extract_and_remove_meta_fields cleaned = Ok ([], cleaned).
Proof.
  split.
  - assert (N : no_marker (text "Hello")).
    { intros a b E. refine (findall_nil pattern _ _ a b E).
      vm_compute. reflexivity. }
    split; [exact N|].
    destruct (proj1 extract_again (text " Hello {{a:b}} ")) as (d & cl & He & Hiff).
    rewrite extract_eq in He. injection He as _ Hcl.
    assert (E : cl = text "Hello") by (rewrite <- Hcl; vm_compute; reflexivity).
    rewrite E in Hiff. now apply Hiff.
  - apply (proj2 extract_again).
    apply wm_marker; [reflexivity| | |].
    + split; [discriminate|reflexivity].
    + reflexivity.
    + apply wm_marker; [reflexivity| | |].
      * split; [discriminate|reflexivity].
      * reflexivity.
      * apply wm_text. reflexivity.
Defined.

(** C1, as stated, fails: after {{x:y}} is removed from "{{a{{x:y}}:b}}"
    the cleaned content is the marker "{{a:b}}", which a second run
    extracts. *)
Lemma extract_again_counterexample :
  exists meta_dict cleaned,
    extract_and_remove_meta_fields (text "{{a{{x:y}}:b}}")
      = Ok (meta_dict, cleaned) /\
    cleaned = text "{{a:b}}" /\
    extract_and_remove_meta_fields cleaned = Ok ([(text "a", text "b")], []) /\
    extract_and_remove_meta_fields cleaned <> Ok ([], cleaned).
Proof.
  eexists _, _. split; [apply extract_eq|].
  split; [vm_compute; reflexivity|].
  split; [vm_compute; reflexivity|]. vm_compute. discriminate.
Qed.

Lemma extract_marker name value :
  valid_name name -> valid_value value ->
  extract_and_remove_meta_fields (marker name value) =
  Ok ([(name, strip value)], []).
Proof.
  intros Hn Hv. rewrite extract_eq. unfold Re.findall, Re.hits.
  rewrite <- (app_nil_r (marker name value)) at 1 2.
  rewrite (scan_marker name value [] Hn Hv).
  cbn. unfold meta_dict_of. cbn. now rewrite (strip_name name (proj2 Hn)).
Qed.

(** The scan copies a text in which no marker begins and goes on after it. *)
Lemma scan_unmatched t rest :
  unmatched t rest ->
  Re.scan pattern 0 (t ++ rest) = map Re.Text t ++ Re.scan pattern 0 rest.
Proof.
  induction t as [|c t IH]; intro H; [reflexivity|].
  cbn [app map]. rewrite scan_cons.
  change (c :: t ++ rest) with ((c :: t) ++ rest).
  rewrite (H [] (c :: t) eq_refl); [|discriminate].
  f_equal. apply IH. intros a b E Hb. apply (H (c :: a) b); [|exact Hb].
  now rewrite E.
Qed.

Lemma unmatchedb_spec t rest : unmatchedb t rest = true <-> unmatched t rest.
Proof.
  induction t as [|c t IH].
  - split; [|reflexivity]. intros _ a b E Hb.
    destruct a; [|discriminate]. cbn in E. now subst b.
  - cbn [unmatchedb].
    destruct (Re.match_here pattern ((c :: t) ++ rest)) as [f|] eqn:E.
    + split; [discriminate|]. intro H.
      rewrite (H [] (c :: t) eq_refl) in E; discriminate.
    + rewrite IH. split.
      * intros H a b Eab Hb. destruct a as [|x a].
        -- cbn in Eab. now subst b.
        -- injection Eab as _ Eab. exact (H a b Eab Hb).
      * intros H a b Eab Hb. apply (H (c :: a) b); [|exact Hb].
        now rewrite Eab.
Qed.

(** The pattern matches at the start of a string exactly when the string
    begins with a marker. *)
Lemma match_here_None s :
  Re.match_here pattern s = None <->
  ~ exists name value rest,
      s = marker name value ++ rest /\ valid_name name /\ valid_value value.
Proof.
  split.
  - intros E (name & value & rest & -> & [Hne Hn] & Hv).
    assert (H : Re.match_here pattern (marker name value ++ rest)
                = Some (marker name value, [name; value], rest)).
    { apply match_here_marker. exists name, value. now repeat split. }
    congruence.
  - intro H. destruct (Re.match_here pattern s) as [[[m gs] r]|] eqn:E;
      [|reflexivity].
    exfalso. apply H. apply match_here_marker in E.
    destruct E as (name & value & Hne & Hn & Hv & -> & _ & ->).
    exists name, value, r. now repeat split.
Qed.

(** Text in which no marker begins is kept, the marker after it is recorded
    and removed, and the extraction goes on with the text after the marker. *)
Lemma extract_unmatched pre name value post :
  valid_name name -> valid_value value ->
  unmatched pre (marker name value ++ post) ->
  extract_and_remove_meta_fields (pre ++ marker name value ++ post) =
  (removed <- Re.sub pattern [] post ;;
   Ok (fold_left add_field (Re.findall pattern post) [(name, strip value)],
       strip (pre ++ removed))).
Proof.
  intros Hn Hv Hu. rewrite extract_eq. unfold Re.findall, Re.sub.
  cbn [Re.parse bind].
  rewrite (scan_unmatched pre _ Hu), (scan_marker name value post Hn Hv).
  rewrite hits_app, hits_text, hits_hit, rebuild_app, rebuild_text, rebuild_hit.
  cbn [app Re.expand flat_map]. unfold meta_dict_of. cbn [fold_left add_field].
  cbn [dict_set]. now rewrite (strip_name name (proj2 Hn)).
Qed.

(** Every content either holds no marker or has a first one. *)
Lemma first_marker content :
  no_marker content \/
  exists pre name value post,
    content = pre ++ marker name value ++ post /\
    valid_name name /\ valid_value value /\
    unmatched pre (marker name value ++ post).
Proof.
  induction content as [|c s IH].
  - left. intros a b E. destruct a; [|discriminate]. cbn in E. now subst b.
  - destruct (Re.match_here pattern (c :: s)) as [[[m gs] r]|] eqn:E.
    + right. apply match_here_marker in E.
      destruct E as (name & value & Hne & Hn & Hv & -> & _ & E).
      exists [], name, value, r. split; [exact E|]. repeat split; try assumption.
      intros a b Eab Hb. destruct a; [|discriminate]. cbn in Eab. now subst b.
    + destruct IH as [IH|(pre & name & value & post & -> & Hn & Hv & Hu)].
      * left. intros a b Eab. destruct a as [|x a].
        -- cbn in Eab. now subst b.
        -- injection Eab as _ Eab. exact (IH a b Eab).
      * right. exists (c :: pre), name, value, post. split; [reflexivity|].
        repeat split; try apply Hn; try assumption.
        intros a b Eab Hb. destruct a as [|x a].
        -- cbn in Eab. subst b. exact E.
        -- injection Eab as _ Eab. exact (Hu a b Eab Hb).
Qed.

(** C3 (amended).  The pattern matches at a position exactly when the text
    there begins with a span {{name:value}} in which [name] is a non-empty
    string of word characters (the alphanumerics of Unicode and the
    underscore) or hyphens and [value] has no closing brace; the groups are
    then that name and that value.  On ASCII the characters of a name are
    the letters, the digits, the underscore and the hyphen.

    The extraction reads the content from the left.  Text in which no marker
    begins stays in the cleaned content character for character, whatever
    braces and colons it holds; the marker that follows it is recorded, its
    name with its trimmed value, and removed; and the text after the marker
    is treated in the same way: its fields are assigned after that of the
    marker and its cleaned text comes after the text kept.  The cleaned
    content as a whole is trimmed.  Every content has one of the two forms:
    no marker begins in it, and it is returned trimmed with an empty
    mapping; or it has a first marker.  So "{{z}} {{title:Doc}}" yields the
    mapping {title: Doc} and the content "{{z}}". *)
Theorem marker_recognised :
  (forall name value rest,
     Re.match_here pattern (marker name value ++ rest)
       = Some (marker name value, [name; value], rest) <->
     valid_name name /\ valid_value value) /\
  (forall s,
     Re.match_here pattern s = None <->
     ~ exists name value rest,
         s = marker name value ++ rest /\ valid_name name /\ valid_value value) /\
  (forall c, c < 128 ->
     name_set c = ascii_alnum c || (c =? UNDERSCORE) || (c =? HYPHEN)) /\
  (forall pre name value post,
     valid_name name -> valid_value value ->
     unmatched pre (marker name value ++ post) ->
     extract_and_remove_meta_fields (pre ++ marker name value ++ post) =
     (removed <- Re.sub pattern [] post ;;
      Ok (fold_left add_field (Re.findall pattern post) [(name, strip value)],
          strip (pre ++ removed)))) /\
  (forall pre name value post,
     valid_name name -> valid_value value ->
     unmatched pre (marker name value ++ post) -> no_marker post ->
     extract_and_remove_meta_fields (pre ++ marker name value ++ post) =
     Ok ([(name, strip value)], strip (pre ++ post))) /\
  (forall content,
     no_marker content ->
     extract_and_remove_meta_fields content = Ok ([], strip content)) /\
  (forall content,
     no_marker content \/
     exists pre name value post,
       content = pre ++ marker name value ++ post /\
       valid_name name /\ valid_value value /\
       unmatched pre (marker name value ++ post)) /\
  extract_and_remove_meta_fields (text "{{z}} {{title:Doc}}")
    = Ok ([(text "title", text "Doc")], text "{{z}}").
Proof.
  split; [|split; [exact match_here_None|split; [exact name_set_ascii|
    split; [exact extract_unmatched|split; [|split; [exact no_marker_extract|
    split; [exact first_marker|vm_compute; reflexivity]]]]]]].
  - intros name value rest. rewrite match_here_marker. split.
    + intros (name' & value' & Hne & Hn & Hv & _ & [= <- <-] & _).
      repeat split; assumption.
    + intros [[Hne Hn] Hv]. exists name, value. repeat split; assumption.
  - intros pre name value post Hn Hv Hu Hp.
    rewrite (extract_unmatched pre name value post Hn Hv Hu).
    unfold Re.sub, Re.findall. cbn [Re.parse bind].
    rewrite (scan_no_match pattern post Hp), hits_text, rebuild_text.
    reflexivity.
Qed.

Lemma marker_recognised_witness :
  extract_and_remove_meta_fields
    (text "{{z}} {a:b} " ++ marker (text "draft-2") (text " yes ")
     ++ text " and {{x y:1}}")
  = Ok ([(text "draft-2", text "yes")], text "{{z}} {a:b}  and {{x y:1}}").
Proof.
  etransitivity.
  - apply (proj1 (proj2 (proj2 (proj2 (proj2 marker_recognised))))).
    + split; [discriminate|vm_compute; reflexivity].
    + vm_compute. reflexivity.
    + apply unmatchedb_spec. vm_compute. reflexivity.
    + intros a b E. refine (findall_nil pattern _ _ a b E).
      vm_compute. reflexivity.
  - vm_compute. reflexivity.
Defined.

(** C3, as stated, fails on three counts.  The letter U+00E9 (e with an
    acute accent) is a word character, so the span with that name and the
    value 1 is recognized although its name is no string over
    [A-Za-z0-9_-].  A span that does not match is not always left
    untouched: in the span with the name "bad name" and the value "{{a:b"
    no marker begins at the start, yet a marker begins further on and is
    extracted, and of the span only "{{bad name:" is left.  And a span with
    a name and a value of the right form is not always recognized: in
    "{{a:{{b:c}}" the span {{b:c}} is part of the value of the marker that
    begins before it, and no field b is recorded. *)
Lemma marker_recognised_counterexample :
  (forallb (fun c => ascii_alnum c || (c =? UNDERSCORE) || (c =? HYPHEN)) [233]
     = false /\
   Re.match_here pattern (marker [233] (text "1"))
     = Some (marker [233] (text "1"), [[233]; text "1"], []) /\
   extract_and_remove_meta_fields (marker [233] (text "1"))
     = Ok ([([233], text "1")], [])) /\
  (Re.match_here pattern (marker (text "bad name") (text "{{a:b")) = None /\
   extract_and_remove_meta_fields (marker (text "bad name") (text "{{a:b"))
     = Ok ([(text "a", text "b")], text "{{bad name:")) /\
  (Re.match_here pattern (marker (text "b") (text "c"))
     = Some (marker (text "b") (text "c"), [text "b"; text "c"], []) /\
   extract_and_remove_meta_fields (text "{{a:" ++ marker (text "b") (text "c"))
     = Ok ([(text "a", text "{{b:c")], [])).
Proof. repeat split; vm_compute; reflexivity. Qed.

(** ** Substitution *)

Lemma special_not_alnum c :
  Re.special c = true -> Re.is_digit c || Re.is_ascii_letter c = false.
Proof.
  unfold Re.special. rewrite existsb_exists. intros (x & Hin & E).
  apply N.eqb_eq in E. subst x. cbn in Hin.
  repeat (destruct Hin as [<-|Hin]; [reflexivity|]). destruct Hin.
Qed.

Lemma operator_special c : Re.operator c = true -> Re.special c = true.
Proof.
  unfold Re.operator. rewrite existsb_exists. intros (x & Hin & E).
  apply N.eqb_eq in E. subst x. cbn in Hin.
  repeat (destruct Hin as [<-|Hin]; [reflexivity|]). destruct Hin.
Qed.

(** An escaped string compiles to the pattern of its own characters. *)
Lemma compile_escape s : Re.compile (Re.escape s) = Some (map Re.Literal s).
Proof.
  induction s as [|c s IH]; [reflexivity|].
  unfold Re.escape. cbn [flat_map]. fold (Re.escape s).
  destruct (Re.special c) eqn:E.
  - cbn [app Re.compile]. rewrite N.eqb_refl, (special_not_alnum c E), IH.
    reflexivity.
  - cbn [app Re.compile].
    destruct (c =? BACKSLASH) eqn:Eb.
    { apply N.eqb_eq in Eb. subst c. discriminate E. }
    destruct (Re.operator c) eqn:Eo.
    { apply operator_special in Eo. congruence. }
    now rewrite IH.
Qed.

Lemma groups_literal l : Re.groups (map Re.Literal l) = 0%nat.
Proof. unfold Re.groups. induction l as [|c l IH]; [reflexivity|exact IH]. Qed.

Lemma rebuild_scan_literal old t :
  old <> [] ->
  forall s skip,
    Re.rebuild t (Re.scan (map Re.Literal old) skip s) =
    str_replace_from old (Re.expand t old []) skip s.
Proof.
  intros Hold s. induction s as [|x s IH]; intros skip.
  - destruct skip; [|reflexivity]. cbn [Re.scan str_replace_from].
    rewrite match_here_literal. destruct old; [contradiction|reflexivity].
  - destruct skip as [|k]; [|apply IH].
    rewrite scan_cons, match_here_literal. cbn [str_replace_from].
    destruct (starts_with old (x :: s)) as [r|]; cbn [option_map].
    + destruct old as [|o old']; [contradiction|].
      rewrite rebuild_hit, IH.
      replace (length (o :: old') - 1)%nat with (length old');
        [reflexivity | simpl; lia].
    + now rewrite rebuild_text1, IH.
Qed.

Lemma placeholder_nonempty name : placeholder name <> [].
Proof. discriminate. Qed.

(** [replace_field] replaces every placeholder of the field by the expansion
    of the value read as a replacement template. *)
Lemma replace_field_eq content fieldname value :
  replace_field content fieldname value =
  (t <- Re.parse 0 value ;;
   Ok (str_replace (placeholder fieldname)
         (Re.expand t (placeholder fieldname) []) content)).
Proof.
  unfold replace_field. fold (placeholder fieldname).
  rewrite compile_escape. unfold Re.sub. rewrite groups_literal.
  destruct (Re.parse 0 value) as [t|e]; [|reflexivity].
  unfold str_replace. cbn [bind]. f_equal.
  apply rebuild_scan_literal, placeholder_nonempty.
Qed.

(** A template is well formed when the parser raises nothing. *)
Lemma parse_template_Some groups value :
  Re.parse_template groups value <> None ->
  exists t, Re.parse groups value = Ok t.
Proof.
  unfold Re.parse_template.
  destruct (Re.parse groups value) as [t|e]; [now exists t|contradiction].
Qed.

Lemma parse_template_None groups value :
  Re.parse_template groups value = None <->
  exists e, Re.parse groups value = Raise e.
Proof.
  unfold Re.parse_template.
  destruct (Re.parse groups value) as [t|e]; split;
    try discriminate; try reflexivity.
  - intros [e H]. discriminate H.
  - intros _. now exists e.
Qed.

Lemma parse_plain groups value :
  forallb (fun c => negb (c =? BACKSLASH)) value = true ->
  Re.parse groups value = Ok (map Re.TLit value).
Proof.
  induction value as [|c v IH]; [reflexivity|].
  cbn [forallb]. intro H. apply andb_true_iff in H. destruct H as [Hc Hv].
  cbn [Re.parse map]. rewrite Hc, (IH Hv). reflexivity.
Qed.

Lemma expand_plain value m gs : Re.expand (map Re.TLit value) m gs = value.
Proof. induction value as [|c v IH]; [reflexivity|]. cbn. now f_equal. Qed.

(** A value without backslash is substituted as it is. *)
Lemma replace_field_plain content fieldname value :
  forallb (fun c => negb (c =? BACKSLASH)) value = true ->
  replace_field content fieldname value =
  Ok (str_replace (placeholder fieldname) value content).
Proof.
  intro H. rewrite replace_field_eq, (parse_plain 0 value H).
  cbn [bind]. now rewrite expand_plain.
Qed.

(** C2.  [replace_field] is to replace every placeholder of the field by the
    value, taken literally.  It does so only for values without backslash:
    the value is handed to [re.sub] as a replacement template, so in
    "C:\new" the backslash and the n become a line feed, and "C:\dir" is
    refused as a bad escape. *)
Theorem replace_field_backslash :
  replace_field (text "path: {{p}}") (text "p") (text "C:\new")
    = Ok (text "path: C:" ++ [10] ++ text "ew") /\
  str_replace (placeholder (text "p")) (text "C:\new") (text "path: {{p}}")
    = text "path: C:\new" /\
  replace_field (text "path: {{p}}") (text "p") (text "C:\dir") = Raise ReError.
Proof. repeat split; vm_compute; reflexivity. Qed.

Lemma dict_set_fresh {V} (d : dict V) k v :
  ~ In k (keys d) -> dict_set d k v = d ++ [(k, v)].
Proof.
  induction d as [|[k0 v0] d IH]; simpl; intro H; [reflexivity|].
  destruct (str_eqb k0 k) eqn:E.
  - apply str_eqb_eq in E. subst. contradict H. now left.
  - f_equal. apply IH. tauto.
Qed.

(** A comprehension over the items of a dict keeps the keys and their order. *)
Lemma comprehension_map (f : str -> str) d : forall acc,
  NoDup (keys acc ++ keys d) ->
  fold_left (fun a kv => dict_set a (fst kv) (f (snd kv))) d acc =
  acc ++ map (fun kv => (fst kv, f (snd kv))) d.
Proof.
  induction d as [|[k v] d IH]; simpl; intros acc H; [now rewrite app_nil_r|].
  assert (Hk : ~ In k (keys acc)).
  { intro Hin. apply NoDup_remove_2 in H. apply H, in_or_app. now left. }
  rewrite (dict_set_fresh acc k (f v) Hk), IH.
  - now rewrite <- app_assoc.
  - unfold keys in *. rewrite map_app, <- app_assoc. exact H.
Qed.

Lemma comprehension_keys (f : str -> str) d : forall acc k,
  In k (keys (fold_left (fun a kv => dict_set a (fst kv) (f (snd kv))) d acc)) ->
  In k (keys acc) \/ In k (keys d).
Proof.
  induction d as [|[k0 v0] d IH]; simpl; intros acc k H; [now left|].
  apply IH in H. destruct H as [H|H]; [|tauto].
  apply keys_dict_set in H. destruct H as [->|H]; tauto.
Qed.

Lemma replace_fields_eq content meta_fields :
  replace_fields content meta_fields =
  fold_left replace_next
    (fold_left (fun a kv => dict_set a (fst kv) (strip (snd kv))) meta_fields [])
    (Ok content).
Proof. reflexivity. Qed.

Lemma fold_left_map {A B C} (f : A -> B -> A) (g : C -> B) l : forall a,
  fold_left f (map g l) a = fold_left (fun x c => f x (g c)) l a.
Proof. induction l as [|c l IH]; simpl; intro a; [reflexivity|apply IH]. Qed.

(** C7.  [replace_fields] trims every value of the mapping before it is
    substituted: for a mapping (its keys are distinct, as in any dict) the
    placeholders of each key are replaced, in the order of the mapping, by
    the trimmed value; trimming a trimmed value changes nothing; and the
    mapping {"x": "  foo  "} substituted into "{{x}}" yields "foo". *)
Theorem values_trimmed :
  (forall content meta_fields,
     NoDup (keys meta_fields) ->
     replace_fields content meta_fields =
     fold_left (fun acc kv => c <- acc ;; replace_field c (fst kv) (strip (snd kv)))
               meta_fields (Ok content)) /\
  (forall value, strip (strip value) = strip value) /\
  replace_fields (text "{{x}}") [(text "x", text "  foo  ")] = Ok (text "foo").
Proof.
  split; [|split; [exact strip_idem|vm_compute; reflexivity]].
  intros content meta_fields H. rewrite replace_fields_eq.
  rewrite (comprehension_map strip meta_fields []); [|exact H].
  cbn [app]. now rewrite fold_left_map.
Qed.

Lemma values_trimmed_witness :
  replace_fields (text "{{a}}-{{b}}") [(text "a", text " 1 "); (text "b", text "2 ")] =
  fold_left (fun acc kv => c <- acc ;; replace_field c (fst kv) (strip (snd kv)))
            [(text "a", text " 1 "); (text "b", text "2 ")]
            (Ok (text "{{a}}-{{b}}")).
Proof.
  apply (proj1 values_trimmed).
  repeat constructor; cbn; intuition discriminate.
Defined.

(** *** Placeholders of other names are out of reach *)

Lemma starts_with_app_some old s r b :
  starts_with old s = Some r -> starts_with old (s ++ b) = Some (r ++ b).
Proof.
  intro H. apply starts_with_spec in H. subst s.
  rewrite <- app_assoc. apply starts_with_app.
Qed.

Lemma str_replace_from_app old new :
  forall a b skip,
    (skip <= length a)%nat ->
    (forall a1 a2 r, a = a1 ++ a2 -> a2 <> [] ->
       starts_with old (a2 ++ b) = Some r -> exists r', starts_with old a2 = Some r') ->
    str_replace_from old new skip (a ++ b) =
    str_replace_from old new skip a ++ str_replace_from old new 0 b.
Proof.
  induction a as [|x a IH]; intros b skip Hskip Hin.
  - simpl in Hskip. now replace skip with 0%nat by lia.
  - assert (Hin' : forall a1 a2 r, a = a1 ++ a2 -> a2 <> [] ->
              starts_with old (a2 ++ b) = Some r ->
              exists r', starts_with old a2 = Some r').
    { intros a1 a2 r -> Hne. now apply (Hin (x :: a1) a2 r). }
    destruct skip as [|k]; cbn [app str_replace_from].
    + destruct (starts_with old (x :: a ++ b)) as [r|] eqn:E.
      * destruct (Hin [] (x :: a) r eq_refl ltac:(discriminate) E) as [r' E'].
        rewrite E', <- app_assoc. f_equal. apply IH; [|exact Hin'].
        apply starts_with_spec in E'.
        apply (f_equal (@length char)) in E'. rewrite length_app in E'.
        simpl in E'. lia.
      * destruct (starts_with old (x :: a)) as [r'|] eqn:E'.
        { apply (starts_with_app_some _ _ _ b) in E'. simpl in E'. congruence. }
        simpl. f_equal. apply IH; [lia|exact Hin'].
    + apply IH; [simpl in Hskip; lia|exact Hin'].
Qed.

Lemma str_replace_no_match old new s :
  (forall a1 a2, s = a1 ++ a2 -> a2 <> [] -> starts_with old a2 = None) ->
  str_replace_from old new 0 s = s.
Proof.
  induction s as [|x s IH]; intro H; [reflexivity|].
  cbn [str_replace_from]. rewrite (H [] (x :: s) eq_refl ltac:(discriminate)).
  f_equal. apply IH. intros a1 a2 ->. now apply (H (x :: a1) a2).
Qed.

Lemma placeholder_shape name r :
  placeholder name ++ r = LBRACE :: LBRACE :: name ++ RBRACE :: RBRACE :: r.
Proof. unfold placeholder. cbn. now rewrite <- app_assoc. Qed.

Lemma brace_free_In k c : brace_free k -> In c k -> c <> LBRACE /\ c <> RBRACE.
Proof.
  unfold brace_free. rewrite forallb_forall. intros H Hin.
  specialize (H c Hin). apply andb_true_iff in H. destruct H as [H1 H2].
  apply negb_true_iff in H1, H2. apply N.eqb_neq in H1, H2. now split.
Qed.

Lemma brace_free_head k rest x : brace_free k -> k ++ RBRACE :: rest <> LBRACE :: x.
Proof.
  intros Hk E. destruct k as [|c k]; [discriminate|].
  injection E as -> _. destruct (brace_free_In _ LBRACE Hk); [now left|congruence].
Qed.

Lemma brace_free_inj k n x y :
  brace_free k -> brace_free n -> k ++ RBRACE :: x = n ++ RBRACE :: y -> k = n.
Proof.
  revert n. induction k as [|c k IH]; intros n Hk Hn E.
  - destruct n as [|d n]; [reflexivity|]. injection E as E _.
    destruct (brace_free_In _ d Hn); [now left|congruence].
  - destruct n as [|d n]; simpl in E.
    + injection E as E _. destruct (brace_free_In _ c Hk); [now left|congruence].
    + injection E as -> E. f_equal. apply (IH n); [| |exact E].
      * unfold brace_free in *. simpl in Hk. now apply andb_true_iff in Hk.
      * unfold brace_free in *. simpl in Hn. now apply andb_true_iff in Hn.
Qed.

Lemma brace_free_closing k : brace_free k -> ~ In LBRACE (k ++ [RBRACE; RBRACE]).
Proof.
  intros Hk Hin. apply in_app_or in Hin. destruct Hin as [Hin|Hin].
  - destruct (brace_free_In _ _ Hk Hin). congruence.
  - destruct Hin as [H|[H|[]]]; discriminate H.
Qed.

(** No placeholder of [k] begins inside the placeholder of another name. *)
Lemma placeholder_inside k n a1 a2 post r :
  brace_free k -> brace_free n -> n <> k ->
  placeholder n = a1 ++ a2 -> a2 <> [] ->
  starts_with (placeholder k) (a2 ++ post) = Some r -> False.
Proof.
  intros Hk Hn Hne E Ha2 H. apply starts_with_spec in H.
  rewrite placeholder_shape in H.
  destruct a2 as [|h a2']; [contradiction|]. simpl in H. injection H as -> H.
  rewrite <- (app_nil_r (placeholder n)), placeholder_shape in E.
  destruct a1 as [|x1 [|x2 a1']]; simpl in E.
  - injection E as <-. simpl in H. injection H as H.
    rewrite <- app_assoc in H. simpl in H.
    apply brace_free_inj in H; auto.
  - injection E as _ <-. rewrite <- app_assoc in H. simpl in H.
    now apply brace_free_head in H.
  - injection E as _ _ E. apply (brace_free_closing n Hn).
    rewrite E. apply in_elt.
Qed.

(** A placeholder of [k] that begins before the placeholder of another name
    ends before it. *)
Lemma placeholder_before k n a2 post r :
  brace_free k -> brace_free n -> a2 <> [] ->
  starts_with (placeholder k) (a2 ++ placeholder n ++ post) = Some r ->
  exists r', starts_with (placeholder k) a2 = Some r'.
Proof.
  intros Hk Hn Ha2 H. apply starts_with_spec in H.
  apply app_eq_app in H. destruct H as [l [[H _]|[H1 H2]]].
  - exists l. now apply starts_with_spec.
  - destruct l as [|c l'].
    + exists []. apply starts_with_spec. now rewrite H1, !app_nil_r.
    + exfalso. rewrite placeholder_shape in H2. simpl in H2.
      injection H2 as <- H2.
      rewrite <- (app_nil_r (placeholder k)), placeholder_shape in H1.
      destruct a2 as [|y [|z a2'']]; [contradiction| |]; simpl in H1.
      * injection H1 as _ <-. rewrite <- app_assoc in H2. simpl in H2.
        symmetry in H2. now apply brace_free_head in H2.
      * injection H1 as _ _ H1. apply (brace_free_closing k Hk).
        rewrite H1. apply in_elt.
Qed.

Lemma str_replace_frame k n new pre post :
  brace_free k -> brace_free n -> n <> k ->
  str_replace (placeholder k) new (pre ++ placeholder n ++ post) =
  str_replace (placeholder k) new pre ++ placeholder n
    ++ str_replace (placeholder k) new post.
Proof.
  intros Hk Hn Hne. unfold str_replace.
  rewrite str_replace_from_app; [f_equal|lia|].
  - rewrite str_replace_from_app; [f_equal|lia|].
    + apply str_replace_no_match. intros a1 a2 E Ha2.
      destruct (starts_with (placeholder k) a2) as [r|] eqn:H; [|reflexivity].
      exfalso. rewrite <- (app_nil_r a2) in H.
      exact (placeholder_inside k n a1 a2 [] r Hk Hn Hne E Ha2 H).
    + intros a1 a2 r E Ha2 H. exfalso.
      exact (placeholder_inside k n a1 a2 post r Hk Hn Hne E Ha2 H).
  - intros a1 a2 r _ Ha2 H. exact (placeholder_before k n a2 post r Hk Hn Ha2 H).
Qed.

Lemma replace_field_frame k n value pre post :
  brace_free k -> brace_free n -> n <> k ->
  replace_field (pre ++ placeholder n ++ post) k value =
  (pre' <- replace_field pre k value ;;
   post' <- replace_field post k value ;;
   Ok (pre' ++ placeholder n ++ post')).
Proof.
  intros Hk Hn Hne. rewrite !replace_field_eq.
  destruct (Re.parse 0 value) as [t|e]; [|reflexivity].
  cbn [bind]. rewrite str_replace_frame by assumption. reflexivity.
Qed.

Lemma fold_replace_raise l e : fold_left replace_next l (Raise e) = Raise e.
Proof. induction l as [|kv l IH]; [reflexivity|exact IH]. Qed.

Lemma fold_replace_frame n l :
  brace_free n ->
  (forall kv, In kv l -> brace_free (fst kv) /\ n <> fst kv) ->
  forall pre post,
    fold_left replace_next l (Ok (pre ++ placeholder n ++ post)) =
    (pre' <- fold_left replace_next l (Ok pre) ;;
     post' <- fold_left replace_next l (Ok post) ;;
     Ok (pre' ++ placeholder n ++ post')).
Proof.
  intros Hn. induction l as [|[k v] l IH]; intros Hl pre post; [reflexivity|].
  destruct (Hl (k, v) (or_introl eq_refl)) as [Hk Hne]. simpl in Hk, Hne.
  cbn [fold_left]. unfold replace_next at 2 4 6. cbn [bind fst snd].
  rewrite !replace_field_eq.
  destruct (Re.parse 0 v) as [t|e]; cbn [bind].
  - rewrite str_replace_frame by assumption.
    apply IH. intros kv H. apply Hl. now right.
  - now rewrite !fold_replace_raise.
Qed.

(** C6 (amended).  For every content and every mapping whose keys contain no
    brace, a placeholder {{name}} whose name contains no brace and is not a
    key of the mapping stays as it is in the output: the text before it and
    the text after it are substituted as they would be on their own, and the
    call raises only if it raises on them.  In particular
    "Hi {{name}}, {{unknown}}" with {"name": "Ann"} yields
    "Hi Ann, {{unknown}}". *)
Theorem unknown_placeholder_kept :
  (forall meta_fields name pre post,
     brace_free name ->
     (forall k, In k (keys meta_fields) -> brace_free k) ->
     ~ In name (keys meta_fields) ->
     replace_fields (pre ++ placeholder name ++ post) meta_fields =
     (pre' <- replace_fields pre meta_fields ;;
      post' <- replace_fields post meta_fields ;;
      Ok (pre' ++ placeholder name ++ post'))) /\
  replace_fields (text "Hi {{name}}, {{unknown}}") [(text "name", text "Ann")]
    = Ok (text "Hi Ann, {{unknown}}").
Proof.
  split; [|vm_compute; reflexivity].
  intros meta_fields name pre post Hn Hkeys Hnot.
  rewrite !replace_fields_eq. apply fold_replace_frame; [exact Hn|].
  intros [k v] Hin.
  assert (Hk : In k (keys meta_fields)).
  { destruct (comprehension_keys strip meta_fields [] k) as [[]|H]; [|exact H].
    unfold keys. apply in_map_iff. now exists (k, v). }
  split; [now apply Hkeys|]. simpl. intros ->. contradiction.
Qed.

Lemma unknown_placeholder_kept_witness :
  replace_fields (text "Hi {{name}}, " ++ placeholder (text "unknown") ++ text "!")
                 [(text "name", text "Ann")] =
  (pre' <- replace_fields (text "Hi {{name}}, ") [(text "name", text "Ann")] ;;
   post' <- replace_fields (text "!") [(text "name", text "Ann")] ;;
   Ok (pre' ++ placeholder (text "unknown") ++ post')).
Proof.
  apply (proj1 unknown_placeholder_kept).
  - reflexivity.
  - intros k [<-|[]]. reflexivity.
  - intros [H|[]]. discriminate H.
Defined.

(** C6, as stated, fails where a brace occurs in a key or in a name: "a"
    and "b" are no keys of the mapping {"a}}{{b": "X"}, and yet their
    placeholders are replaced in "{{a}}{{b}}"; and "x{{k" is no key of
    {"k": "v"}, and yet its placeholder "{{x{{k}}" becomes "{{xv". *)
Lemma unknown_placeholder_counterexample :
  (~ In (text "a") (keys [(text "a}}{{b", text "X")]) /\
   replace_fields ([] ++ placeholder (text "a") ++ text "{{b}}")
                  [(text "a}}{{b", text "X")] = Ok (text "X") /\
   forall pre' post', text "X" <> pre' ++ placeholder (text "a") ++ post') /\
  (~ In (text "x{{k") (keys [(text "k", text "v")]) /\
   replace_fields ([] ++ placeholder (text "x{{k") ++ [])
                  [(text "k", text "v")] = Ok (text "{{xv") /\
   forall pre' post', text "{{xv" <> pre' ++ placeholder (text "x{{k") ++ post').
Proof.
  split; (split; [intros [H|[]]; discriminate H|]);
    (split; [vm_compute; reflexivity|]);
    intros pre' post' E; apply (f_equal (@length char)) in E;
    rewrite !length_app in E; simpl in E; lia.
Qed.

(** ** Loading a document set *)

Lemma dict_get_Some_keys {V} (d : dict V) k v : dict_get d k = Some v -> In k (keys d).
Proof.
  intro H. destruct (in_dec (list_eq_dec N.eq_dec) k (keys d)) as [Hin|Hn];
    [exact Hin|].
  apply dict_get_keys in Hn. congruence.
Qed.

Lemma In_dict_get {V} (d : dict V) k v :
  NoDup (keys d) -> In (k, v) d -> dict_get d k = Some v.
Proof.
  induction d as [|[k0 v0] d IH]; simpl; intros Hd H; [contradiction|].
  inversion Hd as [|? ? Hn Hd']; subst. destruct H as [H|H].
  - injection H as -> ->. now rewrite str_eqb_refl.
  - destruct (str_eqb k0 k) eqn:E; [|now apply IH].
    apply str_eqb_eq in E. subst k0. contradict Hn.
    unfold keys. apply in_map_iff. now exists (k, v).
Qed.

Lemma load_loop_spec files : forall docs,
  NoDup files ->
  (forall f, In f files -> has_content docs f = true) ->
  exists docs',
    load_loop files docs = (docs', None) /\
    keys docs' = keys docs /\
    (forall f, ~ In f files -> dict_get docs' f = dict_get docs f) /\
    (forall f doc c, In f files -> dict_get docs f = Some doc ->
                     content doc = Some c ->
                     dict_get docs' f = Some (load_doc doc c)).
Proof.
  induction files as [|file files IH]; intros docs Hnd Hc.
  - exists docs. split; [reflexivity|]. split; [reflexivity|].
    split; [reflexivity | intros f doc c []].
  - inversion Hnd as [|? ? Hfile Hnd']; subst.
    pose proof (Hc file (or_introl eq_refl)) as H0. unfold has_content in H0.
    destruct (dict_get docs file) as [doc|] eqn:Eg; [|discriminate].
    destruct (content doc) as [c|] eqn:Ec; [|discriminate]. clear H0.
    set (docs1 := dict_set docs file (load_doc doc c)).
    assert (G : forall f, f <> file -> dict_get docs1 f = dict_get docs f).
    { intros f Hf. unfold docs1. apply dict_get_set_other. congruence. }
    destruct (IH docs1 Hnd') as (docs' & Hrun & Hkeys & Hout & Hin).
    { intros f Hf. unfold has_content. rewrite G; [|congruence].
      apply (Hc f). now right. }
    exists docs'. split; [|split; [|split]].
    + cbn [load_loop]. rewrite Eg, Ec, extract_eq. exact Hrun.
    + rewrite Hkeys. unfold docs1. apply keys_set_present.
      now apply (dict_get_Some_keys docs file doc).
    + intros f Hf. rewrite Hout; [|intro; apply Hf; now right].
      apply G. intros ->. apply Hf. now left.
    + intros f doc' c' [<-|Hf] Hg Hc'.
      * rewrite (Hout file Hfile). unfold docs1. rewrite dict_get_set_same.
        congruence.
      * apply Hin; [exact Hf| |exact Hc']. rewrite G; [exact Hg|congruence].
Qed.

(** C8.  For a document set (its file keys are distinct, as in any dict)
    whose records all have a content,
    [load_meta_fields] returns normally, keeps the file keys, and leaves
    for every file the cleaned content and a meta mapping: the old one, or a
    new empty one where there was none, updated with the extracted fields.
    An extracted field overwrites an old entry of the same name; every other
    old entry keeps its value.  In particular meta {"author": "Bob"} with
    {{title:Doc}} in the content ends as {"author": "Bob", "title": "Doc"}. *)
Theorem load_merges_fields :
  (forall docs,
     NoDup (keys docs) ->
     (forall file doc, In (file, doc) docs -> content doc <> None) ->
     exists docs',
       load_meta_fields docs = (docs', None) /\
       keys docs' = keys docs /\
       forall file doc file_content,
         dict_get docs file = Some doc ->
         content doc = Some file_content ->
         exists meta_fields cleaned new_meta,
           extract_and_remove_meta_fields file_content = Ok (meta_fields, cleaned) /\
           dict_get docs' file
             = Some {| content := Some cleaned; meta := Some new_meta |} /\
           new_meta = dict_update (match meta doc with Some m => m | None => [] end)
                                  meta_fields /\
           forall k, dict_get new_meta k =
                     match dict_get meta_fields k, meta doc with
                     | Some v, _ => Some v
                     | None, Some m => dict_get m k
                     | None, None => None
                     end) /\
  load_meta_fields
    [(text "a.md", {| content := Some (text "{{title:Doc}} Text");
                      meta := Some [(text "author", text "Bob")] |})]
  = ([(text "a.md", {| content := Some (text "Text");
                       meta := Some [(text "author", text "Bob");
                                     (text "title", text "Doc")] |})], None).
Proof.
  split; [|vm_compute; reflexivity].
  intros docs Hnd Hc. unfold load_meta_fields.
  destruct (load_loop_spec (keys docs) docs Hnd) as (docs' & Hrun & Hkeys & _ & Hin).
  { intros f Hf. unfold keys in Hf. apply in_map_iff in Hf.
    destruct Hf as [[f' doc] [<- Hf]]. unfold has_content. simpl.
    rewrite (In_dict_get docs f' doc Hnd Hf).
    specialize (Hc f' doc Hf). now destruct (content doc). }
  exists docs'. split; [exact Hrun|]. split; [exact Hkeys|].
  intros file doc c Hg Hcont. eexists _, _, _.
  split; [apply extract_eq|]. split; [|split; [reflexivity|]].
  - apply (Hin file doc c); [|exact Hg|exact Hcont].
    now apply (dict_get_Some_keys docs file doc).
  - intro k. rewrite dict_get_update.
    + destruct (dict_get _ k); [reflexivity|]. now destruct (meta doc).
    + apply add_field_NoDup. constructor.
Qed.

Lemma load_merges_fields_witness :
  exists docs',
    load_meta_fields
      [(text "a", {| content := Some (text "{{t:1}} A"); meta := None |});
       (text "b", {| content := Some (text "B {{t:2}}");
                     meta := Some [(text "t", text "0"); (text "u", text "9")] |})]
    = (docs', None) /\
    dict_get docs' (text "a")
      = Some {| content := Some (text "A"); meta := Some [(text "t", text "1")] |} /\
    dict_get docs' (text "b")
      = Some {| content := Some (text "B");
                meta := Some [(text "t", text "2"); (text "u", text "9")] |}.
Proof.
  destruct (proj1 load_merges_fields
              [(text "a", {| content := Some (text "{{t:1}} A"); meta := None |});
               (text "b", {| content := Some (text "B {{t:2}}");
                             meta := Some [(text "t", text "0");
                                           (text "u", text "9")] |})])
    as (docs' & Hrun & _ & Hdocs).
  - repeat constructor; cbn; intuition discriminate.
  - intros file doc [H|[H|[]]]; injection H as _ <-; discriminate.
  - exists docs'. split; [exact Hrun|]. split.
    + destruct (Hdocs (text "a") _ (text "{{t:1}} A") eq_refl eq_refl)
        as (mf & cl & nm & He & Hg & Hn & _).
      rewrite extract_eq in He. injection He as <- <-. subst nm. exact Hg.
    + destruct (Hdocs (text "b") _ (text "B {{t:2}}") eq_refl eq_refl)
        as (mf & cl & nm & He & Hg & Hn & _).
      rewrite extract_eq in He. injection He as <- <-. subst nm. exact Hg.
Defined.

Lemma forallb_ext_in {A} (f g : A -> bool) l :
  (forall x, In x l -> f x = g x) -> forallb f l = forallb g l.
Proof.
  induction l as [|x l IH]; simpl; intro H; [reflexivity|].
  rewrite (H x (or_introl eq_refl)), IH; [reflexivity|].
  intros y Hy. apply H. now right.
Qed.

Lemma forallb_false {A} (f : A -> bool) l :
  forallb f l = false -> exists x, In x l /\ f x = false.
Proof.
  induction l as [|x l IH]; simpl; [discriminate|]. intro H.
  destruct (f x) eqn:E.
  - destruct (IH H) as (y & Hy & Hf). exists y. split; [now right|exact Hf].
  - exists x. split; [now left|exact E].
Qed.

(** The loop fails, with a [KeyError], exactly when it meets a record
    without content. *)
Lemma load_loop_outcome files : forall docs,
  NoDup files ->
  (forall f, In f files -> In f (keys docs)) ->
  snd (load_loop files docs) =
  if forallb (has_content docs) files then None else Some KeyError.
Proof.
  induction files as [|file files IH]; intros docs Hnd Hk; [reflexivity|].
  inversion Hnd as [|? ? Hfile Hnd']; subst.
  cbn [load_loop forallb]. unfold has_content at 1.
  destruct (dict_get docs file) as [doc|] eqn:Eg.
  2:{ apply dict_get_keys in Eg. contradict Eg. apply Hk. now left. }
  destruct (content doc) as [c|] eqn:Ec; [|reflexivity].
  rewrite extract_eq. cbn [andb].
  set (docs1 := dict_set docs file (load_doc doc c)).
  assert (Hkeys : keys docs1 = keys docs).
  { apply keys_set_present, (dict_get_Some_keys docs file doc Eg). }
  change (snd (load_loop files docs1) =
          if forallb (has_content docs) files then None else Some KeyError).
  rewrite (IH docs1 Hnd').
  - rewrite (forallb_ext_in (has_content docs1) (has_content docs)); [reflexivity|].
    intros f Hf. unfold has_content, docs1. rewrite dict_get_set_other; [reflexivity|].
    intros ->. contradiction.
  - intros f Hf. rewrite Hkeys. apply Hk. now right.
Qed.

(** X17.  For a document set (distinct file keys) [load_meta_fields] raises
    [KeyError] exactly when some record lacks its content, and returns
    normally exactly when every record has one. *)
Lemma load_meta_fields_outcome docs :
  NoDup (keys docs) ->
  (snd (load_meta_fields docs) = Some KeyError <->
   exists file doc, In (file, doc) docs /\ content doc = None) /\
  (snd (load_meta_fields docs) = None <->
   forall file doc, In (file, doc) docs -> content doc <> None).
Proof.
  intro Hnd. unfold load_meta_fields.
  rewrite (load_loop_outcome (keys docs) docs Hnd (fun f H => H)).
  assert (A : forallb (has_content docs) (keys docs) = true <->
              forall file doc, In (file, doc) docs -> content doc <> None).
  { rewrite forallb_forall. split.
    - intros H file doc Hin. specialize (H file).
      unfold has_content in H. rewrite (In_dict_get docs file doc Hnd Hin) in H.
      destruct (content doc); [discriminate|]. discriminate H.
      unfold keys. apply in_map_iff. now exists (file, doc).
    - intros H file Hin. unfold keys in Hin. apply in_map_iff in Hin.
      destruct Hin as [[f doc] [<- Hin]]. unfold has_content. simpl.
      rewrite (In_dict_get docs f doc Hnd Hin).
      specialize (H f doc Hin). now destruct (content doc). }
  destruct (forallb (has_content docs) (keys docs)) eqn:E; split; split.
  - discriminate.
  - intros (file & doc & Hin & Hc). exfalso.
    exact (proj1 A eq_refl file doc Hin Hc).
  - intros _. now apply A.
  - reflexivity.
  - intros _. destruct (forallb_false _ _ E) as (file & Hin & Hf).
    unfold keys in Hin. apply in_map_iff in Hin.
    destruct Hin as [[f doc] [<- Hin]]. exists f, doc. split; [exact Hin|].
    unfold has_content in Hf. simpl in Hf.
    rewrite (In_dict_get docs f doc Hnd Hin) in Hf.
    now destruct (content doc).
  - reflexivity.
  - discriminate.
  - intro H. apply A in H. discriminate H.
Qed.

(** The template parser looks nothing up in a dict. *)
Lemma lit_not_KeyError c r :
  r <> Raise KeyError -> Re.lit c r <> Raise KeyError.
Proof. destruct r as [t|e]; cbn; congruence. Qed.

Lemma add_group_not_KeyError groups index r :
  r <> Raise KeyError -> Re.add_group groups index r <> Raise KeyError.
Proof.
  unfold Re.add_group. destruct (index <=? N.of_nat groups); [|discriminate].
  destruct r as [t|e]; cbn; congruence.
Qed.

Lemma group_index_not_KeyError name : Re.group_index name <> Raise KeyError.
Proof.
  unfold Re.group_index. destruct (isidentifier name); [discriminate|].
  destruct (int name) as [index|]; [|discriminate].
  destruct (index <? 0)%Z; discriminate.
Qed.

Lemma parse_not_KeyError_upto groups : forall n s,
  (length s <= n)%nat -> Re.parse groups s <> Raise KeyError.
Proof.
  induction n as [|n IH]; intros s Hn.
  { destruct s; [discriminate|simpl in Hn; lia]. }
  destruct s as [|c s1]; [discriminate|]. simpl in Hn.
  cbn [Re.parse]. destruct (negb (c =? BACKSLASH)).
  { apply lit_not_KeyError, IH. lia. }
  destruct s1 as [|e s2]; [discriminate|]. simpl in Hn.
  destruct (e =? ord "g").
  { destruct s2 as [|lt s3]; [discriminate|]. simpl in Hn.
    destruct (lt =? ord "<"); [|discriminate].
    assert (Hs3 : (length s3 <= n)%nat) by lia. clear Hn.
    match goal with
    | |- ?name [] s3 <> _ =>
        enough (G : forall acc, name acc s3 <> Raise KeyError) by apply G
    end.
    induction s3 as [|x t' IHt]; intro acc; [discriminate|].
    simpl in Hs3. cbn beta iota fix.
    destruct (x =? BACKSLASH); [discriminate|].
    destruct (x =? ord ">"); [|apply IHt; lia].
    destruct acc as [|a acc]; [discriminate|].
    destruct (str_eqb t' [BACKSLASH]); [discriminate|].
    pose proof (group_index_not_KeyError (a :: acc)) as G.
    destruct (Re.group_index (a :: acc)) as [index|e0];
      cbn [bind]; [|congruence].
    apply add_group_not_KeyError, IH. lia. }
  destruct (e =? ord "0").
  { destruct s2 as [|d1 s3]; [apply lit_not_KeyError, IH; simpl; lia|].
    simpl in Hn. destruct (Re.is_octdigit d1).
    - destruct s3 as [|d2 s4]; [apply lit_not_KeyError, IH; simpl; lia|].
      simpl in Hn.
      destruct (Re.is_octdigit d2); apply lit_not_KeyError, IH; simpl; lia.
    - apply lit_not_KeyError, IH; simpl; lia. }
  destruct (Re.is_digit e).
  { destruct s2 as [|d1 s3]; [apply add_group_not_KeyError, IH; simpl; lia|].
    simpl in Hn. destruct (Re.is_digit d1).
    - destruct s3 as [|d2 s4]; [apply add_group_not_KeyError, IH; simpl; lia|].
      simpl in Hn.
      destruct (Re.is_octdigit e && Re.is_octdigit d1 && Re.is_octdigit d2).
      + cbv zeta.
        destruct (255 <? 64 * Re.digit e + 8 * Re.digit d1 + Re.digit d2);
          [discriminate|]. apply lit_not_KeyError, IH. lia.
      + apply add_group_not_KeyError, IH; simpl; lia.
    - apply add_group_not_KeyError, IH; simpl; lia. }
  destruct (Re.escapes e) as [c'|].
  { apply lit_not_KeyError, IH. lia. }
  destruct (Re.is_ascii_letter e); [discriminate|].
  apply lit_not_KeyError, lit_not_KeyError, IH. lia.
Qed.

Lemma parse_not_KeyError groups s : Re.parse groups s <> Raise KeyError.
Proof. exact (parse_not_KeyError_upto groups (length s) s (le_n _)). Qed.

Lemma replace_field_not_KeyError content fieldname value :
  replace_field content fieldname value <> Raise KeyError.
Proof.
  rewrite replace_field_eq.
  pose proof (parse_not_KeyError 0 value) as H.
  destruct (Re.parse 0 value) as [t|e]; cbn [bind]; [discriminate|congruence].
Qed.

Lemma fold_replace_error l : forall acc,
  acc <> Raise KeyError -> fold_left replace_next l acc <> Raise KeyError.
Proof.
  induction l as [|[k v] l IH]; intros acc Hacc; simpl; [exact Hacc|].
  apply IH. destruct acc as [c|e0]; cbn [replace_next bind fst snd].
  - apply replace_field_not_KeyError.
  - exact Hacc.
Qed.

(** [replace_fields] looks nothing up: it raises no [KeyError]. *)
Lemma replace_fields_raise content meta_fields :
  replace_fields content meta_fields <> Raise KeyError.
Proof.
  rewrite replace_fields_eq. apply fold_replace_error. discriminate.
Qed.

(** X18.  [replace_meta_fields] fails with a [KeyError] exactly when the
    store has no record with a meta mapping under the file key, whatever
    the content and the values of the mapping. *)
Lemma replace_meta_fields_lookup content file docs :
  replace_meta_fields content file docs = Raise KeyError <->
  ~ exists doc m, dict_get docs file = Some doc /\ meta doc = Some m.
Proof.
  unfold replace_meta_fields.
  destruct (dict_get docs file) as [doc|];
    [|split; [intros _ (doc & m & H & _); discriminate H|reflexivity]].
  destruct (meta doc) as [m|] eqn:Em.
  - split.
    + intro H. now apply replace_fields_raise in H.
    + intro H. contradict H. now exists doc, m.
  - split; [|reflexivity]. intros _ (doc' & m & [= <-] & H). congruence.
Qed.

(** C9.  [load_meta_fields] fails, with a [KeyError], exactly when a record
    lacks its content ([load_meta_fields_outcome]), and a [KeyError] of
    [replace_meta_fields] means that the store has no meta mapping for the
    file ([replace_meta_fields_lookup]).  But [replace_meta_fields] does not
    succeed in all other cases: the document "{{path:C:\dir}}See {{path}}."
    is loaded without error, its record has the meta mapping
    {"path": "C:\dir"}, and the substitution into its cleaned content raises
    [re.error], the value being read as a replacement template. *)
Theorem replace_meta_fields_bad_template :
  exists docs',
    load_meta_fields
      [(text "a.md", {| content := Some (text "{{path:C:\dir}}See {{path}}.");
                        meta := None |})]
    = (docs', None) /\
    dict_get docs' (text "a.md")
    = Some {| content := Some (text "See {{path}}.");
              meta := Some [(text "path", text "C:\dir")] |} /\
    replace_meta_fields (text "See {{path}}.") (text "a.md") docs'
    = Raise ReError.
Proof.
  eexists. split; [vm_compute; reflexivity|].
  split; vm_compute; reflexivity.
Qed.

(** * Further properties of the module *)

(** ** Extraction *)

Lemma scan_render segs : forall rest,
  Forall seg_ok segs ->
  Re.scan pattern 0 (render segs ++ rest) =
  flat_map (fun sg => match sg with
                      | Plain t => map Re.Text t
                      | Field name value => [Re.Hit (marker name value) [name; value]]
                      end) segs
  ++ Re.scan pattern 0 rest.
Proof.
  induction segs as [|sg segs IH]; intros rest H; [reflexivity|].
  inversion H as [|? ? Hsg Hsegs]; subst.
  cbn [render flat_map]. fold (render segs). rewrite <- !app_assoc.
  destruct sg as [t|name value]; simpl in Hsg.
  - now rewrite (scan_plain t _ Hsg), (IH rest Hsegs).
  - destruct Hsg as [Hn Hv].
    now rewrite (scan_marker name value _ Hn Hv), (IH rest Hsegs).
Qed.

(** X1.  On a content made of markers and of text without opening brace,
    [extract_and_remove_meta_fields] finds exactly the markers, in their
    order, assigns them into the mapping one after the other, and returns
    the text between them, joined and trimmed. *)
Theorem extract_segments segs :
  Forall seg_ok segs ->
  Re.findall pattern (render segs) = fields_of segs /\
  extract_and_remove_meta_fields (render segs) =
  Ok (meta_dict_of (fields_of segs), strip (text_of segs)).
Proof.
  intro H. pose proof (scan_render segs [] H) as E. rewrite app_nil_r in E.
  assert (F : Re.findall pattern (render segs) = fields_of segs).
  { unfold Re.findall. rewrite E. cbn [Re.scan]. rewrite app_nil_r.
    clear. induction segs as [|[t|n v] segs IH]; [reflexivity| |].
    - cbn [flat_map fields_of]. rewrite hits_app, hits_text. exact IH.
    - cbn [flat_map fields_of app]. rewrite hits_hit. f_equal. exact IH. }
  split; [exact F|]. rewrite extract_eq, F, E. do 3 f_equal.
  cbn [Re.scan]. rewrite app_nil_r.
  clear. induction segs as [|[t|n v] segs IH]; [reflexivity| |].
  - cbn [flat_map text_of]. rewrite rebuild_app, rebuild_text. now f_equal.
  - cbn [flat_map text_of app]. rewrite rebuild_hit. exact IH.
Qed.

Lemma extract_segments_witness :
  extract_and_remove_meta_fields
    (render [Plain (text " Title: "); Field (text "title") (text " Hello ");
             Plain (text " body "); Field (text "draft") (text "yes")]) =
  Ok ([(text "title", text "Hello"); (text "draft", text "yes")],
      text "Title:  body").
Proof.
  refine (proj2 (extract_segments
            [Plain (text " Title: "); Field (text "title") (text " Hello ");
             Plain (text " body "); Field (text "draft") (text "yes")] _)).
  repeat constructor; try discriminate; reflexivity.
Defined.

Lemma In_keys_get {V} (d : dict V) k : In k (keys d) <-> dict_get d k <> None.
Proof.
  split.
  - intros H E. apply dict_get_keys in E. contradiction.
  - intro H. destruct (dict_get d k) as [v|] eqn:E; [|contradiction].
    now apply (dict_get_Some_keys d k v).
Qed.

Lemma keys_dict_set_iff {V} (d : dict V) k v k' :
  In k' (keys (dict_set d k v)) <-> k' = k \/ In k' (keys d).
Proof.
  split; [apply keys_dict_set|]. rewrite !In_keys_get, dict_get_set.
  intros [->|H].
  - now rewrite str_eqb_refl.
  - now destruct (str_eqb k k').
Qed.

Lemma add_field_keys l : forall d k,
  In k (keys (fold_left add_field l d)) <->
  In k (keys d) \/ exists f v, In [f; v] l /\ strip f = k.
Proof.
  induction l as [|gs l IH]; intros d k; simpl.
  - split; [now left|]. intros [H|(f & v & [] & _)]. exact H.
  - rewrite IH. split.
    + intros [H|(f & v & H & E)]; [|right; exists f, v; split; [now right|exact E]].
      destruct gs as [|f [|v [|]]]; simpl in H; try (now left).
      apply keys_dict_set_iff in H. destruct H as [->|H]; [|now left].
      right. exists f, v. split; [now left|reflexivity].
    + intros [H|(f & v & [->|H] & E)].
      * left. destruct gs as [|f [|v [|]]]; simpl; try exact H.
        apply keys_dict_set_iff. now right.
      * left. simpl. apply keys_dict_set_iff. now left.
      * right. now exists f, v.
Qed.

(** X2.  The keys of the extracted mapping are exactly the names of the
    markers found in the content, each of them once. *)
Theorem extracted_keys content :
  exists meta_dict cleaned,
    extract_and_remove_meta_fields content = Ok (meta_dict, cleaned) /\
    NoDup (keys meta_dict) /\
    forall k, In k (keys meta_dict) <->
              exists value, In [k; value] (Re.findall pattern content).
Proof.
  eexists _, _. split; [apply extract_eq|]. split.
  - apply add_field_NoDup. constructor.
  - intro k. unfold meta_dict_of. rewrite add_field_keys. split.
    + intros [[]|(f & v & H & E)].
      destruct (findall_marker _ _ H) as (n & v' & [= -> ->] & [_ Hn] & _).
      rewrite (strip_name n Hn) in E. subst k. now exists v'.
    + intros (value & H). right. exists k, value. split; [exact H|].
      destruct (findall_marker _ _ H) as (n & v' & [= -> ->] & [_ Hn] & _).
      now apply strip_name.
Qed.

Lemma subseq_refl s : subseq s s.
Proof. induction s; constructor; assumption. Qed.

Lemma subseq_trans b c : subseq b c -> forall a, subseq a b -> subseq a c.
Proof.
  induction 1 as [|x b c _ IH|x b c _ IH]; intros a Ha.
  - exact Ha.
  - inversion Ha; subst; constructor; now apply IH.
  - constructor. now apply IH.
Qed.

Lemma subseq_lstrip s : subseq (lstrip s) s.
Proof.
  induction s as [|c s IH]; simpl; [constructor|].
  destruct (Unicode.isspace c); [now constructor|apply subseq_refl].
Qed.

Lemma subseq_rstrip s : subseq (rstrip s) s.
Proof.
  induction s as [|c s IH]; simpl; [constructor|].
  destruct (rstrip s) as [|y r].
  - destruct (Unicode.isspace c); constructor; exact IH.
  - constructor. exact IH.
Qed.

Lemma subseq_strip s : subseq (strip s) s.
Proof.
  unfold strip. apply (subseq_trans (lstrip s) s (subseq_lstrip s)).
  apply subseq_rstrip.
Qed.

(** With an empty replacement [re.sub] only leaves characters out. *)
Lemma subseq_scan p s : forall skip,
  subseq (Re.rebuild [] (Re.scan p skip s)) s.
Proof.
  induction s as [|x s IH]; intros skip.
  - cbn [Re.scan]. destruct skip; [|constructor].
    destruct (Re.match_here p []) as [[[m gs] r]|]; constructor.
  - destruct skip as [|k]; [|cbn [Re.scan]; constructor; apply IH].
    rewrite scan_cons.
    destruct (Re.match_here p (x :: s)) as [[[m gs] r]|].
    + destruct m as [|y m'].
      * rewrite rebuild_hit, rebuild_text1. cbn. constructor. apply IH.
      * rewrite rebuild_hit. cbn. constructor. apply IH.
    + rewrite rebuild_text1. constructor. apply IH.
Qed.

(** X3.  The cleaned content is the input with characters left out, never
    with a character added, changed or moved, and it neither starts nor ends
    with white space. *)
Theorem cleaned_content_shape content :
  exists meta_dict cleaned,
    extract_and_remove_meta_fields content = Ok (meta_dict, cleaned) /\
    subseq cleaned content /\
    (forall c r, cleaned = c :: r -> Unicode.isspace c = false) /\
    (forall a c, cleaned = a ++ [c] -> Unicode.isspace c = false).
Proof.
  eexists _, _. split; [apply extract_eq|]. split; [|split].
  - apply (subseq_trans _ content (subseq_scan pattern content 0)).
    apply subseq_strip.
  - intros c r E. exact (strip_head _ c r E).
  - intros a c E. exact (strip_last _ a c E).
Qed.

(** ** Substitution of one field *)

(** X5.  Whatever characters a field name holds, operators of regular
    expressions included, the pattern that [replace_field] builds with
    [re.escape] compiles, has no group, and matches a string exactly when
    the string starts with the placeholder of the name, which is then the
    text matched. *)
Theorem escaped_placeholder fieldname :
  exists p,
    Re.compile (Re.escape (text "{{" ++ fieldname ++ text "}}")) = Some p /\
    Re.groups p = 0%nat /\
    forall s m gs r,
      Re.match_here p s = Some (m, gs, r) <->
      m = placeholder fieldname /\ gs = [] /\ s = placeholder fieldname ++ r.
Proof.
  fold (placeholder fieldname). exists (map Re.Literal (placeholder fieldname)).
  split; [apply compile_escape|]. split; [apply groups_literal|].
  intros s m gs r. rewrite match_here_literal.
  destruct (starts_with (placeholder fieldname) s) as [r'|] eqn:E; cbn [option_map].
  - apply starts_with_spec in E. split.
    + intros [= <- <- <-]. now repeat split.
    + intros (-> & -> & H). rewrite H in E. apply app_inv_head in E. now subst.
  - split; [discriminate|]. intros (_ & _ & H).
    apply starts_with_spec in H. congruence.
Qed.

Lemma parse_prefix groups v w :
  no_backslash v ->
  Re.parse groups (v ++ w) =
  (t <- Re.parse groups w ;; Ok (map Re.TLit v ++ t)).
Proof.
  unfold no_backslash. induction v as [|c v IH]; intro H.
  - cbn [app map]. now destruct (Re.parse groups w).
  - cbn [forallb] in H. apply andb_true_iff in H. destruct H as [Hc Hv].
    cbn [app map Re.parse]. rewrite Hc, (IH Hv).
    now destruct (Re.parse groups w).
Qed.

Lemma ascii_letter_not_digit e :
  Re.is_ascii_letter e = true -> (e =? ord "0") = false /\ Re.is_digit e = false.
Proof.
  unfold Re.is_ascii_letter, Re.is_digit, in_ranges, in_range. cbn.
  intro H. split.
  - apply N.eqb_neq. intros ->. discriminate H.
  - destruct (e <=? 57) eqn:E; [|now rewrite andb_false_r].
    apply N.leb_le in E.
    assert (F1 : (65 <=? e) = false) by (apply N.leb_gt; lia).
    assert (F2 : (97 <=? e) = false) by (apply N.leb_gt; lia).
    rewrite F1, F2 in H. discriminate H.
Qed.

Lemma parse_bad_escape groups e w :
  Re.is_ascii_letter e = true -> Re.escapes e = None -> e <> ord "g" ->
  Re.parse groups (BACKSLASH :: e :: w) = Raise ReError.
Proof.
  intros Hl He Hg. destruct (ascii_letter_not_digit e Hl) as [H0 Hd].
  apply N.eqb_neq in Hg.
  cbn [Re.parse]. rewrite N.eqb_refl. cbn [negb].
  now rewrite Hg, H0, Hd, He, Hl.
Qed.

Lemma xid_continue_name_char c :
  Unicode.xid_continue c = true -> name_char c = true.
Proof.
  intro H. unfold name_char.
  destruct (c =? BACKSLASH) eqn:E1.
  { apply N.eqb_eq in E1. subst c. vm_compute in H. discriminate H. }
  destruct (c =? ord ">") eqn:E2; [|reflexivity].
  apply N.eqb_eq in E2. subst c. vm_compute in H. discriminate H.
Qed.

Lemma xid_start_name_char c :
  Unicode.xid_start c || (c =? UNDERSCORE) = true -> name_char c = true.
Proof.
  intro H. unfold name_char.
  destruct (c =? BACKSLASH) eqn:E1.
  { apply N.eqb_eq in E1. subst c. vm_compute in H. discriminate H. }
  destruct (c =? ord ">") eqn:E2; [|reflexivity].
  apply N.eqb_eq in E2. subst c. vm_compute in H. discriminate H.
Qed.

Lemma isidentifier_name name :
  isidentifier name = true -> name <> [] /\ forallb name_char name = true.
Proof.
  destruct name as [|c name]; [discriminate|]. cbn [isidentifier forallb].
  intro H. apply andb_true_iff in H. destruct H as [Hc Hn].
  split; [discriminate|]. rewrite (xid_start_name_char c Hc). cbn [andb].
  apply forallb_forall. intros x Hx. apply xid_continue_name_char.
  exact (proj1 (forallb_forall _ _) Hn x Hx).
Qed.

(** The name of \g<name> is read up to the closing bracket; a backslash
    that ends the template right after it is reported first. *)
Lemma parse_group_name groups name w :
  name <> [] -> forallb name_char name = true ->
  Re.parse groups (text "\g<" ++ name ++ ord ">" :: w) =
  if str_eqb w [BACKSLASH] then Raise ReError
  else index <- Re.group_index name ;;
       Re.add_group groups index (Re.parse groups w).
Proof.
  intros Hne Hn. change (text "\g<") with [BACKSLASH; ord "g"; ord "<"].
  cbn [app Re.parse]. rewrite N.eqb_refl. cbn [negb]. rewrite !N.eqb_refl.
  match goal with
  | |- ?loop [] _ = _ =>
      enough (G : forall t acc,
                 acc ++ t <> [] -> forallb name_char t = true ->
                 loop acc (t ++ ord ">" :: w) =
                 if str_eqb w [BACKSLASH] then Raise ReError
                 else index <- Re.group_index (acc ++ t) ;;
                      Re.add_group groups index (Re.parse groups w))
        by (apply (G name []); assumption)
  end.
  induction t as [|x t IH]; intros acc Hacc Ht.
  - cbn [app]. cbn beta iota fix.
    change (ord ">" =? BACKSLASH) with false. rewrite N.eqb_refl. cbv iota.
    rewrite app_nil_r in *. destruct acc as [|a acc]; [contradiction|].
    reflexivity.
  - cbn [forallb] in Ht. apply andb_true_iff in Ht. destruct Ht as [Hx Ht].
    unfold name_char in Hx. apply andb_true_iff in Hx. destruct Hx as [Hx1 Hx2].
    apply negb_true_iff in Hx1, Hx2.
    cbn [app]. cbn beta iota fix. rewrite Hx1, Hx2.
    rewrite (IH (acc ++ [x])).
    + now rewrite <- app_assoc.
    + rewrite <- app_assoc. now destruct acc.
    + exact Ht.
Qed.

(** X6.  A call of [replace_field] fails only on account of the value, read
    as a replacement template: if it raises an exception for one content
    and field name it raises the same exception for every content and field
    name, the placeholder occurring or not, and the exception is no
    [KeyError].  The exception is [re.error] for every value that ends with
    a backslash after text without backslash, and for every value in which
    the first backslash is followed by an ASCII letter other than
    a, b, f, g, n, r, t, v.  It is [IndexError] for every value in which the
    first backslash begins \g<name> with an identifier as the name, unless a
    single backslash is all that follows the closing bracket; then it is
    [re.error]. *)
Theorem replace_field_failure :
  (forall content fieldname value e,
     replace_field content fieldname value = Raise e ->
     e <> KeyError /\
     forall content' fieldname',
       replace_field content' fieldname' value = Raise e) /\
  (forall content fieldname v,
     no_backslash v ->
     replace_field content fieldname (v ++ [BACKSLASH]) = Raise ReError) /\
  (forall content fieldname v e w,
     no_backslash v ->
     Re.is_ascii_letter e = true -> Re.escapes e = None -> e <> ord "g" ->
     replace_field content fieldname (v ++ BACKSLASH :: e :: w) = Raise ReError) /\
  (forall content fieldname v name w,
     no_backslash v -> isidentifier name = true ->
     replace_field content fieldname (v ++ text "\g<" ++ name ++ text ">" ++ w)
     = Raise (if str_eqb w [BACKSLASH] then ReError else IndexError)).
Proof.
  split; [|split; [|split]].
  - intros content fieldname value e H. split.
    + intros ->. exact (replace_field_not_KeyError _ _ _ H).
    + revert H. rewrite replace_field_eq.
      destruct (Re.parse 0 value) as [t|e0] eqn:E; [discriminate|].
      cbn [bind]. intros [= <-] content' fieldname'.
      now rewrite replace_field_eq, E.
  - intros content fieldname v Hv.
    now rewrite replace_field_eq, (parse_prefix 0 v _ Hv).
  - intros content fieldname v e w Hv Hl He Hg.
    rewrite replace_field_eq, (parse_prefix 0 v _ Hv).
    now rewrite (parse_bad_escape 0 e w Hl He Hg).
  - intros content fieldname v name w Hv Hn.
    destruct (isidentifier_name name Hn) as [Hne Hc].
    rewrite replace_field_eq, (parse_prefix 0 v _ Hv).
    change (text ">" ++ w) with (ord ">" :: w).
    rewrite (parse_group_name 0 name w Hne Hc).
    destruct (str_eqb w [BACKSLASH]); [reflexivity|].
    unfold Re.group_index. now rewrite Hn.
Qed.

Lemma replace_field_failure_witness :
  replace_field (text "no placeholder here") (text "p") (text "50%\")
    = Raise ReError /\
  replace_field [] (text "p") (text "C:\Users\me") = Raise ReError /\
  replace_field (text "{{p}}") (text "p") (text "see \g<title>") = Raise IndexError.
Proof.
  split; [|split].
  - apply (proj1 (proj2 replace_field_failure) _ _ (text "50%")). reflexivity.
  - apply (proj1 (proj2 (proj2 replace_field_failure)) _ _ (text "C:") (ord "U")
             (text "sers\me")); [reflexivity|reflexivity|reflexivity|discriminate].
  - apply (proj2 (proj2 (proj2 replace_field_failure)) (text "{{p}}") (text "p")
             (text "see ") (text "title") []); reflexivity.
Defined.

Lemma not_occurs_no_match old s :
  ~ occurs old s ->
  forall a1 a2, s = a1 ++ a2 -> a2 <> [] -> starts_with old a2 = None.
Proof.
  intros H a1 a2 E _. destruct (starts_with old a2) as [r|] eqn:F; [|reflexivity].
  apply starts_with_spec in F. contradict H. exists a1, r. now rewrite E, F.
Qed.

(** X7.  When the placeholder of the field does not occur in the content and
    the value is a well-formed template, [replace_field] returns the content
    unchanged. *)
Theorem replace_field_absent content fieldname value :
  ~ occurs (placeholder fieldname) content ->
  Re.parse_template 0 value <> None ->
  replace_field content fieldname value = Ok content.
Proof.
  intros Hno Hv. rewrite replace_field_eq.
  destruct (parse_template_Some 0 value Hv) as [t ->]. cbn [bind].
  unfold str_replace. f_equal. apply str_replace_no_match.
  now apply not_occurs_no_match.
Qed.

Lemma occursb_spec old s : occursb old s = true <-> occurs old s.
Proof.
  induction s as [|x s IH].
  - cbn [occursb]. destruct (starts_with old []) as [r|] eqn:E.
    + split; [|reflexivity]. intros _. apply starts_with_spec in E.
      exists [], r. exact E.
    + split; [discriminate|]. intros (a & b & H).
      destruct a; [|discriminate]. cbn [app] in H.
      rewrite H, starts_with_app in E. discriminate.
  - cbn [occursb]. destruct (starts_with old (x :: s)) as [r|] eqn:E.
    + split; [|reflexivity]. intros _. apply starts_with_spec in E.
      exists [], r. exact E.
    + rewrite IH. split.
      * intros (a & b & ->). now exists (x :: a), b.
      * intros (a & b & H). destruct a as [|y a].
        -- cbn [app] in H. rewrite H, starts_with_app in E. discriminate.
        -- injection H as _ ->. now exists a, b.
Qed.

Lemma replace_field_absent_witness :
  replace_field (text "Hi {{name}}, {name}") (text "nam") (text "\g<0>!") =
  Ok (text "Hi {{name}}, {name}").
Proof.
  apply replace_field_absent.
  - intro H. apply occursb_spec in H. vm_compute in H. discriminate H.
  - discriminate.
Defined.

Lemma str_replace_skip old new a rest :
  str_replace_from old new (length a) (a ++ rest) = str_replace_from old new 0 rest.
Proof. induction a as [|x a IH]; [reflexivity|exact IH]. Qed.

Lemma str_replace_replaced old new :
  old <> [] -> forall s, replaced old new s (str_replace old new s).
Proof.
  intros Hold s. unfold str_replace.
  remember (length s) as n eqn:En. revert s En.
  induction n as [n IH] using (well_founded_induction Wf_nat.lt_wf).
  intros [|x s] En; [constructor|]. cbn [str_replace_from].
  destruct (starts_with old (x :: s)) as [r|] eqn:E.
  - pose proof E as E'. apply starts_with_spec in E'.
    destruct old as [|o old']; [contradiction|].
    cbn [app] in E'. injection E' as -> ->.
    replace (length (o :: old') - 1)%nat with (length old') by (simpl; lia).
    rewrite str_replace_skip.
    apply (replaced_here (o :: old') new r). apply (IH (length r)); [|reflexivity].
    subst n. simpl. rewrite length_app. lia.
  - apply replaced_copy; [exact E|]. apply (IH (length s)); [|reflexivity].
    subst n. simpl. lia.
Qed.

(** X4.  For a value without backslash [replace_field] returns normally, and
    its result is the content in which every occurrence of the placeholder,
    read from left to right, is replaced by the value and every other
    character is kept. *)
Theorem replace_field_literal content fieldname value :
  no_backslash value ->
  exists out,
    replace_field content fieldname value = Ok out /\
    replaced (placeholder fieldname) value content out.
Proof.
  intro H. exists (str_replace (placeholder fieldname) value content).
  split.
  - rewrite replace_field_eq, (parse_plain 0 value H).
    cbn [bind]. now rewrite expand_plain.
  - apply str_replace_replaced, placeholder_nonempty.
Qed.

Lemma replace_field_literal_witness :
  exists out,
    replace_field (text "a.b {{x.y}} {{xzy}}") (text "x.y") (text "1+1") = Ok out /\
    replaced (placeholder (text "x.y")) (text "1+1")
             (text "a.b {{x.y}} {{xzy}}") out.
Proof. apply replace_field_literal. reflexivity. Defined.

Lemma expand_app t1 t2 m gs :
  Re.expand (t1 ++ t2) m gs = Re.expand t1 m gs ++ Re.expand t2 m gs.
Proof. apply flat_map_app. Qed.

(** X8.  Two backslashes in a row in the value stand for one: the value
    [a\\b], with [a] and [b] free of backslashes, is substituted as [a\b]. *)
Theorem replace_field_doubled_backslash content fieldname a b :
  no_backslash a -> no_backslash b ->
  replace_field content fieldname (a ++ [BACKSLASH; BACKSLASH] ++ b) =
  Ok (str_replace (placeholder fieldname) (a ++ [BACKSLASH] ++ b) content).
Proof.
  intros Ha Hb. rewrite replace_field_eq, (parse_prefix 0 a _ Ha).
  cbn [app Re.parse]. rewrite N.eqb_refl. cbn [negb].
  change (BACKSLASH =? ord "g") with false.
  change (BACKSLASH =? ord "0") with false.
  change (Re.is_digit BACKSLASH) with false.
  change (Re.escapes BACKSLASH) with (Some BACKSLASH). cbv iota.
  rewrite (parse_plain 0 b Hb). cbn [Re.lit bind].
  rewrite expand_app, expand_plain.
  change (Re.TLit BACKSLASH :: map Re.TLit b) with (map Re.TLit (BACKSLASH :: b)).
  now rewrite expand_plain.
Qed.

Lemma replace_field_doubled_backslash_witness :
  replace_field (text "dir: {{d}}") (text "d") (text "C:\\tmp") =
  Ok (text "dir: C:\tmp").
Proof.
  apply (replace_field_doubled_backslash (text "dir: {{d}}") (text "d")
           (text "C:") (text "tmp")); reflexivity.
Defined.

(** ** Substitution of a mapping *)

Lemma comprehension_entries (f : str -> str) d : forall acc k v',
  In (k, v') (fold_left (fun a kv => dict_set a (fst kv) (f (snd kv))) d acc) ->
  In (k, v') acc \/ exists v, In (k, v) d /\ v' = f v.
Proof.
  induction d as [|[k0 v0] d IH]; simpl; intros acc k v' H; [now left|].
  apply IH in H. destruct H as [H|(v & H & E)].
  - apply In_dict_set in H. destruct H as [[-> ->]|H]; [|now left].
    right. exists v0. split; [now left|reflexivity].
  - right. exists v. split; [now right|exact E].
Qed.

Lemma fold_replace_plain l : forall c,
  (forall kv, In kv l -> no_backslash (snd kv)) ->
  fold_left replace_next l (Ok c) =
  Ok (fold_left (fun c kv => str_replace (placeholder (fst kv)) (snd kv) c) l c).
Proof.
  induction l as [|[k v] l IH]; intros c H; [reflexivity|].
  cbn [fold_left]. unfold replace_next at 2. cbn [bind fst snd].
  rewrite (replace_field_plain c k v (H (k, v) (or_introl eq_refl))).
  apply IH. intros kv Hkv. apply H. now right.
Qed.

(** X9.  When no value of the mapping holds a backslash, [replace_fields]
    returns normally: the keys are taken in the order of the mapping, and
    for each of them the occurrences of its placeholder in the content
    reached so far are replaced by the trimmed value. *)
Theorem replace_fields_literal content meta_fields :
  NoDup (keys meta_fields) ->
  (forall k v, In (k, v) meta_fields -> no_backslash v) ->
  replace_fields content meta_fields =
  Ok (fold_left (fun c kv => str_replace (placeholder (fst kv)) (strip (snd kv)) c)
                meta_fields content).
Proof.
  intros Hnd Hv. rewrite replace_fields_eq.
  rewrite (comprehension_map strip meta_fields []); [|exact Hnd]. cbn [app].
  rewrite fold_replace_plain.
  - now rewrite fold_left_map.
  - intros kv Hkv. apply in_map_iff in Hkv. destruct Hkv as [[k v] [<- Hkv]].
    cbn [fst snd]. apply forallb_strip. exact (Hv k v Hkv).
Qed.

Lemma replace_fields_literal_witness :
  replace_fields (text "{{a}}+{{b}}={{ab}}")
                 [(text "a", text " 1"); (text "b", text "2 ")] =
  Ok (fold_left (fun c kv => str_replace (placeholder (fst kv)) (strip (snd kv)) c)
                [(text "a", text " 1"); (text "b", text "2 ")]
                (text "{{a}}+{{b}}={{ab}}")).
Proof.
  apply replace_fields_literal.
  - repeat constructor; cbn; intuition discriminate.
  - intros k v [H|[H|[]]]; injection H as _ <-; reflexivity.
Defined.

Lemma fold_replace_fails l : forall c e,
  fold_left replace_next l (Ok c) = Raise e <->
  exists before kv after,
    l = before ++ kv :: after /\
    (forall kv', In kv' before -> Re.parse_template 0 (snd kv') <> None) /\
    Re.parse 0 (snd kv) = Raise e.
Proof.
  induction l as [|[k v] l IH]; intros c e.
  - cbn. split; [discriminate|]. intros (before & kv & after & H & _).
    now destruct before.
  - cbn [fold_left]. unfold replace_next at 2. cbn [bind fst snd].
    rewrite replace_field_eq.
    destruct (Re.parse 0 v) as [t|e0] eqn:E; cbn [bind].
    + rewrite IH. split.
      * intros (before & kv & after & -> & Hb & P).
        exists ((k, v) :: before), kv, after. split; [reflexivity|].
        split; [|exact P]. intros kv' [<-|H]; [|now apply Hb].
        unfold Re.parse_template. cbn [snd]. now rewrite E.
      * intros (before & kv & after & H & Hb & P).
        destruct before as [|kv0 before]; cbn [app] in H.
        -- injection H as <- _. cbn [snd] in P. congruence.
        -- injection H as <- ->. exists before, kv, after.
           split; [reflexivity|]. split; [|exact P].
           intros kv' H. apply Hb. now right.
    + rewrite fold_replace_raise. split.
      * intros [= ->]. exists [], (k, v), l. now repeat split.
      * intros (before & kv & after & H & Hb & P).
        destruct before as [|kv0 before]; cbn [app] in H.
        -- injection H as <- _. cbn [snd] in P. congruence.
        -- injection H as <- _. exfalso.
           apply (Hb (k, v) (or_introl eq_refl)).
           unfold Re.parse_template. cbn [snd]. now rewrite E.
Qed.

(** X10.  [replace_fields] fails exactly when the trimmed text of some value
    of the mapping is no well-formed replacement template, whatever the
    content and the keys.  The exception is the one the template parser
    raises for the first such value in the order of the mapping; it is no
    [KeyError]. *)
Theorem replace_fields_failure content meta_fields e :
  NoDup (keys meta_fields) ->
  (replace_fields content meta_fields = Raise e <->
   exists before k v after,
     meta_fields = before ++ (k, v) :: after /\
     (forall k' v', In (k', v') before ->
        Re.parse_template 0 (strip v') <> None) /\
     Re.parse 0 (strip v) = Raise e) /\
  (replace_fields content meta_fields = Raise e -> e <> KeyError).
Proof.
  intro Hnd. split; [|intros H ->; exact (replace_fields_raise _ _ H)].
  rewrite replace_fields_eq.
  rewrite (comprehension_map strip meta_fields []); [|exact Hnd]. cbn [app].
  rewrite fold_replace_fails. split.
  - intros (before' & kv' & after' & H & Hb & P).
    apply map_eq_app in H. destruct H as (before & rest & -> & <- & H).
    apply map_eq_cons in H. destruct H as ([k v] & after & -> & <- & <-).
    exists before, k, v, after. split; [reflexivity|]. split; [|exact P].
    intros k' v' Hin.
    apply (Hb (k', strip v')), in_map_iff. now exists (k', v').
  - intros (before & k & v & after & -> & Hb & P).
    exists (map (fun kv => (fst kv, strip (snd kv))) before), (k, strip v),
           (map (fun kv => (fst kv, strip (snd kv))) after).
    split; [now rewrite map_app|]. split; [|exact P].
    intros kv' Hin. apply in_map_iff in Hin. destruct Hin as [[k' v'] [<- Hin]].
    exact (Hb k' v' Hin).
Qed.

Lemma replace_fields_failure_witness :
  replace_fields (text "{{a}}")
    [(text "a", text "ok"); (text "b", text " \g<title> "); (text "c", text "C:\dir")]
  = Raise IndexError.
Proof.
  apply (proj1 (replace_fields_failure (text "{{a}}")
                  [(text "a", text "ok"); (text "b", text " \g<title> ");
                   (text "c", text "C:\dir")] IndexError
                  ltac:(repeat constructor; cbn; intuition discriminate))).
  exists [(text "a", text "ok")], (text "b"), (text " \g<title> "),
         [(text "c", text "C:\dir")].
  split; [reflexivity|]. split; [|reflexivity].
  intros k' v' [[= <- <-]|[]]. discriminate.
Defined.

(** X11.  When no placeholder of a key of the mapping occurs in the content
    and every trimmed value is a well-formed template, [replace_fields]
    returns the content unchanged. *)
Theorem replace_fields_absent content meta_fields :
  (forall k v, In (k, v) meta_fields ->
     ~ occurs (placeholder k) content /\
     Re.parse_template 0 (strip v) <> None) ->
  replace_fields content meta_fields = Ok content.
Proof.
  intro H. rewrite replace_fields_eq.
  assert (G : forall kv,
            In kv (fold_left (fun a kv => dict_set a (fst kv) (strip (snd kv)))
                             meta_fields []) ->
            ~ occurs (placeholder (fst kv)) content /\
            Re.parse_template 0 (snd kv) <> None).
  { intros [k v'] Hin. apply comprehension_entries in Hin.
    destruct Hin as [[]|(v & Hin & ->)]. exact (H k v Hin). }
  revert G. generalize (fold_left (fun a kv => dict_set a (fst kv) (strip (snd kv)))
                                  meta_fields []).
  intros l. induction l as [|[k v] l IH]; intro G; [reflexivity|].
  cbn [fold_left]. unfold replace_next at 2. cbn [bind fst snd].
  destruct (G (k, v) (or_introl eq_refl)) as [Hno Hv]. cbn [fst snd] in Hno, Hv.
  rewrite replace_field_eq.
  destruct (parse_template_Some 0 v Hv) as [t ->]. cbn [bind].
  unfold str_replace.
  rewrite str_replace_no_match; [|now apply not_occurs_no_match].
  apply IH. intros kv Hkv. apply G. now right.
Qed.

Lemma replace_fields_absent_witness :
  replace_fields (text "Hi {{who}} {name}")
                 [(text "name", text "Ann"); (text "wh", text "\\")] =
  Ok (text "Hi {{who}} {name}").
Proof.
  apply replace_fields_absent.
  intros k v [H|[H|[]]]; injection H as <- <-; (split; [|discriminate]);
    intro O; apply occursb_spec in O; vm_compute in O; discriminate O.
Defined.

Lemma str_replace_self old new : old <> [] -> str_replace old new old = new.
Proof.
  intro H. unfold str_replace. destruct old as [|o old']; [contradiction|].
  cbn [str_replace_from].
  pose proof (starts_with_app (o :: old') []) as E. rewrite app_nil_r in E.
  rewrite E.
  replace (length (o :: old') - 1)%nat with (length old') by (simpl; lia).
  pose proof (str_replace_skip (o :: old') new old' []) as S.
  rewrite app_nil_r in S. rewrite S. cbn. apply app_nil_r.
Qed.

Lemma str_replace_other k n new :
  brace_free k -> brace_free n -> n <> k ->
  str_replace (placeholder k) new (placeholder n) = placeholder n.
Proof.
  intros Hk Hn Hne. apply str_replace_no_match. intros a1 a2 E Ha2.
  destruct (starts_with (placeholder k) a2) as [r|] eqn:H; [|reflexivity].
  exfalso. rewrite <- (app_nil_r a2) in H.
  exact (placeholder_inside k n a1 a2 [] r Hk Hn Hne E Ha2 H).
Qed.

Lemma rstrip_app_last w c u :
  Unicode.isspace c = false -> rstrip ((w ++ [c]) ++ u) = (w ++ [c]) ++ rstrip u.
Proof.
  intro Hc. induction w as [|x w IH].
  - cbn [app rstrip]. destruct (rstrip u); [now rewrite Hc|reflexivity].
  - cbn [app]. cbn [rstrip]. rewrite IH.
    destruct ((w ++ [c]) ++ rstrip u) eqn:E; [|reflexivity].
    destruct w; discriminate E.
Qed.

Lemma strip_placeholder name : strip (placeholder name) = placeholder name.
Proof.
  unfold strip.
  assert (L : lstrip (placeholder name) = placeholder name) by reflexivity.
  assert (E : placeholder name = (LBRACE :: LBRACE :: name ++ [RBRACE]) ++ [RBRACE]).
  { unfold placeholder. cbn. now rewrite <- app_assoc. }
  rewrite L, E.
  pose proof (rstrip_app_last (LBRACE :: LBRACE :: name ++ [RBRACE]) RBRACE []
                eq_refl) as Q.
  cbn [rstrip] in Q. now rewrite !app_nil_r in Q.
Qed.

Lemma no_backslash_placeholder name :
  no_backslash name -> no_backslash (placeholder name).
Proof.
  unfold no_backslash, placeholder. intro H. rewrite !forallb_app.
  apply andb_true_iff. split; [reflexivity|].
  apply andb_true_iff. split; [exact H|reflexivity].
Qed.

(** X12.  The values are substituted one key after the other into the same
    text, so a value that holds the placeholder of a later key is itself
    substituted, and one that holds the placeholder of an earlier key is
    not: the result depends on the order of the mapping.  For distinct keys
    [a] and [b] without braces, [b] without backslash, and a value [x]
    without backslash, the mapping {a: "{{b}}", b: x} turns "{{a}}" into the
    trimmed [x], and the mapping {b: x, a: "{{b}}"} turns it into "{{b}}". *)
Theorem substitution_order a b x :
  brace_free a -> brace_free b -> a <> b ->
  no_backslash b -> no_backslash x ->
  replace_fields (placeholder a) [(a, placeholder b); (b, x)] = Ok (strip x) /\
  replace_fields (placeholder a) [(b, x); (a, placeholder b)] = Ok (placeholder b).
Proof.
  intros Ha Hb Hne Hbb Hx.
  assert (Hpb : forallb (fun c => negb (c =? BACKSLASH)) (placeholder b) = true)
    by now apply no_backslash_placeholder.
  assert (Hsx : forallb (fun c => negb (c =? BACKSLASH)) (strip x) = true)
    by now apply forallb_strip.
  split; rewrite replace_fields_eq; cbn [fold_left dict_set fst snd].
  - rewrite (str_eqb_neq a b Hne). cbn [fold_left]. unfold replace_next.
    cbn [bind fst snd]. rewrite strip_placeholder.
    rewrite (replace_field_plain _ a _ Hpb), str_replace_self by discriminate.
    cbn [bind].
    now rewrite (replace_field_plain _ b _ Hsx), str_replace_self by discriminate.
  - rewrite (str_eqb_neq b a (not_eq_sym Hne)). cbn [fold_left].
    unfold replace_next. cbn [bind fst snd]. rewrite strip_placeholder.
    rewrite (replace_field_plain _ b _ Hsx), (str_replace_other b a _ Hb Ha Hne).
    cbn [bind].
    now rewrite (replace_field_plain _ a _ Hpb), str_replace_self by discriminate.
Qed.

Lemma substitution_order_witness :
  replace_fields (text "{{title}}") [(text "title", text "{{site}}");
                                      (text "site", text " lste ")]
    = Ok (text "lste") /\
  replace_fields (text "{{title}}") [(text "site", text " lste ");
                                      (text "title", text "{{site}}")]
    = Ok (text "{{site}}").
Proof.
  assert (E : strip (text " lste ") = text "lste") by (vm_compute; reflexivity).
  rewrite <- E.
  apply (substitution_order (text "title") (text "site") (text " lste "));
    try reflexivity. discriminate.
Defined.

(** ** Loading, and loading before substituting *)

Lemma dict_get_app_skip {V} (done rest : dict V) k :
  ~ In k (keys done) -> dict_get (done ++ rest) k = dict_get rest k.
Proof.
  induction done as [|[k0 v0] done IH]; intro H; [reflexivity|].
  cbn [app dict_get]. destruct (str_eqb k0 k) eqn:E.
  - apply str_eqb_eq in E. subst. contradict H. now left.
  - apply IH. intro Hin. apply H. now right.
Qed.

Lemma dict_set_app_skip {V} (done rest : dict V) k v :
  ~ In k (keys done) -> dict_set (done ++ rest) k v = done ++ dict_set rest k v.
Proof.
  induction done as [|[k0 v0] done IH]; intro H; [reflexivity|].
  cbn [app dict_set]. destruct (str_eqb k0 k) eqn:E.
  - apply str_eqb_eq in E. subst. contradict H. now left.
  - f_equal. apply IH. intro Hin. apply H. now right.
Qed.

Lemma keys_load_entry docs : keys (map load_entry docs) = keys docs.
Proof. unfold keys. rewrite map_map. reflexivity. Qed.

Lemma keys_app {V} (a b : dict V) : keys (a ++ b) = keys a ++ keys b.
Proof. apply map_app. Qed.

(** The loop over the keys of a run of records that all have a content
    loads the run and leaves the rest of the document set alone. *)
Lemma load_loop_prefix pre : forall done rest ks,
  NoDup (keys (done ++ pre)) ->
  (forall fd, In fd pre -> content (snd fd) <> None) ->
  load_loop (keys pre ++ ks) (done ++ pre ++ rest) =
  load_loop ks (done ++ map load_entry pre ++ rest).
Proof.
  induction pre as [|[f d] pre IH]; intros done rest ks Hnd Hc; [reflexivity|].
  assert (Hf : ~ In f (keys done)).
  { rewrite keys_app in Hnd. cbn in Hnd. apply NoDup_remove_2 in Hnd.
    intro H. apply Hnd, in_or_app. now left. }
  pose proof (Hc (f, d) (or_introl eq_refl)) as Hd. cbn [snd] in Hd.
  destruct (content d) as [c|] eqn:Ec; [clear Hd|contradiction].
  cbn [keys map app fst load_loop]. fold (keys pre).
  rewrite (dict_get_app_skip done _ f Hf). cbn [dict_get].
  rewrite str_eqb_refl, Ec, extract_eq. cbv beta iota zeta.
  fold (load_doc d c).
  rewrite (dict_set_app_skip done _ f _ Hf). cbn [dict_set].
  rewrite str_eqb_refl.
  change (done ++ (f, load_doc d c) :: pre ++ rest)
    with (done ++ [(f, load_doc d c)] ++ pre ++ rest).
  rewrite app_assoc, IH.
  - rewrite <- app_assoc.
    assert (E : load_entry (f, d) = (f, load_doc d c)).
    { unfold load_entry, loaded. cbn [fst snd]. now rewrite Ec. }
    now rewrite E.
  - unfold keys in *. rewrite !map_app in *. cbn [map fst] in *.
    rewrite <- app_assoc. exact Hnd.
  - intros fd H. apply Hc. now right.
Qed.

Lemma load_meta_fields_map docs :
  NoDup (keys docs) ->
  (forall fd, In fd docs -> content (snd fd) <> None) ->
  load_meta_fields docs = (map load_entry docs, None).
Proof.
  intros Hnd Hc. unfold load_meta_fields.
  pose proof (load_loop_prefix docs [] [] [] Hnd Hc) as E.
  cbn [app] in E. rewrite !app_nil_r in E. exact E.
Qed.

(** X13.  The document set [load_meta_fields] leaves behind.  When every
    record has a content, each record is replaced, in place and in order, by
    its loaded form and the call returns normally.  When a record lacks its
    content, the call raises [KeyError] there: the records before it are
    loaded, that record and those after it are as they were. *)
Theorem load_meta_fields_state :
  (forall docs,
     NoDup (keys docs) ->
     (forall fd, In fd docs -> content (snd fd) <> None) ->
     load_meta_fields docs = (map load_entry docs, None)) /\
  (forall pre file doc post,
     NoDup (keys (pre ++ (file, doc) :: post)) ->
     (forall fd, In fd pre -> content (snd fd) <> None) ->
     content doc = None ->
     load_meta_fields (pre ++ (file, doc) :: post) =
     (map load_entry pre ++ (file, doc) :: post, Some KeyError)).
Proof.
  split; [exact load_meta_fields_map|].
  intros pre file doc post Hnd Hc Hdoc. unfold load_meta_fields.
  rewrite keys_app.
  assert (Hpre : NoDup (keys ([] ++ pre))).
  { rewrite keys_app in Hnd. now apply NoDup_app_remove_r in Hnd. }
  rewrite (load_loop_prefix pre [] ((file, doc) :: post) _ Hpre Hc).
  cbn [app keys map fst load_loop].
  rewrite dict_get_app_skip.
  - cbn [dict_get]. now rewrite str_eqb_refl, Hdoc.
  - rewrite keys_load_entry. rewrite keys_app in Hnd. cbn in Hnd.
    apply NoDup_remove_2 in Hnd. intro H. apply Hnd, in_or_app. now left.
Qed.

Lemma load_meta_fields_state_witness :
  load_meta_fields
    [(text "a", {| content := Some (text " {{t:1}}A "); meta := None |});
     (text "b", {| content := None; meta := None |});
     (text "c", {| content := Some (text "{{t:3}}"); meta := None |})] =
  ([(text "a", {| content := Some (text "A"); meta := Some [(text "t", text "1")] |});
    (text "b", {| content := None; meta := None |});
    (text "c", {| content := Some (text "{{t:3}}"); meta := None |})],
   Some KeyError).
Proof.
  apply (proj2 load_meta_fields_state
           [(text "a", {| content := Some (text " {{t:1}}A "); meta := None |})]
           (text "b") {| content := None; meta := None |}
           [(text "c", {| content := Some (text "{{t:3}}"); meta := None |})]).
  - repeat constructor; cbn; intuition discriminate.
  - intros fd [<-|[]]. discriminate.
  - reflexivity.
Defined.

Lemma load_meta_fields_outcome_witness :
  snd (load_meta_fields
         [(text "a", {| content := Some (text "A"); meta := None |});
          (text "b", {| content := None; meta := Some [] |})]) = Some KeyError.
Proof.
  apply (proj1 (load_meta_fields_outcome
                  [(text "a", {| content := Some (text "A"); meta := None |});
                   (text "b", {| content := None; meta := Some [] |})]
                  ltac:(repeat constructor; cbn; intuition discriminate))).
  exists (text "b"), {| content := None; meta := Some [] |}.
  split; [right; now left|reflexivity].
Defined.

Lemma loaded_twice doc c :
  content doc = Some c -> well_marked c -> loaded (loaded doc) = loaded doc.
Proof.
  intros Ec W. unfold loaded at 2 3. rewrite Ec. unfold loaded, load_doc.
  cbn [content meta].
  set (cleaned := strip (Re.rebuild [] (Re.scan pattern 0 c))).
  assert (N : no_marker cleaned).
  { apply plain_no_marker, forallb_strip, well_marked_rest, W. }
  assert (F : Re.findall pattern cleaned = []).
  { unfold Re.findall. rewrite (scan_no_match _ _ N). apply hits_text. }
  rewrite F, (scan_no_match _ _ N), rebuild_text. unfold cleaned at 1.
  rewrite strip_idem. reflexivity.
Qed.

(** X14.  Loading is idempotent on contents made of markers and of text
    without opening brace: a second [load_meta_fields] on the document set
    the first one left returns normally and changes nothing. *)
Theorem load_twice docs :
  NoDup (keys docs) ->
  (forall file doc, In (file, doc) docs ->
     exists c, content doc = Some c /\ well_marked c) ->
  exists docs',
    load_meta_fields docs = (docs', None) /\
    load_meta_fields docs' = (docs', None).
Proof.
  intros Hnd Hw. exists (map load_entry docs). split.
  - apply load_meta_fields_map; [exact Hnd|].
    intros [f d] H. destruct (Hw f d H) as (c & Ec & _). cbn. congruence.
  - rewrite load_meta_fields_map.
    + f_equal. rewrite map_map. apply map_ext_in. intros [f d] H.
      destruct (Hw f d H) as (c & Ec & W). unfold load_entry. cbn [fst snd].
      now rewrite (loaded_twice d c Ec W).
    + now rewrite keys_load_entry.
    + intros fd H. apply in_map_iff in H. destruct H as [[f d] [<- H]].
      destruct (Hw f d H) as (c & Ec & _). unfold load_entry, loaded.
      cbn [fst snd]. rewrite Ec. discriminate.
Qed.

Lemma load_twice_witness :
  exists docs',
    load_meta_fields
      [(text "a.md", {| content := Some (text "Intro " ++ marker (text "t") (text "1")
                                           ++ text " end");
                        meta := Some [(text "t", text "0")] |})]
      = (docs', None) /\
    load_meta_fields docs' = (docs', None).
Proof.
  apply load_twice.
  - repeat constructor. intros [].
  - intros file doc [H|[]]. injection H as _ <-.
    exists (text "Intro " ++ marker (text "t") (text "1") ++ text " end").
    split; [reflexivity|].
    apply (wm_marker (text "Intro ") (text "t") (text "1") (text " end"));
      [reflexivity| | |].
    + split; [discriminate|reflexivity].
    + reflexivity.
    + apply wm_text. reflexivity.
Defined.

Lemma dict_get_In {V} (d : dict V) k v : dict_get d k = Some v -> In (k, v) d.
Proof.
  induction d as [|[k0 v0] d IH]; simpl; [discriminate|].
  destruct (str_eqb k0 k) eqn:E; [|auto].
  apply str_eqb_eq in E. subst. intro H. injection H as ->. now left.
Qed.

Lemma dict_get_load_entry docs file :
  dict_get (map load_entry docs) file = option_map loaded (dict_get docs file).
Proof.
  induction docs as [|[f d] docs IH]; [reflexivity|].
  cbn [map load_entry fst snd dict_get]. now destruct (str_eqb f file).
Qed.

(** X15.  After [load_meta_fields] has returned normally, every file key of
    the document set has a record with a meta mapping, so
    [replace_meta_fields] never fails with a lookup error on such a key,
    whatever the content it is given. *)
Theorem lookup_after_load docs :
  NoDup (keys docs) ->
  (forall fd, In fd docs -> content (snd fd) <> None) ->
  exists docs',
    load_meta_fields docs = (docs', None) /\
    forall file content,
      In file (keys docs) ->
      (exists doc m, dict_get docs' file = Some doc /\ meta doc = Some m) /\
      replace_meta_fields content file docs' <> Raise KeyError.
Proof.
  intros Hnd Hc. exists (map load_entry docs).
  split; [now apply load_meta_fields_map|].
  intros file c Hin. apply In_keys_get in Hin.
  destruct (dict_get docs file) as [doc|] eqn:Eg; [clear Hin|contradiction].
  pose proof (Hc (file, doc) (dict_get_In _ _ _ Eg)) as Hd. cbn [snd] in Hd.
  destruct (content doc) as [fc|] eqn:Ec; [clear Hd|contradiction].
  assert (G : dict_get (map load_entry docs) file = Some (load_doc doc fc)).
  { rewrite dict_get_load_entry, Eg. unfold loaded. cbn. now rewrite Ec. }
  split.
  - eexists _, _. split; [exact G|reflexivity].
  - unfold replace_meta_fields. rewrite G. cbn [load_doc meta].
    apply replace_fields_raise.
Qed.

Lemma lookup_after_load_witness :
  exists docs',
    load_meta_fields [(text "a", {| content := Some (text "{{k:v}}"); meta := None |})]
      = (docs', None) /\
    replace_meta_fields (text "{{k}}") (text "a") docs' <> Raise KeyError.
Proof.
  destruct (lookup_after_load
              [(text "a", {| content := Some (text "{{k:v}}"); meta := None |})])
    as (docs' & Hl & H).
  - repeat constructor. intros [].
  - intros fd [<-|[]]. discriminate.
  - exists docs'. split; [exact Hl|].
    apply (H (text "a") (text "{{k}}")). now left.
Defined.

Lemma name_set_not_lbrace c : name_set c = true -> (c =? LBRACE) = false.
Proof.
  intro H. destruct (c =? LBRACE) eqn:E; [|reflexivity].
  apply N.eqb_eq in E. subst c. discriminate H.
Qed.

(** The placeholder of a name is no marker: the scan copies it. *)
Lemma scan_placeholder name rest :
  valid_name name ->
  Re.scan pattern 0 (placeholder name ++ rest) =
  map Re.Text (placeholder name) ++ Re.scan pattern 0 rest.
Proof.
  intros [Hne Hn].
  assert (P : plain (name ++ [RBRACE; RBRACE])).
  { unfold plain. rewrite forallb_app. apply andb_true_iff. split; [|reflexivity].
    rewrite forallb_forall in *. intros c Hc.
    apply negb_true_iff, name_set_not_lbrace. now apply Hn. }
  rewrite <- (app_nil_r (placeholder name)) at 2.
  rewrite !placeholder_shape.
  assert (M0 : Re.match_here pattern
                 (LBRACE :: LBRACE :: name ++ RBRACE :: RBRACE :: rest) = None).
  { rewrite match_here_pattern. cbn [starts_with]. rewrite !N.eqb_refl.
    destruct (take_while_stop name_set name RBRACE (RBRACE :: rest) Hn eq_refl)
      as [-> ->].
    now destruct name. }
  rewrite scan_cons, M0.
  assert (M : Re.match_here pattern (LBRACE :: name ++ RBRACE :: RBRACE :: rest) = None).
  { rewrite match_here_pattern. destruct name as [|c name]; [contradiction|].
    cbn [app starts_with]. rewrite N.eqb_refl.
    cbn [forallb] in Hn. apply andb_true_iff in Hn. destruct Hn as [Hc _].
    now rewrite (name_set_not_lbrace c Hc). }
  rewrite scan_cons, M. cbn [map app]. do 2 f_equal.
  pose proof (scan_plain (name ++ [RBRACE; RBRACE]) rest P) as Q.
  rewrite <- app_assoc in Q. cbn [app] in Q. exact Q.
Qed.

Lemma lstrip_app_nonspace t c u :
  Unicode.isspace c = false -> lstrip (t ++ c :: u) = lstrip t ++ c :: u.
Proof.
  intro H. induction t as [|x t IH]; cbn [app lstrip]; [now rewrite H|].
  now destruct (Unicode.isspace x).
Qed.

Lemma strip_around_placeholder t name u :
  strip (t ++ placeholder name ++ u) = lstrip t ++ placeholder name ++ rstrip u.
Proof.
  unfold strip. rewrite placeholder_shape.
  rewrite (lstrip_app_nonspace t LBRACE _ eq_refl).
  replace (lstrip t ++ LBRACE :: LBRACE :: name ++ RBRACE :: RBRACE :: u)
    with (((lstrip t ++ LBRACE :: LBRACE :: name ++ [RBRACE]) ++ [RBRACE]) ++ u)
    by (rewrite <- !app_assoc; cbn; now rewrite <- !app_assoc).
  rewrite (rstrip_app_last _ RBRACE u eq_refl), placeholder_shape.
  rewrite <- !app_assoc. cbn. now rewrite <- !app_assoc.
Qed.

Lemma str_replace_plain_prefix old' new w s :
  plain w ->
  str_replace_from (LBRACE :: old') new 0 (w ++ s) =
  w ++ str_replace_from (LBRACE :: old') new 0 s.
Proof.
  unfold plain. induction w as [|x w IH]; intro H; [reflexivity|].
  cbn [forallb] in H. apply andb_true_iff in H. destruct H as [Hx Hw].
  apply negb_true_iff in Hx. cbn [app str_replace_from starts_with].
  rewrite Hx. f_equal. now apply IH.
Qed.

Lemma str_replace_around name new w z :
  plain w -> plain z ->
  str_replace (placeholder name) new (w ++ placeholder name ++ z) = w ++ new ++ z.
Proof.
  intros Hw Hz. unfold str_replace.
  assert (E : placeholder name = LBRACE :: LBRACE :: name ++ [RBRACE; RBRACE]).
  { rewrite <- (app_nil_r (placeholder name)). apply placeholder_shape. }
  remember (placeholder name) as ph eqn:P. clear P.
  destruct ph as [|o old']; [discriminate E|]. injection E as -> _.
  rewrite (str_replace_plain_prefix old' new w _ Hw). f_equal.
  cbn [app str_replace_from].
  pose proof (starts_with_app (LBRACE :: old') z) as S. cbn [app] in S. rewrite S.
  replace (length (LBRACE :: old') - 1)%nat with (length old') by (simpl; lia).
  rewrite str_replace_skip. f_equal.
  pose proof (str_replace_plain_prefix old' new z [] Hz) as Q.
  rewrite !app_nil_r in Q. exact Q.
Qed.

(** X16.  A field defined by a marker and used by a placeholder.  For a
    document whose content is a marker, then text, then the placeholder of
    the same name, then text (the texts without opening brace, the value
    without backslash), [load_meta_fields] leaves the mapping of the name to
    the trimmed value and the content without the marker, trimmed, and
    [replace_meta_fields] on that content puts the trimmed value in the
    place of the placeholder. *)
Theorem define_then_use file name value t u :
  valid_name name -> valid_value value -> no_backslash value ->
  plain t -> plain u ->
  exists docs' cleaned,
    load_meta_fields
      [(file, {| content := Some (marker name value ++ t ++ placeholder name ++ u);
                 meta := None |})] = (docs', None) /\
    dict_get docs' file
      = Some {| content := Some cleaned; meta := Some [(name, strip value)] |} /\
    cleaned = lstrip t ++ placeholder name ++ rstrip u /\
    replace_meta_fields cleaned file docs'
      = Ok (lstrip t ++ strip value ++ rstrip u).
Proof.
  intros Hn Hv Hb Ht Hu.
  set (c := marker name value ++ t ++ placeholder name ++ u).
  set (doc := {| content := Some c; meta := None |}).
  assert (S : Re.scan pattern 0 c =
              Re.Hit (marker name value) [name; value]
                :: map Re.Text t ++ map Re.Text (placeholder name) ++ map Re.Text u).
  { unfold c. rewrite (scan_marker name value _ Hn Hv), (scan_plain t _ Ht).
    rewrite (scan_placeholder name u Hn).
    pose proof (scan_plain u [] Hu) as E. rewrite app_nil_r in E. rewrite E.
    cbn [Re.scan]. now rewrite app_nil_r. }
  assert (L : load_doc doc c =
              {| content := Some (lstrip t ++ placeholder name ++ rstrip u);
                 meta := Some [(name, strip value)] |}).
  { unfold load_doc, Re.findall. rewrite S. f_equal.
    - rewrite rebuild_hit, !rebuild_app, !rebuild_text. cbn [Re.expand flat_map app].
      now rewrite strip_around_placeholder.
    - rewrite hits_hit, !hits_app, !hits_text. cbn [app meta doc].
      unfold meta_dict_of. cbn [fold_left add_field].
      rewrite (strip_name name (proj2 Hn)). reflexivity. }
  exists [(file, load_doc doc c)], (lstrip t ++ placeholder name ++ rstrip u).
  split; [|split; [|split; [reflexivity|]]].
  - rewrite load_meta_fields_map; [reflexivity| |].
    + repeat constructor. intros [].
    + intros fd [<-|[]]. discriminate.
  - cbn [dict_get]. now rewrite str_eqb_refl, L.
  - unfold replace_meta_fields. cbn [dict_get]. rewrite str_eqb_refl, L.
    cbn [meta]. rewrite replace_fields_eq. cbn [fold_left dict_set fst snd].
    rewrite strip_idem. unfold replace_next. cbn [bind fst snd].
    rewrite replace_field_plain by now apply forallb_strip.
    f_equal. apply str_replace_around.
    + unfold plain. rewrite lstrip_drop_while. now apply forallb_drop_while.
    + now apply forallb_rstrip.
Qed.

Lemma define_then_use_witness :
  exists docs' cleaned,
    load_meta_fields
      [(text "post.md",
        {| content := Some (marker (text "title") (text " My  Post ")
                              ++ text "  Read: " ++ placeholder (text "title")
                              ++ text "! ");
           meta := None |})] = (docs', None) /\
    dict_get docs' (text "post.md")
      = Some {| content := Some cleaned;
                meta := Some [(text "title", strip (text " My  Post "))] |} /\
    cleaned = lstrip (text "  Read: ") ++ placeholder (text "title")
                ++ rstrip (text "! ") /\
    replace_meta_fields cleaned (text "post.md") docs'
      = Ok (lstrip (text "  Read: ") ++ strip (text " My  Post ")
              ++ rstrip (text "! ")).
Proof.
  apply define_then_use; try reflexivity.
  split; [discriminate|reflexivity].
Defined.
